(** * Turntable renderer and asset-generation scripts: a shallow embedding

    The two scripts of the repository are sequences of calls into a host
    (the 3D tool's scripting interface for [render_script.py], the
    image-to-3D library for [example.py]).  The embedding keeps the
    control flow of the scripts as it is written and threads an explicit
    world (scene, disk, console and host-call log) through every call.

    Conventions of the embedding:
    - Python [int] is [Z]; Python [float] is idealised as a real number
      ([R]), so rounding, overflow and NaN are outside the model;
    - Python [str] is [string]; paths are POSIX paths;
    - an exception is a value of [exn] returned next to the world reached
      when it was raised;
    - a console message is a constructor of [message] carrying the values
      interpolated into the format string. *)

From Stdlib Require Import List String Ascii Bool ZArith Lia.
From Stdlib Require Import DecimalString.
From Stdlib Require Import Reals Lra.
Import ListNotations.

Local Open Scope string_scope.
Local Open Scope Z_scope.

(** ** Python's string and path library, as far as the scripts use it *)

Module Py.

(** [s.rfind(c)]: the highest index of [c] in [s], or -1. *)
Fixpoint rfind_from (c : ascii) (s : string) (i last : Z) : Z :=
  match s with
  | EmptyString => last
  | String a s' => rfind_from c s' (i + 1) (if Ascii.eqb a c then i else last)
  end.

Definition rfind (c : ascii) (s : string) : Z := rfind_from c s 0 (-1).

(** [s[:k]] and [s[k:]] for an index [0 <= k]. *)
Definition slice_to (s : string) (k : Z) : string :=
  substring 0 (Z.to_nat k) s.

Definition slice_from (s : string) (k : Z) : string :=
  substring (Z.to_nat k) (String.length s - Z.to_nat k) s.

(** [s[k:k+1]], a string of length at most one. *)
Definition char_at (s : string) (k : Z) : string :=
  substring (Z.to_nat k) 1 s.

(** The [while filenameIndex < dotIndex] loop of [genericpath._splitext]:
    [n] is the number of iterations left, [i] is [filenameIndex]. *)
Fixpoint splitext_scan (p : string) (dotIndex : Z) (n : nat) (i : Z)
  : string * string :=
  match n with
  | O => (p, EmptyString)
  | S n' =>
      if negb (String.eqb (char_at p i) ".")
      then (slice_to p dotIndex, slice_from p dotIndex)
      else splitext_scan p dotIndex n' (i + 1)
  end.

(** [os.path.splitext] (posixpath: sep "/", no altsep, extsep "."). *)
Definition splitext (p : string) : string * string :=
  let sepIndex := rfind "/"%char p in
  let dotIndex := rfind "."%char p in
  if sepIndex <? dotIndex
  then splitext_scan p dotIndex (Z.to_nat (dotIndex - (sepIndex + 1)))
                     (sepIndex + 1)
  else (p, EmptyString).

(** [os.path.basename]. *)
Definition basename (p : string) : string :=
  slice_from p (rfind "/"%char p + 1).

Definition startswith_sep (s : string) : bool :=
  match s with
  | String "/"%char _ => true
  | _ => false
  end.

Fixpoint endswith_sep (s : string) : bool :=
  match s with
  | EmptyString => false
  | String c EmptyString => Ascii.eqb c "/"%char
  | String _ s' => endswith_sep s'
  end.

(** [os.path.join(a, b)] with two arguments. *)
Definition join (a b : string) : string :=
  if startswith_sep b then b
  else if (String.eqb a EmptyString || endswith_sep a)%bool then a ++ b
  else a ++ "/" ++ b.

(** [str.lower] on the characters A..Z. *)
Definition lower_char (c : ascii) : ascii :=
  let n := nat_of_ascii c in
  if ((65 <=? n)%nat && (n <=? 90)%nat)%bool then ascii_of_nat (n + 32) else c.

Fixpoint lower (s : string) : string :=
  match s with
  | EmptyString => EmptyString
  | String c s' => String (lower_char c) (lower s')
  end.

(** [str(n)] for an integer. *)
Definition str_of_int (n : Z) : string := NilZero.string_of_int (Z.to_int n).

Fixpoint zeros (n : nat) : string :=
  match n with
  | O => EmptyString
  | S n' => String "0"%char (zeros n')
  end.

(** [format(n, "03d")]: sign first, then the digits padded with zeros on
    the left up to a total width of 3. *)
Definition format_03d (n : Z) : string :=
  if n <? 0
  then let d := str_of_int (- n) in
       "-" ++ zeros (2 - String.length d) ++ d
  else let d := str_of_int n in
       zeros (3 - String.length d) ++ d.

(** [range(start, stop, step)]: [None] stands for the [ValueError] raised
    on a zero step.  The length is computed as CPython does. *)
Definition range_len (start stop step : Z) : Z :=
  if 0 <? step then
    if start <? stop then (stop - start - 1) / step + 1 else 0
  else
    if stop <? start then (start - stop - 1) / (- step) + 1 else 0.

Definition range (start stop step : Z) : option (list Z) :=
  if step =? 0 then None
  else Some (map (fun i => start + Z.of_nat i * step)
                 (seq 0 (Z.to_nat (range_len start stop step)))).

End Py.


(** ** Vectors and matrices over the idealised floats *)

Module Geometry.

Local Open Scope R_scope.

Record vec3 : Type := mkVec { vx : R; vy : R; vz : R }.

Definition vzero : vec3 := mkVec 0 0 0.
Definition vone : vec3 := mkVec 1 1 1.

Definition vadd (a b : vec3) : vec3 :=
  mkVec (vx a + vx b) (vy a + vy b) (vz a + vz b).

Definition vsub (a b : vec3) : vec3 :=
  mkVec (vx a - vx b) (vy a - vy b) (vz a - vz b).

(** [v * k] and [v / k] for a scalar [k]. *)
Definition vscale (v : vec3) (k : R) : vec3 :=
  mkVec (vx v * k) (vy v * k) (vz v * k).

Definition vdiv (v : vec3) (k : R) : vec3 :=
  mkVec (vx v / k) (vy v / k) (vz v / k).

(** Row-major 3x3 matrix. *)
Record mat3 : Type := mkMat {
  m00 : R; m01 : R; m02 : R;
  m10 : R; m11 : R; m12 : R;
  m20 : R; m21 : R; m22 : R }.

Definition mat_id : mat3 := mkMat 1 0 0  0 1 0  0 0 1.

Definition mat_diag (s : vec3) : mat3 :=
  mkMat (vx s) 0 0  0 (vy s) 0  0 0 (vz s).

(** [m @ v]. *)
Definition mat_apply (m : mat3) (v : vec3) : vec3 :=
  mkVec (m00 m * vx v + m01 m * vy v + m02 m * vz v)
        (m10 m * vx v + m11 m * vy v + m12 m * vz v)
        (m20 m * vx v + m21 m * vy v + m22 m * vz v).

(** [a @ b]. *)
Definition mat_mul (a b : mat3) : mat3 :=
  mkMat (m00 a * m00 b + m01 a * m10 b + m02 a * m20 b)
        (m00 a * m01 b + m01 a * m11 b + m02 a * m21 b)
        (m00 a * m02 b + m01 a * m12 b + m02 a * m22 b)
        (m10 a * m00 b + m11 a * m10 b + m12 a * m20 b)
        (m10 a * m01 b + m11 a * m11 b + m12 a * m21 b)
        (m10 a * m02 b + m11 a * m12 b + m12 a * m22 b)
        (m20 a * m00 b + m21 a * m10 b + m22 a * m20 b)
        (m20 a * m01 b + m21 a * m11 b + m22 a * m21 b)
        (m20 a * m02 b + m21 a * m12 b + m22 a * m22 b).

Definition mat_det (m : mat3) : R :=
  m00 m * (m11 m * m22 m - m12 m * m21 m)
  - m01 m * (m10 m * m22 m - m12 m * m20 m)
  + m02 m * (m10 m * m21 m - m11 m * m20 m).

(** Inverse by the adjugate (division is total on [R]; a singular matrix
    has no inverse and the value is then of no use). *)
Definition mat_inv (m : mat3) : mat3 :=
  let d := mat_det m in
  mkMat ((m11 m * m22 m - m12 m * m21 m) / d)
        ((m02 m * m21 m - m01 m * m22 m) / d)
        ((m01 m * m12 m - m02 m * m11 m) / d)
        ((m12 m * m20 m - m10 m * m22 m) / d)
        ((m00 m * m22 m - m02 m * m20 m) / d)
        ((m02 m * m10 m - m00 m * m12 m) / d)
        ((m10 m * m21 m - m11 m * m20 m) / d)
        ((m01 m * m20 m - m00 m * m21 m) / d)
        ((m00 m * m11 m - m01 m * m10 m) / d).

(** Smallest and largest element of a non-empty list [x :: l]. *)
Fixpoint min_list (x : R) (l : list R) : R :=
  match l with
  | [] => x
  | y :: l' => Rmin x (min_list y l')
  end.

Fixpoint max_list (x : R) (l : list R) : R :=
  match l with
  | [] => x
  | y :: l' => Rmax x (max_list y l')
  end.

(** Lower and upper bound of a list of coordinates; an empty list is
    given the degenerate interval at 0. *)
Definition lower_bound (l : list R) : R :=
  match l with
  | [] => 0
  | x :: l' => min_list x l'
  end.

Definition upper_bound (l : list R) : R :=
  match l with
  | [] => 0
  | x :: l' => max_list x l'
  end.

(** Axis-aligned box around a list of points: minimum and maximum corner. *)
Definition box_min (vs : list vec3) : vec3 :=
  mkVec (lower_bound (map vx vs)) (lower_bound (map vy vs))
        (lower_bound (map vz vs)).

Definition box_max (vs : list vec3) : vec3 :=
  mkVec (upper_bound (map vx vs)) (upper_bound (map vy vs))
        (upper_bound (map vz vs)).

(** The eight corners of the box between [lo] and [hi], in the order of
    the host's [bound_box]. *)
Definition box_corners (lo hi : vec3) : list vec3 :=
  [ mkVec (vx lo) (vy lo) (vz lo); mkVec (vx lo) (vy lo) (vz hi);
    mkVec (vx lo) (vy hi) (vz hi); mkVec (vx lo) (vy hi) (vz lo);
    mkVec (vx hi) (vy lo) (vz lo); mkVec (vx hi) (vy lo) (vz hi);
    mkVec (vx hi) (vy hi) (vz hi); mkVec (vx hi) (vy hi) (vz lo) ].

(** [sum(vs, start)] on vectors. *)
Definition vsum (vs : list vec3) (start : vec3) : vec3 :=
  fold_left vadd vs start.

(** [max(a, b, c)]. *)
Definition max3 (a b c : R) : R := Rmax (Rmax a b) c.

(** [math.radians]. *)
Definition radians (deg : R) : R := deg * PI / 180.

End Geometry.

(** ** Effects: state and exceptions *)

Module Effects.

Inductive value_error : Type :=
| UnsupportedFormat (ext : string)
| RangeZeroStep
| NotInList.

(** The Python exceptions that can arise in the modelled code. *)
Inductive exn : Type :=
| FileNotFoundError (what : string)
| ValueError (v : value_error)
| IndexError
| KeyError (key : string)
| AttributeError
| ReferenceError
| RuntimeError.

Inductive result (A : Type) : Type :=
| Ok (a : A)
| Raise (e : exn).

Arguments Ok {A} a.
Arguments Raise {A} e.

(** A computation over a state [S]: it reads and changes the state and
    either returns a value or raises; the state reached is kept in both
    cases. *)
Definition SE (S A : Type) : Type := S -> result A * S.

Definition ret {S A : Type} (a : A) : SE S A := fun s => (Ok a, s).

Definition bind {S A B : Type} (c : SE S A) (k : A -> SE S B) : SE S B :=
  fun s =>
    match c s with
    | (Ok a, s') => k a s'
    | (Raise e, s') => (Raise e, s')
    end.

Definition raise {S A : Type} (e : exn) : SE S A := fun s => (Raise e, s).

Definition gets {S A : Type} (f : S -> A) : SE S A := fun s => (Ok (f s), s).

Definition change {S : Type} (f : S -> S) : SE S unit := fun s => (Ok tt, f s).

Declare Scope script_scope.
Delimit Scope script_scope with script.
Notation "x <- c ;; k" := (bind c (fun x => k))
  (at level 61, c at next level, right associativity) : script_scope.
Notation "c ;; k" := (bind c (fun _ => k))
  (at level 61, right associativity) : script_scope.

(** [for x in l: body x]. *)
Fixpoint for_each {S A : Type} (l : list A) (body : A -> SE S unit)
  : SE S unit :=
  match l with
  | [] => ret tt
  | x :: l' => bind (body x) (fun _ => for_each l' body)
  end.

End Effects.

(** ** The host application: scene, disk, console

    The 3D tool is not part of the repository.  This module models the
    part of its scripting interface that [render_script.py] calls, with
    the behaviour the script relies on:
    - an object has a name, data, a location, a rotation and a scale;
      [matrix_world] is a matrix the host keeps for each object and
      recomputes when it evaluates the scene, not when a script assigns
      to the location, rotation or scale;
    - [dimensions] is the extent of the local bounding box times the
      absolute scale;
    - [transform_apply] acts on the selected objects of the scene, and
      [join] merges the other selected meshes of the scene into the
      active one;
    - importers, renderer and file writes do not fail.
    What the host decides on its own and the script never relies on
    (the orientation of a tracking rotation, what [transform_apply] makes
    of an object that is not a mesh, which matrices are current once an
    operator has run, which object is active after an import) is kept
    as a parameter, [backend]. *)

Module Host.

Import Geometry Effects.
Local Open Scope R_scope.

(** A reference to an object of the host (a Python variable bound to an
    object holds one of these; two variables may hold the same one). *)
Definition oid : Type := nat.

(** An orientation: either given by its matrix, or the result of
    [direction.to_track_quat(track, up).to_euler()], kept symbolic because
    the conversion is the host's. *)
Inductive rotation : Type :=
| RotMatrix (m : mat3)
| RotTrack (direction : vec3) (track up : string).

Inductive obj_data : Type :=
| Mesh (verts : list vec3)
| Light (kind : string) (energy : R)
| Camera
| Empty.

Record object : Type := mkObject {
  name : string;
  data : obj_data;
  location : vec3;
  rotation_euler : rotation;
  scale : vec3;
  linked : bool;      (* member of the scene collection *)
  selected : bool }.

(** [obj.type]. *)
Definition type_of (o : object) : string :=
  match data o with
  | Mesh _ => "MESH"
  | Light _ _ => "LIGHT"
  | Camera => "CAMERA"
  | Empty => "EMPTY"
  end.

Definition is_mesh (o : object) : bool :=
  match data o with
  | Mesh _ => true
  | _ => false
  end.

Definition verts_of (o : object) : list vec3 :=
  match data o with
  | Mesh vs => vs
  | _ => []
  end.

(** A path on disk is a directory or a file; a model or scene file holds
    the objects an importer finds in it ([None] for an entry the library
    loader could not load). *)
Inductive file : Type :=
| Directory
| Regular (contents : list (option object)).

Inductive importer : Type :=
| ImportBlend | ImportObj | ImportFbx | ImportStl | ImportGltf.

(** Console messages of [render_script.py], one constructor per [print]. *)
Inductive message : Type :=
| MsgImported (path : string)
| MsgNoMesh
| MsgRendered (angle : Z) (path : string)
| MsgSaved (path : string)
| MsgOriginalDims (d : vec3)
| MsgZeroSize
| MsgNewDims (d : vec3)
| MsgScaleFactor (k : R)
| MsgMultipleFiles (files : list string)
| MsgUsing (path : string)
| MsgRenderingModel (path : string)
| MsgDone (model_name : string)
| MsgCombineFailed.

(** What the host was asked to do, in the order it was asked. *)
Inductive event : Type :=
| Print (m : message)
| ReadFactorySettings
| Import (i : importer) (path : string)
| TransformApply (target : option oid) (loc rot scl : bool)
| Join (target : option oid)
| Makedirs (path : string)
| Render (path : string) (cam_location : vec3) (cam_rotation : rotation)
| SaveMainfile (path : string).

Record world : Type := mkWorld {
  objects : list (option object);     (* slot [i] holds object [i], or
                                         [None] once it was removed *)
  active : option oid;                (* view_layer.objects.active *)
  scene_camera : option oid;          (* scene.camera *)
  render_filepath : string;           (* scene.render.filepath *)
  disk : list (string * file);
  log : list event;
  matrices : oid -> mat3 * vec3 }.     (* obj.matrix_world: the linear part
                                         and the translation the host
                                         last computed for each object *)

(** What the host decides on its own. *)
Record backend : Type := mkBackend {
  (* the matrix of [direction.to_track_quat(track, up).to_euler()] *)
  track_matrix : vec3 -> string -> string -> mat3;
  (* the location, rotation and scale [transform_apply] leaves on a
     selected object that is not a mesh *)
  apply_other : bool -> bool -> bool -> object -> vec3 * rotation * vec3;
  (* the matrices the host holds once an operator has run *)
  evaluated : event -> world -> oid -> mat3 * vec3;
  (* the active object once an import operator has run *)
  imported_active : importer -> world -> option oid }.

Definition M : Type -> Type := SE world.

Local Open Scope script_scope.

(** *** State accessors *)

Definition set_objects (os : list (option object)) (w : world) : world :=
  mkWorld os (active w) (scene_camera w) (render_filepath w) (disk w) (log w)
          (matrices w).

Definition set_active (a : option oid) (w : world) : world :=
  mkWorld (objects w) a (scene_camera w) (render_filepath w) (disk w) (log w)
          (matrices w).

Definition set_scene_camera (c : option oid) (w : world) : world :=
  mkWorld (objects w) (active w) c (render_filepath w) (disk w) (log w)
          (matrices w).

Definition set_render_filepath (p : string) (w : world) : world :=
  mkWorld (objects w) (active w) (scene_camera w) p (disk w) (log w)
          (matrices w).

Definition set_disk (d : list (string * file)) (w : world) : world :=
  mkWorld (objects w) (active w) (scene_camera w) (render_filepath w) d
          (log w) (matrices w).

Definition set_matrices (m : oid -> mat3 * vec3) (w : world) : world :=
  mkWorld (objects w) (active w) (scene_camera w) (render_filepath w)
          (disk w) (log w) m.

Definition add_log (e : event) (w : world) : world :=
  mkWorld (objects w) (active w) (scene_camera w) (render_filepath w)
          (disk w) (log w ++ [e]) (matrices w).

Definition emit (e : event) : M unit := change (add_log e).

Definition print (m : message) : M unit := emit (Print m).

Definition lookup (i : oid) (l : list (option object)) : option object :=
  match nth_error l i with
  | Some (Some o) => Some o
  | _ => None
  end.

Fixpoint update (i : oid) (f : object -> object) (l : list (option object))
  : list (option object) :=
  match l, i with
  | [], _ => []
  | s :: l', O => option_map f s :: l'
  | s :: l', S i' => s :: update i' f l'
  end.

Definition find_object (i : oid) (w : world) : option object :=
  lookup i (objects w).

(** Reading an attribute of [obj]. *)
Definition get (i : oid) : M object :=
  fun w =>
    match find_object i w with
    | Some o => (Ok o, w)
    | None => (Raise ReferenceError, w)
    end.

(** Assigning to attributes of [obj]. *)
Definition modify (i : oid) (f : object -> object) : M unit :=
  get i ;; change (fun w => set_objects (update i f (objects w)) w).

Definition with_name (s : string) (o : object) : object :=
  mkObject s (data o) (location o) (rotation_euler o) (scale o)
           (linked o) (selected o).

Definition with_data (d : obj_data) (o : object) : object :=
  mkObject (name o) d (location o) (rotation_euler o) (scale o)
           (linked o) (selected o).

Definition with_location (v : vec3) (o : object) : object :=
  mkObject (name o) (data o) v (rotation_euler o) (scale o)
           (linked o) (selected o).

Definition with_rotation (r : rotation) (o : object) : object :=
  mkObject (name o) (data o) (location o) r (scale o)
           (linked o) (selected o).

Definition with_scale (v : vec3) (o : object) : object :=
  mkObject (name o) (data o) (location o) (rotation_euler o) v
           (linked o) (selected o).

Definition with_linked (b : bool) (o : object) : object :=
  mkObject (name o) (data o) (location o) (rotation_euler o) (scale o)
           b (selected o).

Definition with_selected (b : bool) (o : object) : object :=
  mkObject (name o) (data o) (location o) (rotation_euler o) (scale o)
           (linked o) b.

(** [obj.data.energy = e]; only a light has the attribute. *)
Definition set_energy (i : oid) (e : R) : M unit :=
  o <- get i ;;
  match data o with
  | Light k _ => modify i (with_data (Light k e))
  | _ => raise AttributeError
  end.

(** The objects with their references, in slot order; [n] is the
    reference of the first slot of [l]. *)
Fixpoint present_from (n : oid) (l : list (option object))
  : list (oid * object) :=
  match l with
  | [] => []
  | Some o :: l' => (n, o) :: present_from (S n) l'
  | None :: l' => present_from (S n) l'
  end.

Definition present (l : list (option object)) : list (oid * object) :=
  present_from 0%nat l.

(** [bpy.context.scene.objects]. *)
Definition scene_objects (w : world) : list (oid * object) :=
  filter (fun p => linked (snd p)) (present (objects w)).

(** *** Disk *)

Definition lookup_path (p : string) (d : list (string * file))
  : option file :=
  match find (fun e => String.eqb (fst e) p) d with
  | Some e => Some (snd e)
  | None => None
  end.

(** [os.path.exists]. *)
Definition path_exists (p : string) : M bool :=
  gets (fun w => match lookup_path p (disk w) with
                 | Some _ => true
                 | None => false
                 end).

Definition write_path (p : string) (f : file) (w : world) : world :=
  set_disk ((p, f) :: disk w) w.

(** [os.makedirs]; intermediate directories are not tracked on their own. *)
Definition makedirs (p : string) : M unit :=
  emit (Makedirs p) ;; change (write_path p Directory).

(** The objects an importer finds at a path. *)
Definition file_contents (p : string) (w : world) : list (option object) :=
  match lookup_path p (disk w) with
  | Some (Regular c) => c
  | _ => []
  end.

(** *** Creating and linking objects *)

(** [bpy.data.objects.new(name, object_data)]: a new object with the
    identity transform, in no collection yet. *)
Definition objects_new (s : string) (d : obj_data) : M oid :=
  i <- gets (fun w => List.length (objects w)) ;;
  change (fun w =>
    set_objects (objects w
                 ++ [Some (mkObject s d vzero (RotMatrix mat_id) vone
                                    false false)]) w) ;;
  ret i.

(** [bpy.data.lights.new(name, type)]; 10 is the host's default power. *)
Definition lights_new (s : string) (kind : string) : M obj_data :=
  ret (Light kind 10).

(** [bpy.data.cameras.new(name)]. *)
Definition cameras_new (s : string) : M obj_data := ret Camera.

(** [bpy.context.collection.objects.link(obj)]. *)
Definition link (i : oid) : M unit := modify i (with_linked true).

(** [bpy.ops.wm.read_factory_settings(use_empty=True)]: the scene is
    replaced by an empty one. *)
Definition read_factory_settings : M unit :=
  emit ReadFactorySettings ;;
  change (fun w => mkWorld (map (fun _ => None) (objects w)) None None
                           "/tmp/" (disk w) (log w) (matrices w)).

(** The loader of [bpy.data.libraries.load(path, link=False)] with every
    object name requested: the objects of the file are added to the host's
    data as the file stores them, in no collection, and [data_to.objects]
    holds a reference for each entry that loaded and [None] for each that
    did not. *)
Fixpoint load_entries (c : list (option object)) : M (list (option oid)) :=
  match c with
  | [] => ret []
  | None :: c' => r <- load_entries c' ;; ret (None :: r)
  | Some o :: c' =>
      i <- gets (fun w => List.length (objects w)) ;;
      change (fun w =>
        set_objects (objects w ++ [Some (with_linked false o)]) w) ;;
      r <- load_entries c' ;;
      ret (Some i :: r)
  end.

Section Backend.

Variable host : backend.

(** The host has run the operator of event [e]: the matrices it holds
    afterwards are its own business. *)
Definition settle (e : event) : M unit :=
  change (fun w => set_matrices (evaluated host e w) w).

Definition libraries_load (p : string) : M (list (option oid)) :=
  emit (Import ImportBlend p) ;;
  c <- gets (file_contents p) ;;
  r <- load_entries c ;;
  settle (Import ImportBlend p) ;;
  ret r.

(** The import operators ([import_scene.obj], [import_scene.fbx],
    [import_mesh.stl], [import_scene.gltf]): the objects of the file are
    added to the scene, selected; which object is active afterwards is
    the importer's choice. *)
Definition import_op (k : importer) (p : string) : M unit :=
  emit (Import k p) ;;
  c <- gets (file_contents p) ;;
  for_each c (fun e =>
    match e with
    | None => ret tt
    | Some o =>
        change (fun w =>
          set_objects (objects w
                       ++ [Some (with_selected true (with_linked true o))])
                      w)
    end) ;;
  change (fun w => set_active (imported_active host k w) w) ;;
  settle (Import k p).

(** *** Transforms and operators *)

Definition rotation_matrix (r : rotation) : mat3 :=
  match r with
  | RotMatrix m => m
  | RotTrack d t u => track_matrix host d t u
  end.

(** Rotation times scale: the linear part of the object's transform. *)
Definition linear_part (o : object) : mat3 :=
  mat_mul (rotation_matrix (rotation_euler o)) (mat_diag (scale o)).

(** Where a point of the object's local space lies in the world, by the
    object's location, rotation and scale as they stand: what the host
    works with inside an operator. *)
Definition to_world (o : object) (p : vec3) : vec3 :=
  vadd (mat_apply (linear_part o) p) (location o).

(** The matrix the host computes for an object when it evaluates the
    scene. *)
Definition current_matrix (o : object) : mat3 * vec3 :=
  (linear_part o, location o).

(** [obj.matrix_world @ p], for the matrix [m] the host holds. *)
Definition matrix_world_apply (m : mat3 * vec3) (p : vec3) : vec3 :=
  vadd (mat_apply (fst m) p) (snd m).

(** [obj.bound_box]: the corners of the box around the object's own
    geometry, in the object's local space. *)
Definition bound_box (o : object) : list vec3 :=
  box_corners (box_min (verts_of o)) (box_max (verts_of o)).

(** [obj.dimensions]: the extents of the local box times the absolute
    scale. *)
Definition dimensions (o : object) : vec3 :=
  let lo := box_min (verts_of o) in
  let hi := box_max (verts_of o) in
  mkVec (Rabs (vx (scale o)) * (vx hi - vx lo))
        (Rabs (vy (scale o)) * (vy hi - vy lo))
        (Rabs (vz (scale o)) * (vz hi - vz lo)).

(** What [transform_apply] does to one object.  For a mesh the chosen
    parts of the transform are moved into the vertices and reset to the
    identity (the script only uses all three flags, or the scale alone).
    For any other object the data stay and the transform is what the
    host makes of it. *)
Definition apply_transform (l r s : bool) (o : object) : object :=
  match data o with
  | Mesh vs =>
      let a := mat_mul (if r then rotation_matrix (rotation_euler o)
                        else mat_id)
                       (if s then mat_diag (scale o) else mat_id) in
      let t := if l then location o else vzero in
      mkObject (name o)
               (Mesh (map (fun v => vadd (mat_apply a v) t) vs))
               (if l then vzero else location o)
               (if r then RotMatrix mat_id else rotation_euler o)
               (if s then vone else scale o)
               (linked o) (selected o)
  | _ =>
      let lrs := apply_other host l r s o in
      mkObject (name o) (data o) (fst (fst lrs)) (snd (fst lrs)) (snd lrs)
               (linked o) (selected o)
  end.

(** The operator acts on the selected objects of the scene; the active
    object is not among them unless it is selected too. *)
Definition apply_selected (l r s : bool) (o : object) : object :=
  if (linked o && selected o)%bool then apply_transform l r s o else o.

(** [bpy.ops.object.transform_apply(location, rotation, scale)]. *)
Definition transform_apply (l r s : bool) : M unit :=
  a <- gets active ;;
  emit (TransformApply a l r s) ;;
  change (fun w =>
    set_objects (map (option_map (apply_selected l r s)) (objects w)) w) ;;
  settle (TransformApply a l r s).

(** The objects [join] merges into object [a]: the other selected meshes
    of the scene. *)
Definition join_sources (a : oid) (w : world) : list (oid * object) :=
  filter (fun p => negb (Nat.eqb (fst p) a) && selected (snd p)
                   && is_mesh (snd p))%bool
         (scene_objects w).

(** The geometry of [others] is expressed in the local space of [t] and
    appended to it. *)
Definition join_into (t : object) (others : list object) : object :=
  let inv := mat_inv (linear_part t) in
  with_data
    (Mesh (verts_of t
           ++ flat_map
                (fun o => map (fun v =>
                                 mat_apply inv
                                   (vsub (to_world o v) (location t)))
                              (verts_of o))
                others))
    t.

(** Removing objects from the host: their slots are emptied. *)
Fixpoint remove (i : oid) (l : list (option object))
  : list (option object) :=
  match l, i with
  | [], _ => []
  | _ :: l', O => None :: l'
  | s :: l', S i' => s :: remove i' l'
  end.

Definition remove_all (ids : list oid) (l : list (option object))
  : list (option object) :=
  fold_left (fun l i => remove i l) ids l.

(** [bpy.ops.object.join()]: the selected meshes are merged into the
    active object, which must itself be a selected mesh of the scene, and
    are removed. *)
Definition join : M unit :=
  a <- gets active ;;
  emit (Join a) ;;
  match a with
  | None => ret tt
  | Some i =>
      w <- gets (fun w => w) ;;
      match find_object i w with
      | Some t =>
          if (is_mesh t && linked t && selected t)%bool then
            let src := join_sources i w in
            change (set_objects
                      (update i (fun t => join_into t (map snd src))
                              (remove_all (map fst src) (objects w))))
          else ret tt
      | None => ret tt
      end
  end ;;
  settle (Join a).

(** [bpy.ops.render.render(write_still=True)]: the scene is rendered
    through the scene camera as it stands and written to
    [scene.render.filepath]. *)
Definition render_still : M unit :=
  w <- gets (fun w => w) ;;
  match scene_camera w with
  | None => raise RuntimeError
  | Some c =>
      match find_object c w with
      | None => raise RuntimeError
      | Some cam =>
          emit (Render (render_filepath w) (location cam)
                       (rotation_euler cam)) ;;
          change (write_path (render_filepath w) (Regular []))
      end
  end.

(** [bpy.ops.wm.save_as_mainfile(filepath)]. *)
Definition save_as_mainfile (p : string) : M unit :=
  emit (SaveMainfile p) ;;
  change (fun w =>
    write_path p (Regular (map (fun e => Some (snd e))
                               (present (objects w)))) w).

End Backend.

End Host.

(** ** render_script.py *)

Module RenderScript.

Import Geometry Effects Host.
Local Open Scope script_scope.

Section Script.

Variable host : backend.

Definition load_3Dmodel (file_path : string) : M unit :=
  found <- path_exists file_path ;;
  (if negb found then raise (FileNotFoundError file_path) else ret tt) ;;
  read_factory_settings ;;
  let file_ext := Py.lower (snd (Py.splitext file_path)) in
  (if String.eqb file_ext ".blend" then
     objs <- libraries_load host file_path ;;
     for_each objs (fun obj =>
       match obj with
       | Some i => link i
       | None => ret tt
       end)
   else if String.eqb file_ext ".obj" then import_op host ImportObj file_path
   else if String.eqb file_ext ".fbx" then import_op host ImportFbx file_path
   else if String.eqb file_ext ".stl" then import_op host ImportStl file_path
   else if (String.eqb file_ext ".glb" || String.eqb file_ext ".gltf")%bool
   then import_op host ImportGltf file_path
   else raise (ValueError (UnsupportedFormat file_ext))) ;;
  print (MsgImported file_path).

Definition combine_objects : M (option oid) :=
  imported_objects <-
    gets (fun w => map fst (filter (fun p => String.eqb (type_of (snd p))
                                                        "MESH")
                                   (scene_objects w))) ;;
  match imported_objects with
  | [] => print MsgNoMesh ;; ret None
  | first :: _ =>
      for_each imported_objects (fun obj =>
        change (set_active (Some obj)) ;;
        transform_apply host true true true) ;;
      for_each imported_objects (fun obj =>
        modify obj (with_selected true)) ;;
      change (set_active (Some first)) ;;
      join host ;;
      combined_object <- gets active ;;
      match combined_object with
      | None => raise AttributeError
      | Some c =>
          modify c (with_name "Combined_Object") ;;
          ret (Some c)
      end
  end.

Definition move_bbox_to_origin (obj : oid) : M unit :=
  o <- get obj ;;
  matrix_world <- gets (fun w => matrices w obj) ;;
  let bbox := map (matrix_world_apply matrix_world) (bound_box o) in
  let bbox_center := vdiv (vsum bbox vzero) 8 in
  modify obj (fun o => with_location (vsub (location o) bbox_center) o).

Definition diagonal_positions : list vec3 :=
  [ mkVec (-2) (-2) 2; mkVec 2 (-2) 2; mkVec (-2) 2 2; mkVec 2 2 2 ]%R.

(** [enumerate(l)]. *)
Definition py_enumerate {A : Type} (l : list A) : list (Z * A) :=
  combine (map Z.of_nat (seq 0 (List.length l))) l.

Definition setup_lights : M unit :=
  center_light_data <- lights_new "Center_Light" "POINT" ;;
  center_light <- objects_new "Center_Light" center_light_data ;;
  link center_light ;;
  modify center_light (with_location (mkVec 0 0 2)) ;;
  set_energy center_light 200 ;;
  for_each (py_enumerate diagonal_positions) (fun ip =>
    let i := fst ip in
    let pos := snd ip in
    let light_name := "Diagonal_Light_" ++ Py.str_of_int (i + 1) in
    light_data <- lights_new light_name "POINT" ;;
    light_object <- objects_new light_name light_data ;;
    link light_object ;;
    modify light_object (with_location pos) ;;
    set_energy light_object 150).

(** One pass of the orbit loop. *)
Definition render_angle (output_dir : string) (distance : R)
           (camera_object : oid) (angle_deg : Z) : M unit :=
  let angle_rad := radians (IZR angle_deg) in
  let x := (distance * cos angle_rad)%R in
  let y := (distance * sin angle_rad)%R in
  let z := 0%R in
  modify camera_object (with_location (mkVec x y z)) ;;
  cam <- get camera_object ;;
  let direction := vsub (mkVec 0 0 0) (location cam) in
  let rot_quat := RotTrack direction "-Z" "Y" in
  modify camera_object (with_rotation rot_quat) ;;
  change (set_render_filepath
            (Py.join output_dir
                     ("angle_" ++ Py.format_03d angle_deg ++ ".png"))) ;;
  render_still ;;
  path <- gets render_filepath ;;
  print (MsgRendered angle_deg path).

Definition render_views (output_dir : string) (angle_step : Z)
           (distance : R) : M unit :=
  found <- path_exists output_dir ;;
  (if negb found then makedirs output_dir else ret tt) ;;
  camera_data <- cameras_new "Camera" ;;
  camera_object <- objects_new "Camera" camera_data ;;
  link camera_object ;;
  change (set_scene_camera (Some camera_object)) ;;
  match Py.range 0 360 angle_step with
  | None => raise (ValueError RangeZeroStep)
  | Some angles =>
      for_each angles (render_angle output_dir distance camera_object)
  end.

Definition save_combined_object (output_dir model_name : string) : M unit :=
  found <- path_exists output_dir ;;
  (if negb found then makedirs output_dir else ret tt) ;;
  let output_file := Py.join output_dir (model_name ++ "_final.blend") in
  save_as_mainfile output_file ;;
  print (MsgSaved output_file).

Definition normalize_model_size (obj : oid) (target_size : R) : M unit :=
  o <- get obj ;;
  let dims := dimensions o in
  let max_dimension := max3 (vx dims) (vy dims) (vz dims) in
  print (MsgOriginalDims dims) ;;
  if Req_dec_T max_dimension 0 then
    print MsgZeroSize
  else
    let scale_factor := (target_size / max_dimension)%R in
    modify obj (fun o => with_scale (vscale (scale o) scale_factor) o) ;;
    change (set_active (Some obj)) ;;
    transform_apply host false false true ;;
    o' <- get obj ;;
    print (MsgNewDims (dimensions o')) ;;
    print (MsgScaleFactor scale_factor).

End Script.

(** [try: c except (ValueError, IndexError): pass], the value being
    [None] when the handler ran. *)
Definition try_pass {A : Type} (c : M (option A)) : M (option A) :=
  fun w =>
    match c w with
    | (Raise (ValueError _), w') => (Ok None, w')
    | (Raise IndexError, w') => (Ok None, w')
    | r => r
    end.

(** [l.index(x)]. *)
Fixpoint list_index (x : string) (l : list string) : option Z :=
  match l with
  | [] => None
  | y :: l' =>
      if String.eqb y x then Some 0%Z
      else option_map Z.succ (list_index x l')
  end.

Definition supported_extensions : list string :=
  [".blend"; ".obj"; ".fbx"; ".stl"; ".glb"; ".gltf"].

(** The loop that collects [potential_files]. *)
Fixpoint search_model (model_dir model_filename : string)
         (exts : list string) (potential_files : list string)
  : M (list string) :=
  match exts with
  | [] => ret potential_files
  | ext :: exts' =>
      let test_path := Py.join model_dir (model_filename ++ ext) in
      found <- path_exists test_path ;;
      search_model model_dir model_filename exts'
                   (if found then potential_files ++ [test_path]
                    else potential_files)
  end.

(** [script_dir] is the directory of the script file and [argv] is
    [sys.argv]. *)
Definition get_model_path_from_args (script_dir : string)
           (argv : list string) : M (string * string) :=
  let model_dir := Py.join script_dir "model" in
  returned <- try_pass (
    match list_index "--" argv with
    | None => raise (ValueError NotInList)
    | Some idx =>
        if (idx <? Z.of_nat (List.length argv) - 1)%Z then
          match nth_error argv (Z.to_nat (idx + 1)) with
          | None => raise IndexError
          | Some model_filename =>
              model_path <-
                (if String.eqb (snd (Py.splitext model_filename)) ""
                 then
                   potential_files <-
                     search_model model_dir model_filename
                                  supported_extensions [] ;;
                   match potential_files with
                   | [] => raise (FileNotFoundError model_filename)
                   | [only] => ret only
                   | first :: _ =>
                       print (MsgMultipleFiles potential_files) ;;
                       print (MsgUsing first) ;;
                       ret first
                   end
                 else ret (Py.join model_dir model_filename)) ;;
              let model_name :=
                fst (Py.splitext (Py.basename model_path)) in
              ret (Some (model_path, model_name))
          end
        else ret None
    end) ;;
  match returned with
  | Some r => ret r
  | None =>
      let default_model := Py.join model_dir "car.blend" in
      ret (default_model, "car")
  end.

(** The body of [if __name__ == "__main__"]. *)
Definition main (host : backend) (script_dir : string)
           (argv : list string) : M unit :=
  mp <- get_model_path_from_args script_dir argv ;;
  let model_path := fst mp in
  let model_name := snd mp in
  print (MsgRenderingModel model_path) ;;
  load_3Dmodel host model_path ;;
  combined_object <- combine_objects host ;;
  match combined_object with
  | Some obj =>
      normalize_model_size host obj 2 ;;
      move_bbox_to_origin obj ;;
      setup_lights ;;
      let output_dir :=
        Py.join (Py.join script_dir "output") model_name in
      let camera_distance := 8%R in
      render_views output_dir 30 camera_distance ;;
      save_combined_object (Py.join script_dir "output") model_name ;;
      print (MsgDone model_name)
  | None => print MsgCombineFailed
  end.

End RenderScript.

(** ** example.py *)

Module Example.

Import Effects.
Local Open Scope script_scope.

(** A generated 3D asset (a Gaussian splat, a radiance field or a mesh),
    known to the script only as a handle. *)
Definition asset : Type := nat.

(** One channel of the orbit video rendered from an asset. *)
Inductive video : Type :=
| Video (source : asset) (channel : string).

Inductive glb : Type :=
| Glb (gaussian mesh : asset) (simplify : R) (texture_size : Z).

(** The calls into the libraries, in the order they are made. *)
Inductive call : Type :=
| SetEnviron (key value : string)
| FromPretrained (model : string)
| Cuda
| ImageOpen (path : string)
| PipelineRun (image : string) (seed : Z)
| Subscript (key : string) (index : Z)
| RenderVideo (a : asset)
| Mimsave (path : string) (v : video) (fps : Z)
| ToGlb (g m : asset) (simplify : R) (texture_size : Z)
| GlbExport (g : glb) (path : string)
| SavePly (a : asset) (path : string).

(** The dictionary returned by [pipeline.run]. *)
Definition outputs : Type := list (string * list asset).

Definition T : Type -> Type := SE (list call).

Definition calls (c : call) : T unit := change (fun t => (t ++ [c])%list).

Fixpoint dict_get (key : string) (d : outputs) : option (list asset) :=
  match d with
  | [] => None
  | (k, v) :: d' => if String.eqb k key then Some v else dict_get key d'
  end.

(** [l[i]] on a Python list, negative indices counting from the end. *)
Definition list_get (l : list asset) (i : Z) : option asset :=
  if (0 <=? i)%Z then nth_error l (Z.to_nat i)
  else if (0 <=? Z.of_nat (List.length l) + i)%Z
       then nth_error l (Z.to_nat (Z.of_nat (List.length l) + i))
       else None.

(** [outputs[key][i]]. *)
Definition subscript (o : outputs) (key : string) (i : Z) : T asset :=
  match dict_get key o with
  | None => raise (KeyError key)
  | Some l =>
      calls (Subscript key i) ;;
      match list_get l i with
      | Some a => ret a
      | None => raise IndexError
      end
  end.

(** [render_utils.render_video(a)[channel]]. *)
Definition render_video (a : asset) (channel : string) : T video :=
  calls (RenderVideo a) ;;
  ret (Video a channel).

(** [postprocessing_utils.to_glb(g, m, simplify=, texture_size=)]. *)
Definition to_glb (g m : asset) (simplify : R) (texture_size : Z) : T glb :=
  calls (ToGlb g m simplify texture_size) ;;
  ret (Glb g m simplify texture_size).

Section Script.

(** What [pipeline.run(image, seed)] returns; the library decides. *)
Variable run : string -> Z -> outputs.

Definition script : T unit :=
  calls (SetEnviron "SPCONV_ALGO" "native") ;;
  calls (FromPretrained "JeffreyXiang/TRELLIS-image-large") ;;
  calls Cuda ;;
  let image_path := "assets/example_image/car.png" in
  let base_filename := fst (Py.splitext (Py.basename image_path)) in
  calls (ImageOpen image_path) ;;
  calls (PipelineRun image_path 1) ;;
  let outputs := run image_path 1 in
  g <- subscript outputs "gaussian" 0 ;;
  video <- render_video g "color" ;;
  calls (Mimsave (base_filename ++ "_gs.mp4") video 30) ;;
  r <- subscript outputs "radiance_field" 0 ;;
  video <- render_video r "color" ;;
  calls (Mimsave (base_filename ++ "_rf.mp4") video 30) ;;
  m <- subscript outputs "mesh" 0 ;;
  video <- render_video m "normal" ;;
  calls (Mimsave (base_filename ++ "_mesh.mp4") video 30) ;;
  g <- subscript outputs "gaussian" 0 ;;
  m <- subscript outputs "mesh" 0 ;;
  glb <- to_glb g m 0.95 1024 ;;
  calls (GlbExport glb (base_filename ++ ".glb")) ;;
  g <- subscript outputs "gaussian" 0 ;;
  calls (SavePly g (base_filename ++ ".ply")).

End Script.

(** The index accesses and the inference runs recorded in a trace. *)
Definition subscripts (t : list call) : list (string * Z) :=
  flat_map (fun c => match c with
                     | Subscript k i => [(k, i)]
                     | _ => []
                     end) t.

Definition runs (t : list call) : list (string * Z) :=
  flat_map (fun c => match c with
                     | PipelineRun img seed => [(img, seed)]
                     | _ => []
                     end) t.

End Example.

(** * What the properties are stated with *)

Section ExampleStatements.

Import Effects Example.

Definition example_image : string := "assets/example_image/car.png".

(** The complete sequence of library calls of a run on a bundle whose
    first gaussian, radiance field and mesh are [g], [r] and [m]. *)
Definition expected_calls (g r m : asset) : list call :=
  [ SetEnviron "SPCONV_ALGO" "native";
    FromPretrained "JeffreyXiang/TRELLIS-image-large";
    Cuda;
    ImageOpen example_image;
    PipelineRun example_image 1;
    Subscript "gaussian" 0; RenderVideo g;
    Mimsave "car_gs.mp4" (Video g "color") 30;
    Subscript "radiance_field" 0; RenderVideo r;
    Mimsave "car_rf.mp4" (Video r "color") 30;
    Subscript "mesh" 0; RenderVideo m;
    Mimsave "car_mesh.mp4" (Video m "normal") 30;
    Subscript "gaussian" 0; Subscript "mesh" 0;
    ToGlb g m 0.95 1024;
    GlbExport (Glb g m 0.95 1024) "car.glb";
    Subscript "gaussian" 0;
    SavePly g "car.ply" ].

End ExampleStatements.

Section ScriptStatements.

Import Geometry Effects Host RenderScript.
Local Open Scope script_scope.
Local Open Scope list_scope.

Variable host : backend.

(** The importer the contract names for each extension. *)
Definition importer_for (ext : string) : option importer :=
  if String.eqb ext ".blend" then Some ImportBlend
  else if String.eqb ext ".obj" then Some ImportObj
  else if String.eqb ext ".fbx" then Some ImportFbx
  else if String.eqb ext ".stl" then Some ImportStl
  else if String.eqb ext ".glb" then Some ImportGltf
  else if String.eqb ext ".gltf" then Some ImportGltf
  else None.

(** [os.path.exists(p)] in world [w]. *)
Definition on_disk (p : string) (w : world) : bool :=
  match lookup_path p (disk w) with
  | Some _ => true
  | None => false
  end.

(** The scene after [read_factory_settings]: nothing is left of what was
    there, the disk is as it was. *)
Definition factory_reset (w : world) : world :=
  mkWorld (map (fun _ => None) (objects w)) None None "/tmp/" (disk w)
          (log w ++ [ReadFactorySettings]) (matrices w).

(** The paths tried for a file name without extension, in the order of
    the extension list, and those of them that exist. *)
Definition tried_paths (script_dir model_filename : string) : list string :=
  map (fun ext => Py.join (Py.join script_dir "model")
                          (model_filename ++ ext)%string)
      supported_extensions.

Definition matches (script_dir model_filename : string) (w : world)
  : list string :=
  filter (fun p => on_disk p w) (tried_paths script_dir model_filename).

(** What the search comes to once the matches are known. *)
Definition resolution (f : string) (w : world) (found : list string)
  : result (string * string) * world :=
  match found with
  | [] => (Raise (FileNotFoundError f), w)
  | [p] => (Ok (p, fst (Py.splitext (Py.basename p))), w)
  | p :: more =>
      (Ok (p, fst (Py.splitext (Py.basename p))),
       add_log (Print (MsgUsing p))
         (add_log (Print (MsgMultipleFiles (p :: more))) w))
  end.

(** Where the camera is expected at an angle given in degrees. *)
Definition orbit_position (d : R) (angle_deg : Z) : vec3 :=
  mkVec (d * cos (radians (IZR angle_deg)))
        (d * sin (radians (IZR angle_deg))) 0.

Definition frame_name (angle_deg : Z) : string :=
  ("angle_" ++ Py.format_03d angle_deg ++ ".png")%string.

Definition frame_path (output_dir : string) (angle_deg : Z) : string :=
  Py.join output_dir (frame_name angle_deg).

(** What one pass of the loop asks of the host. *)
Definition frame_events (output_dir : string) (d : R) (angle_deg : Z)
  : list event :=
  [ Render (frame_path output_dir angle_deg)
           (orbit_position d angle_deg)
           (RotTrack (vsub (mkVec 0 0 0) (orbit_position d angle_deg))
                     "-Z" "Y");
    Print (MsgRendered angle_deg (frame_path output_dir angle_deg)) ].

(** The render requests of a log: file path and camera pose. *)
Definition rendered (l : list event) : list (string * vec3 * rotation) :=
  flat_map (fun e => match e with
                     | Render p loc rot => [(p, loc, rot)]
                     | _ => []
                     end) l.

(** The angles {0, step, 2*step, ...} below 360 for a step dividing 360. *)
Definition orbit_angles (step : Z) : list Z :=
  map (fun i => Z.of_nat i * step)%Z (seq 0 (Z.to_nat (360 / step))).

Fixpoint strictly_increasing {A : Type} (ltb : A -> A -> bool) (l : list A)
  : bool :=
  match l with
  | [] => true
  | x :: l' =>
      match l' with
      | [] => true
      | y :: _ => ltb x y && strictly_increasing ltb l'
      end
  end.

(** What stays as it was while the camera [cam] is moved and frames are
    written: the other objects, the active object, the scene camera, and
    every path that was on disk. *)
Definition orbit_keeps (cam : oid) (w w' : world) : Prop :=
  scene_camera w' = scene_camera w
  /\ active w' = active w
  /\ (exists c, lookup cam (objects w') = Some c)
  /\ (forall i, i <> cam -> lookup i (objects w') = lookup i (objects w))
  /\ (forall p, on_disk p w = true -> on_disk p w' = true).

(** The world in which the loop of [render_views] starts. *)
Definition orbit_start (output_dir : string) (w : world) : world :=
  let w1 := if on_disk output_dir w then w
            else write_path output_dir Directory
                            (add_log (Makedirs output_dir) w) in
  set_scene_camera (Some (List.length (objects w1)))
    (set_objects
       (objects w1
        ++ [Some (mkObject "Camera" Camera vzero (RotMatrix mat_id) vone
                           true false)]) w1).

(** The pose recorded for the frame of an angle. *)
Definition frame_pose (output_dir : string) (d : R) (angle_deg : Z)
  : string * vec3 * rotation :=
  (frame_path output_dir angle_deg,
   orbit_position d angle_deg,
   RotTrack (vsub (mkVec 0 0 0) (orbit_position d angle_deg)) "-Z" "Y").

(** The properties of the angle list that are checked by evaluation. *)
Definition orbit_ok (step : Z) : bool :=
  let angles := orbit_angles step in
  (Z.of_nat (List.length angles) =? 360 / step)
  && forallb (fun a => (0 <=? a) && (a <? 360)) angles
  && strictly_increasing Z.ltb angles
  && forallb (fun a => Nat.eqb (String.length (Py.format_03d a)) 3) angles
  && strictly_increasing String.ltb (map frame_name angles).

(** A point light of the rig as [setup_lights] leaves it. *)
Definition point_light (light_name : string) (position : vec3) (power : R)
  : object :=
  mkObject light_name (Light "POINT" power) position (RotMatrix mat_id)
           vone true false.

(** The rig: one light above the centre, four above the diagonals. *)
Definition light_rig : list object :=
  [ point_light "Center_Light" (mkVec 0 0 2) 200;
    point_light "Diagonal_Light_1" (mkVec (-2) (-2) 2) 150;
    point_light "Diagonal_Light_2" (mkVec 2 (-2) 2) 150;
    point_light "Diagonal_Light_3" (mkVec (-2) 2 2) 150;
    point_light "Diagonal_Light_4" (mkVec 2 2 2) 150 ].

(** The centre of the world-space bounding box: the average of the eight
    corners of [bound_box], placed by the object's location, rotation and
    scale as they stand. *)
Definition bbox_center (o : object) : vec3 :=
  vdiv (vsum (map (to_world host o) (bound_box o)) vzero) 8.

(** The centre that [move_bbox_to_origin] computes: the same average,
    through the matrix [m] the host holds for the object. *)
Definition cached_center (m : mat3 * vec3) (o : object) : vec3 :=
  vdiv (vsum (map (matrix_world_apply m) (bound_box o)) vzero) 8.

(** The matrix the host holds for object [i] is the one of its location,
    rotation and scale as they stand. *)
Definition up_to_date (w : world) (i : oid) : Prop :=
  exists o, find_object i w = Some o
            /\ matrices w i = current_matrix host o.


(** The largest of the three bounding-box extents of an object. *)
Definition max_extent (o : object) : R :=
  max3 (vx (dimensions o)) (vy (dimensions o)) (vz (dimensions o)).

(** Multiplying every vertex by the scale, axis by axis. *)
Definition scaled_by (s : vec3) (v : vec3) : vec3 :=
  mkVec (vx s * vx v) (vy s * vy v) (vz s * vz v).

(** The object after its scale has been multiplied by [k] and baked. *)
Definition rescaled (k : R) (o : object) : object :=
  apply_transform host false false true
                  (with_scale (vscale (scale o) k) o).

(** The mesh objects of the scene, with their references, in scene order. *)
Definition meshes (w : world) : list (oid * object) :=
  filter (fun p => String.eqb (type_of (snd p)) "MESH") (scene_objects w).



(** What the two loops of [combine_objects] do to an object when the
    first loop has [n] passes: every pass applies the transform of the
    object if it is selected, then a mesh of the scene is selected. *)
Definition prepared (n : nat) (o : object) : object :=
  let o' := Nat.iter n (apply_selected host true true true) o in
  if (linked o && is_mesh o)%bool then with_selected true o' else o'.


End ScriptStatements.

(** ** Concrete worlds for the checks *)

(** A bundle with one asset of each kind. *)
Definition sample_run (image : string) (seed : Z) : Example.outputs :=
  [ ("gaussian", [7%nat]); ("radiance_field", [8%nat]); ("mesh", [9%nat]) ].

(** A host that turns every tracking rotation into the identity, leaves
    the transform of an object that is not a mesh alone, never
    recomputes a matrix and makes nothing active after an import. *)
Definition plain_host : Host.backend :=
  Host.mkBackend (fun _ _ _ => Geometry.mat_id)
                 (fun _ _ _ o => (Host.location o, Host.rotation_euler o,
                                  Host.scale o))
                 (fun _ w => Host.matrices w)
                 (fun _ _ => None).

(** The matrices of a scene in which every object is where it was
    created. *)
Definition at_rest : Host.oid -> Geometry.mat3 * Geometry.vec3 :=
  fun _ => (Geometry.mat_id, Geometry.vzero).

(** A small world: one mesh in the scene, two model files and a text
    file on disk. *)
Definition sample_mesh : Host.object :=
  Host.mkObject "Box"
    (Host.Mesh [Geometry.mkVec 0 0 0; Geometry.mkVec 1 2 3])
    Geometry.vzero (Host.RotMatrix Geometry.mat_id) Geometry.vone true true.

Definition sample_world : Host.world :=
  Host.mkWorld [Some sample_mesh] None None ""
    [ ("/s/model/car.OBJ", Host.Regular [Some sample_mesh]);
      ("/s/model/car.blend", Host.Regular [Some sample_mesh; None]);
      ("/s/notes.txt", Host.Regular []) ]
    [] at_rest.

(** A scene whose only object is a mesh of a single vertex. *)
Definition point_mesh : Host.object :=
  Host.mkObject "Point" (Host.Mesh [Geometry.mkVec 1 1 1])
    Geometry.vzero (Host.RotMatrix Geometry.mat_id) Geometry.vone true true.

Definition point_world : Host.world :=
  Host.mkWorld [Some point_mesh] None None "" [] [] at_rest.

(** A model file that holds a lamp only: the pipeline stops after the
    consolidation step. *)
Definition lamp_world : Host.world :=
  Host.mkWorld [] None None ""
    [ ("/s/model/lamp.obj",
       Host.Regular
         [Some (Host.mkObject "Lamp" (Host.Light "POINT" 10) Geometry.vzero
                              (Host.RotMatrix Geometry.mat_id) Geometry.vone
                              true false)]) ]
    [] at_rest.

(** * What the further properties are stated with *)

Section ExampleOutcomes.

Import Effects Example.

(** What the script knows of a representation: [None] when the key is
    missing, [Some None] when the list is empty, the first element
    otherwise. *)
Definition head_view (key : string) (o : outputs) : option (option asset) :=
  option_map (@hd_error asset) (dict_get key o).

(** The first element of a representation, when there is one. *)
Definition first_of (key : string) (o : outputs) : option asset :=
  match head_view key o with
  | Some (Some a) => Some a
  | _ => None
  end.

(** The exception raised by [outputs[key][0]] when there is no first
    element. *)
Definition subscript_error (key : string) (o : outputs) : exn :=
  match dict_get key o with
  | None => KeyError key
  | Some _ => IndexError
  end.

(** The files a trace of library calls has written, in order. *)
Definition files_written (t : list call) : list string :=
  flat_map (fun c => match c with
                     | Mimsave p _ _ => [p]
                     | GlbExport _ p => [p]
                     | SavePly _ p => [p]
                     | _ => []
                     end) t.

End ExampleOutcomes.

Section OrbitOutcomes.

Import Geometry Effects Host RenderScript.
Local Open Scope list_scope.

(** The angles of [range(0, 360, step)] for a positive step. *)
Definition loop_angles (step : Z) : list Z :=
  map (fun i => Z.of_nat i * step)%Z (seq 0 (Z.to_nat (359 / step + 1))).

(** The world after one pass of the orbit loop at angle [a]: the camera
    [cam] is posed, the frame is on disk, the two events are logged. *)
Definition after_frame (output_dir : string) (d : R) (cam : oid) (w : world)
           (a : Z) : world :=
  mkWorld
    (update cam
       (with_rotation
          (RotTrack (vsub (mkVec 0 0 0) (orbit_position d a)) "-Z" "Y"))
       (update cam (with_location (orbit_position d a)) (objects w)))
    (active w) (scene_camera w) (frame_path output_dir a)
    ((frame_path output_dir a, Regular []) :: disk w)
    (log w ++ frame_events output_dir d a)
    (matrices w).

(** The properties of the angles of a positive step that are checked by
    evaluation: within [0, 360), ascending, reaching the last step before
    360, named on three digits, names ascending. *)
Definition loop_ok (step : Z) : bool :=
  let angles := loop_angles step in
  forallb (fun a => (0 <=? a) && (a <? 360))%Z angles
  && strictly_increasing Z.ltb angles
  && (360 <=? last angles 0 + step)%Z
  && forallb (fun a => Nat.eqb (String.length (Py.format_03d a)) 3) angles
  && strictly_increasing String.ltb (map frame_name angles).

(** What the passes of the loop keep: the number of slots, the scene
    camera, and a camera object in slot [cam]. *)
Definition camera_in_place (cam : oid) (n : nat) (w : world) : Prop :=
  scene_camera w = Some cam
  /\ List.length (objects w) = n
  /\ exists c, lookup cam (objects w) = Some c /\ data c = Camera.

End OrbitOutcomes.

Section ImportOutcomes.

Import Geometry Effects Host RenderScript.
Local Open Scope list_scope.

(** The objects of a file that load: the entries that are not [None]. *)
Definition loaded_objects (c : list (option object)) : list object :=
  flat_map (fun e => match e with Some o => [o] | None => [] end) c.

(** The references [data_to.objects] holds when the store had [n] slots
    before the file was read. *)
Fixpoint entry_ids (n : nat) (c : list (option object))
  : list (option oid) :=
  match c with
  | [] => []
  | None :: c' => None :: entry_ids n c'
  | Some _ :: c' => Some n :: entry_ids (S n) c'
  end.

(** An object of a file once [load_3Dmodel] has brought it into the
    scene: linked; selected by the import operators, as the file stores
    it after the library loader. *)
Definition as_imported (k : importer) (o : object) : object :=
  match k with
  | ImportBlend => with_linked true o
  | _ => with_selected true (with_linked true o)
  end.

End ImportOutcomes.

(** ** Scenes on which the operators find nothing selected, or a matrix
    that is out of date *)

(** The box of [sample_world] after a script has assigned a new location
    to it: the matrix the host holds is still the one of the origin. *)
Definition shifted_box : Host.object :=
  Host.with_location (Geometry.mkVec 5 6 7) sample_mesh.

Definition shifted_world : Host.world :=
  Host.mkWorld [Some shifted_box] None None "" [] [] at_rest.

(** The box of [sample_world], in the scene but not selected. *)
Definition loose_box : Host.object := Host.with_selected false sample_mesh.

Definition loose_world : Host.world :=
  Host.mkWorld [Some loose_box] None None "" [] [] at_rest.

(** Two meshes as a scene file may store them: in the scene, not
    selected, the first one moved and scaled. *)
Definition stored_box : Host.object :=
  Host.mkObject "Box"
    (Host.Mesh [Geometry.mkVec 0 0 0; Geometry.mkVec 1 2 3])
    (Geometry.mkVec 1 0 0) (Host.RotMatrix Geometry.mat_id)
    (Geometry.mkVec 2 2 2) true false.

Definition stored_lid : Host.object :=
  Host.mkObject "Lid" (Host.Mesh [Geometry.mkVec 0 0 1])
    Geometry.vzero (Host.RotMatrix Geometry.mat_id) Geometry.vone
    true false.

Definition stored_world : Host.world :=
  Host.mkWorld [Some stored_box; Some stored_lid] None None "" [] []
               at_rest.

(** * Checks of the Python library model on concrete inputs *)

Example splitext_ex1 : Py.splitext "model/car.blend" = ("model/car", ".blend").
Proof. reflexivity. Qed.
Example splitext_ex2 : Py.splitext "dir.d/.hidden" = ("dir.d/.hidden", "").
Proof. reflexivity. Qed.
Example splitext_ex3 : Py.splitext "a.tar.GZ" = ("a.tar", ".GZ").
Proof. reflexivity. Qed.
Example splitext_ex4 : Py.splitext "..x" = ("..x", "").
Proof. reflexivity. Qed.
Example splitext_ex5 : Py.splitext "..x.y" = ("..x", ".y").
Proof. reflexivity. Qed.
Example fmt_ex : map Py.format_03d [0; 30; 330; -5; 1234; -123]
   = ["000"; "030"; "330"; "-05"; "1234"; "-123"].
Proof. reflexivity. Qed.
Example range_ex : Py.range 0 360 150 = Some [0; 150; 300].
Proof. reflexivity. Qed.
Example range_ex2 : Py.range 0 360 (-30) = Some [].
Proof. reflexivity. Qed.
Example join_ex : map (fun p => Py.join (fst p) (snd p))
    [("a", "b"); ("a/", "b"); ("", "b"); ("a", "/b")]
  = ["a/b"; "a/b"; "b"; "/b"].
Proof. reflexivity. Qed.
Example lower_ex : Py.lower ".BlEnD" = ".blend".
Proof. reflexivity. Qed.

(** * Properties *)

(** ** The asset-generation script *)

Section ExampleProperties.

Import Effects Example.

(** C9. The script runs inference once, with seed 1, and never reads a
    representation at an index other than 0, whatever the library
    returns; on a bundle whose three lists are non-empty it completes and
    makes exactly the calls of [expected_calls]: colour videos of the
    index-0 gaussian and radiance field, a normal video of the index-0
    mesh, one GLB from the index-0 gaussian and mesh with simplification
    0.95 and texture size 1024, one PLY of the index-0 gaussian. *)
Theorem example_script_calls (run : string -> Z -> outputs) :
  (forall out t,
      script run [] = (out, t) ->
      runs t = [(example_image, 1%Z)]
      /\ Forall (fun ki => snd ki = 0%Z) (subscripts t))
  /\ (forall g gs r rs m ms,
      dict_get "gaussian" (run example_image 1%Z) = Some (g :: gs) ->
      dict_get "radiance_field" (run example_image 1%Z) = Some (r :: rs) ->
      dict_get "mesh" (run example_image 1%Z) = Some (m :: ms) ->
      script run [] = (Ok tt, expected_calls g r m)).
Proof.
  split.
  - intros out t. unfold example_image.
    destruct (dict_get "gaussian" (run "assets/example_image/car.png" 1%Z))
      as [[|g gs]|] eqn:Hg;
      destruct (dict_get "radiance_field"
                  (run "assets/example_image/car.png" 1%Z))
        as [[|r rs]|] eqn:Hr;
      destruct (dict_get "mesh" (run "assets/example_image/car.png" 1%Z))
        as [[|m ms]|] eqn:Hm;
      unfold script, subscript, render_video, to_glb, calls, bind, change,
        ret, raise;
      rewrite ?Hg, ?Hr, ?Hm; cbn;
      intros H; inversion H; subst; clear H;
      (split; [reflexivity | repeat constructor]).
  - intros g gs r rs m ms Hg Hr Hm.
    unfold script, subscript, render_video, to_glb, calls, bind, change,
      ret, raise, example_image in *.
    rewrite Hg, Hr, Hm. reflexivity.
Qed.

End ExampleProperties.

Lemma example_script_calls_witness :
  Example.script sample_run []
  = (Effects.Ok tt, expected_calls 7%nat 8%nat 9%nat).
Proof.
  apply (proj2 (example_script_calls sample_run) 7%nat [] 8%nat [] 9%nat []);
    reflexivity.
Defined.

(** ** The object store *)

Ltac wsimpl :=
  cbn [Host.objects Host.active Host.scene_camera Host.render_filepath
       Host.disk Host.log Host.matrices Host.set_objects Host.set_active
       Host.set_scene_camera Host.set_render_filepath Host.set_disk
       Host.set_matrices Host.add_log Host.write_path] in *.

Section StoreLemmas.

Import Geometry Effects Host.

Lemma lookup_nil (i : oid) : lookup i [] = None.
Proof. unfold lookup. destruct i; reflexivity. Qed.

Lemma lookup_update_same (i : oid) (f : object -> object) l :
  lookup i (update i f l) = option_map f (lookup i l).
Proof.
  revert i. induction l as [|s l IH]; intros [|i]; try reflexivity.
  - destruct s; reflexivity.
  - apply IH.
Qed.

Lemma lookup_update_other (i j : oid) (f : object -> object) l :
  i <> j -> lookup j (update i f l) = lookup j l.
Proof.
  revert i j. induction l as [|s l IH]; intros [|i] [|j] Hij;
    try reflexivity; try congruence.
  apply IH. congruence.
Qed.

Lemma update_length (i : oid) (f : object -> object) l :
  List.length (update i f l) = List.length l.
Proof.
  revert i. induction l as [|s l IH]; intros [|i]; simpl; auto.
Qed.

Lemma lookup_app_old (i : oid) l l' o :
  lookup i l = Some o -> lookup i (l ++ l') = Some o.
Proof.
  unfold lookup. intros H.
  destruct (nth_error l i) as [s|] eqn:E; [|discriminate].
  rewrite nth_error_app1.
  - rewrite E. exact H.
  - apply nth_error_Some. congruence.
Qed.

Lemma lookup_app_new l (o : object) :
  lookup (List.length l) (l ++ [Some o]) = Some o.
Proof.
  unfold lookup. rewrite nth_error_app2 by lia.
  rewrite Nat.sub_diag. reflexivity.
Qed.

Lemma lookup_update_present (i j : oid) (f : object -> object) l o :
  lookup j l = Some o -> exists o', lookup j (update i f l) = Some o'.
Proof.
  intros H. destruct (Nat.eq_dec i j) as [->|Hij].
  - rewrite lookup_update_same, H. simpl. eauto.
  - rewrite lookup_update_other by assumption. eauto.
Qed.

Lemma present_from_app (l l' : list (option object)) :
  forall n,
    present_from n (l ++ l')
    = (present_from n l ++ present_from (n + List.length l)%nat l')%list.
Proof.
  induction l as [|s l IH]; intros n; simpl.
  - rewrite Nat.add_0_r. reflexivity.
  - rewrite IH, Nat.add_succ_r. destruct s; reflexivity.
Qed.

End StoreLemmas.

(** ** Model import *)

Section ImportProperties.

Import Geometry Effects Host RenderScript.
Local Open Scope script_scope.
Local Open Scope list_scope.

Variable host : backend.

Lemma bind_ok {S A B : Type} (c : SE S A) (k : A -> SE S B) s a s' :
  c s = (Ok a, s') -> bind c k s = k a s'.
Proof. intros H. unfold bind. rewrite H. reflexivity. Qed.

Lemma bind_raise {S A B : Type} (c : SE S A) (k : A -> SE S B) s e s' :
  c s = (Raise e, s') -> bind c k s = (Raise e, s').
Proof. intros H. unfold bind. rewrite H. reflexivity. Qed.

Lemma importer_for_supported (ext : string) :
  In ext supported_extensions <-> importer_for ext <> None.
Proof.
  unfold importer_for, supported_extensions. split.
  - intros H. simpl in H.
    repeat (destruct H as [H|H]; [subst ext; cbn; congruence|]).
    contradiction.
  - repeat match goal with
    | |- context [String.eqb ext ?s] =>
        destruct (String.eqb_spec ext s) as [->|_];
          [intros _; simpl; tauto|]
    end.
    congruence.
Qed.

Lemma add_objects_runs (c : list (option object)) (f : object -> object) :
  forall w, exists w',
    for_each c (fun e =>
      match e with
      | None => ret tt
      | Some o => change (fun w => set_objects (objects w ++ [Some (f o)]) w)
      end) w = (Ok tt, w')
    /\ log w' = log w /\ disk w' = disk w.
Proof.
  induction c as [|[o|] c IH]; intros w; simpl.
  - eexists. split; [reflexivity|]. auto.
  - unfold bind at 1, change at 1.
    destruct (IH (set_objects (objects w ++ [Some (f o)]) w))
      as (w' & E & Hl & Hd).
    exists w'. rewrite E. auto.
  - unfold bind at 1, ret at 1.
    destruct (IH w) as (w' & E & Hl & Hd).
    exists w'. rewrite E. auto.
Qed.

Lemma import_op_runs (k : importer) (p : string) (w : world) :
  exists w', import_op host k p w = (Ok tt, w')
             /\ log w' = log w ++ [Import k p] /\ disk w' = disk w.
Proof.
  unfold import_op, emit. unfold bind at 1, change at 1.
  unfold bind at 1, gets at 1.
  destruct (add_objects_runs (file_contents p (add_log (Import k p) w))
              (fun o => with_selected true (with_linked true o))
              (add_log (Import k p) w)) as (w' & E & Hl & Hd).
  unfold bind at 1. rewrite E.
  eexists. split; [reflexivity|]. wsimpl. auto.
Qed.

Lemma load_entries_runs (c : list (option object)) :
  forall w, exists ids w',
    load_entries c w = (Ok ids, w')
    /\ log w' = log w /\ disk w' = disk w
    /\ (forall i, In (Some i) ids ->
                  exists o, lookup i (objects w') = Some o)
    /\ (forall i o, lookup i (objects w) = Some o ->
                    exists o', lookup i (objects w') = Some o').
Proof.
  induction c as [|[o|] c IH]; intros w; simpl.
  - exists [], w. unfold ret. repeat split; auto.
    + intros i [].
    + eauto.
  - unfold bind at 1, gets at 1. unfold bind at 1, change at 1.
    set (w1 := set_objects _ w).
    destruct (IH w1) as (ids & w' & E & Hl & Hd & Hin & Hold).
    exists (Some (List.length (objects w)) :: ids), w'.
    unfold bind, ret. rewrite E. repeat split; auto.
    + intros i [Hi|Hi].
      * inversion Hi; subst i.
        apply (Hold _ (with_linked false o)).
        subst w1. simpl. apply lookup_app_new.
      * auto.
    + intros i o0 Hi. apply (Hold i o0).
      subst w1. simpl. apply lookup_app_old. exact Hi.
  - destruct (IH w) as (ids & w' & E & Hl & Hd & Hin & Hold).
    exists (None :: ids), w'. unfold bind, ret. rewrite E.
    repeat split; auto.
    intros i [Hi|Hi]; [discriminate | auto].
Qed.

Lemma modify_runs (i : oid) (f : object -> object) (w : world) o :
  lookup i (objects w) = Some o ->
  modify i f w = (Ok tt, set_objects (update i f (objects w)) w).
Proof.
  intros H. unfold modify, bind, get, find_object, change. rewrite H.
  reflexivity.
Qed.

Lemma modify_fails (i : oid) (f : object -> object) (w : world) :
  lookup i (objects w) = None ->
  modify i f w = (Raise ReferenceError, w).
Proof.
  intros H. unfold modify, bind, get, find_object, change. rewrite H.
  reflexivity.
Qed.

Lemma get_runs (i : oid) (w : world) o :
  lookup i (objects w) = Some o -> get i w = (Ok o, w).
Proof. intros H. unfold get, find_object. rewrite H. reflexivity. Qed.

Lemma link_all_runs (ids : list (option oid)) :
  forall w,
    (forall i, In (Some i) ids -> exists o, lookup i (objects w) = Some o) ->
    exists w',
      for_each ids (fun obj => match obj with
                               | Some i => link i
                               | None => ret tt
                               end) w = (Ok tt, w')
      /\ log w' = log w /\ disk w' = disk w.
Proof.
  induction ids as [|[i|] ids IH]; intros w Hp; simpl.
  - exists w. auto.
  - destruct (Hp i) as [o Ho]; [left; reflexivity|].
    unfold bind at 1. unfold link at 1. rewrite (modify_runs _ _ _ _ Ho).
    set (w1 := set_objects _ w).
    destruct (IH w1) as (w' & E & Hl & Hd).
    + intros j Hj. destruct (Hp j) as [oj Hoj]; [right; exact Hj|].
      subst w1. simpl. eapply lookup_update_present. exact Hoj.
    + exists w'. rewrite E. auto.
  - unfold bind at 1, ret at 1.
    apply IH. intros j Hj. apply Hp. right. exact Hj.
Qed.

(** What a call of [load_3Dmodel] comes to, by cases on the disk and on
    the extension. *)
Lemma load_3Dmodel_cases (path : string) (w : world) :
  let ext := Py.lower (snd (Py.splitext path)) in
  match lookup_path path (disk w) with
  | None => load_3Dmodel host path w = (Raise (FileNotFoundError path), w)
  | Some _ =>
      match importer_for ext with
      | Some k =>
          exists w', load_3Dmodel host path w = (Ok tt, w')
            /\ log w' = log w ++ [ReadFactorySettings; Import k path;
                                  Print (MsgImported path)]
      | None =>
          load_3Dmodel host path w
          = (Raise (ValueError (UnsupportedFormat ext)), factory_reset w)
      end
  end.
Proof.
  intros ext. unfold load_3Dmodel. fold ext.
  destruct (lookup_path path (disk w)) as [f|] eqn:Hf.
  2: { erewrite bind_ok
         by (unfold path_exists, gets; rewrite Hf; reflexivity).
       cbn [negb]. erewrite bind_raise; reflexivity. }
  erewrite bind_ok by (unfold path_exists, gets; rewrite Hf; reflexivity).
  cbn [negb]. erewrite bind_ok by reflexivity.
  rewrite (bind_ok read_factory_settings _ w tt (factory_reset w))
    by reflexivity.
  unfold importer_for.
  set (w0 := factory_reset w).
  assert (Hw0 : w0 = factory_reset w) by reflexivity.
  assert (Hlog : log w0 = log w ++ [ReadFactorySettings]) by reflexivity.
  clearbody w0.
  assert (Hop : forall k,
    exists w', (import_op host k path ;; print (MsgImported path)) w0
               = (Ok tt, w')
     /\ log w' = log w ++ [ReadFactorySettings; Import k path;
                           Print (MsgImported path)]).
  { intros k. destruct (import_op_runs k path w0) as (w1 & E & Hl & _).
    unfold bind. rewrite E. eexists. split; [reflexivity|].
    simpl. rewrite Hl, Hlog, <- !app_assoc. reflexivity. }
  destruct (String.eqb ext ".blend").
  { unfold bind at 1. unfold bind at 1. unfold libraries_load.
    unfold bind at 1, emit, change at 1. unfold bind at 1, gets at 1.
    set (w1 := add_log _ w0).
    destruct (load_entries_runs (file_contents path w1) w1)
      as (ids & w2 & E & Hl & Hd & Hin & _).
    unfold bind at 1. rewrite E. unfold bind at 1, settle, change at 1.
    unfold ret at 1.
    set (w2' := set_matrices _ w2).
    destruct (link_all_runs ids w2' Hin) as (w3 & E3 & Hl3 & _).
    rewrite E3. eexists. split; [reflexivity|].
    simpl. rewrite Hl3. subst w2'. wsimpl. rewrite Hl. subst w1. simpl.
    rewrite Hlog, <- !app_assoc. reflexivity. }
  destruct (String.eqb ext ".obj"); [apply Hop|].
  destruct (String.eqb ext ".fbx"); [apply Hop|].
  destruct (String.eqb ext ".stl"); [apply Hop|].
  destruct (String.eqb ext ".glb"); [apply Hop|].
  destruct (String.eqb ext ".gltf"); [apply Hop|].
  simpl. unfold bind, raise. rewrite Hw0. reflexivity.
Qed.

Lemma lookup_cleared (i : oid) (l : list (option object)) :
  lookup i (map (fun _ => None) l) = None.
Proof.
  unfold lookup. rewrite nth_error_map.
  destruct (nth_error l i); reflexivity.
Qed.

Lemma present_cleared (l : list (option object)) :
  present (map (fun _ => None) l) = [].
Proof.
  unfold present. generalize 0%nat.
  induction l as [|s l IH]; intros n; simpl; auto.
Qed.

(** C6. [load_3Dmodel] raises FileNotFound exactly when the path is not
    on disk; it raises UnsupportedFormat exactly when the path is on disk
    and its lower-cased extension is none of .blend, .obj, .fbx, .stl,
    .glb, .gltf; otherwise it resets the scene, calls the importer of
    that extension on the path, reports success and returns nothing. *)
Theorem load_3Dmodel_outcomes (path : string) (w : world) :
  let ext := Py.lower (snd (Py.splitext path)) in
  let r := load_3Dmodel host path w in
  ((exists what, fst r = Raise (FileNotFoundError what))
   <-> on_disk path w = false)
  /\ ((exists e, fst r = Raise (ValueError (UnsupportedFormat e)))
      <-> (on_disk path w = true /\ ~ In ext supported_extensions))
  /\ (on_disk path w = true -> In ext supported_extensions ->
      exists k, importer_for ext = Some k
        /\ fst r = Ok tt
        /\ log (snd r) = log w ++ [ReadFactorySettings; Import k path;
                                   Print (MsgImported path)]).
Proof.
  intros ext r. subst r.
  pose proof (load_3Dmodel_cases path w) as H. cbv zeta in H. fold ext in H.
  pose proof (importer_for_supported ext) as Hs.
  unfold on_disk.
  destruct (lookup_path path (disk w)) as [f|].
  - destruct (importer_for ext) as [k|].
    + destruct H as (w' & E & Hl). rewrite E. simpl.
      split; [split|split; [split|]].
      * intros [what Hw]. discriminate.
      * discriminate.
      * intros [e He]. discriminate.
      * intros [_ Hn]. exfalso. apply Hn, Hs. discriminate.
      * intros _ _. exists k. auto.
    + rewrite H. simpl. split; [split|split; [split|]].
      * intros [what Hw]. discriminate.
      * discriminate.
      * intros _. split; [reflexivity|]. intros Hin.
        apply Hs in Hin. congruence.
      * intros _. eauto.
      * intros _ Hin. apply Hs in Hin. congruence.
  - rewrite H. simpl. split; [split|split; [split|]].
    + intros _. reflexivity.
    + intros _. eauto.
    + intros [e He]. discriminate.
    + intros [Hd _]. discriminate.
    + discriminate.
Qed.

(** C10. When the path is missing, [load_3Dmodel] raises FileNotFound and
    the world is untouched; when the path exists but its extension is not
    supported, it raises UnsupportedFormat after the scene has been reset:
    no object is left, although nothing was imported. *)
Theorem load_3Dmodel_not_atomic (path : string) (w : world) :
  let ext := Py.lower (snd (Py.splitext path)) in
  (on_disk path w = false ->
   load_3Dmodel host path w = (Raise (FileNotFoundError path), w))
  /\ (on_disk path w = true -> ~ In ext supported_extensions ->
      exists w',
        load_3Dmodel host path w
        = (Raise (ValueError (UnsupportedFormat ext)), w')
        /\ w' = factory_reset w
        /\ scene_objects w' = []
        /\ (forall i, find_object i w' = None)
        /\ log w' = log w ++ [ReadFactorySettings]).
Proof.
  intros ext.
  pose proof (load_3Dmodel_cases path w) as H. cbv zeta in H. fold ext in H.
  pose proof (importer_for_supported ext) as Hs.
  unfold on_disk.
  destruct (lookup_path path (disk w)) as [f|]; split; try discriminate.
  - intros _ Hn. destruct (importer_for ext) as [k|].
    + exfalso. apply Hn, Hs. discriminate.
    + exists (factory_reset w). repeat split.
      * exact H.
      * unfold scene_objects, factory_reset. simpl.
        rewrite present_cleared. reflexivity.
      * intros i. apply lookup_cleared.
  - intros _. exact H.
Qed.

End ImportProperties.

Lemma load_3Dmodel_outcomes_witness :
  exists k, importer_for ".obj" = Some k
    /\ fst (RenderScript.load_3Dmodel plain_host "/s/model/car.OBJ"
                                      sample_world)
       = Effects.Ok tt
    /\ Host.log (snd (RenderScript.load_3Dmodel plain_host "/s/model/car.OBJ"
                                                 sample_world))
       = [Host.ReadFactorySettings; Host.Import k "/s/model/car.OBJ";
          Host.Print (Host.MsgImported "/s/model/car.OBJ")].
Proof.
  apply (proj2 (proj2 (load_3Dmodel_outcomes plain_host "/s/model/car.OBJ"
                                             sample_world))).
  - reflexivity.
  - simpl. tauto.
Defined.

Lemma load_3Dmodel_not_atomic_witness :
  Host.scene_objects sample_world <> []
  /\ exists w',
       RenderScript.load_3Dmodel plain_host "/s/notes.txt" sample_world
       = (Effects.Raise (Effects.ValueError (Effects.UnsupportedFormat ".txt")),
          w')
       /\ w' = factory_reset sample_world
       /\ Host.scene_objects w' = []
       /\ (forall i, Host.find_object i w' = None)
       /\ Host.log w' = [Host.ReadFactorySettings].
Proof.
  split; [discriminate|].
  apply (proj2 (load_3Dmodel_not_atomic plain_host "/s/notes.txt"
                                        sample_world)).
  - reflexivity.
  - simpl. intros H.
    repeat (destruct H as [H|H]; [discriminate|]). exact H.
Defined.

(** ** Model-path resolution *)

Section PathProperties.

Import Geometry Effects Host RenderScript.
Local Open Scope script_scope.
Local Open Scope list_scope.

Lemma list_index_absent (x : string) (l : list string) :
  ~ In x l -> list_index x l = None.
Proof.
  induction l as [|y l IH]; simpl; intros H; [reflexivity|].
  destruct (String.eqb_spec y x) as [->|Hyx].
  - exfalso. apply H. left. reflexivity.
  - rewrite IH; [reflexivity|]. intros Hin. apply H. right. exact Hin.
Qed.

Lemma list_index_first (x : string) (pre post : list string) :
  ~ In x pre ->
  list_index x (pre ++ x :: post) = Some (Z.of_nat (List.length pre)).
Proof.
  induction pre as [|y pre IH]; simpl; intros H.
  - rewrite String.eqb_refl. reflexivity.
  - destruct (String.eqb_spec y x) as [->|Hyx].
    + exfalso. apply H. left. reflexivity.
    + rewrite IH by (intros Hin; apply H; right; exact Hin).
      simpl. f_equal. lia.
Qed.

Lemma search_model_runs (model_dir f : string) (exts : list string) :
  forall acc w,
    search_model model_dir f exts acc w
    = (Ok (acc ++ filter (fun p => on_disk p w)
                         (map (fun ext => Py.join model_dir (f ++ ext)%string)
                              exts)), w).
Proof.
  induction exts as [|ext exts IH]; intros acc w; simpl.
  - rewrite app_nil_r. reflexivity.
  - erewrite bind_ok by reflexivity. rewrite IH.
    unfold on_disk at 2.
    destruct (lookup_path _ (disk w)); simpl.
    + rewrite <- app_assoc. reflexivity.
    + reflexivity.
Qed.

Lemma get_model_path_searches (script_dir : string) (w : world)
      (pre : list string) (f : string) (post : list string) :
  ~ In "--"%string pre ->
  snd (Py.splitext f) = ""%string ->
  get_model_path_from_args script_dir (pre ++ "--"%string :: f :: post) w
  = resolution f w (matches script_dir f w).
Proof.
  intros Hpre Hext.
  unfold get_model_path_from_args, try_pass.
  rewrite (list_index_first _ _ _ Hpre).
  assert (Hlt : (Z.of_nat (List.length pre)
                 <? Z.of_nat (List.length
                                (pre ++ "--"%string :: f :: post)) - 1)%Z
                = true).
  { apply Z.ltb_lt. rewrite length_app. simpl. lia. }
  assert (Hnth : nth_error (pre ++ "--"%string :: f :: post)
                           (Z.to_nat (Z.of_nat (List.length pre) + 1))
                 = Some f).
  { replace (Z.to_nat (Z.of_nat (List.length pre) + 1))
      with (List.length pre + 1)%nat by lia.
    rewrite nth_error_app2 by lia.
    replace (List.length pre + 1 - List.length pre)%nat with 1%nat by lia.
    reflexivity. }
  rewrite Hlt, Hnth, Hext, String.eqb_refl.
  unfold bind at 1. unfold bind at 1. unfold bind at 1.
  rewrite search_model_runs. simpl app.
  fold (tried_paths script_dir f). fold (matches script_dir f w).
  destruct (matches script_dir f w) as [|p [|q more]]; reflexivity.
Qed.

(** C5. With a file name given after the first "--" and without an
    extension, the model directory is searched in the order of the
    extension list: no match raises FileNotFound, one match is returned
    without any notice, several matches return the first one and print
    the candidates and the choice.  With no "--", or with "--" as the
    last argument, the default car.blend is returned and nothing is
    raised.  The world is changed by the notice only. *)
Theorem get_model_path_from_args_spec (script_dir : string)
        (argv : list string) (w : world) :
  (forall pre f post,
      ~ In "--"%string pre ->
      argv = pre ++ "--"%string :: f :: post ->
      snd (Py.splitext f) = ""%string ->
      let r := get_model_path_from_args script_dir argv w in
      (matches script_dir f w = [] ->
       r = (Raise (FileNotFoundError f), w))
      /\ (forall p, matches script_dir f w = [p] ->
          r = (Ok (p, fst (Py.splitext (Py.basename p))), w))
      /\ (forall p q more, matches script_dir f w = p :: q :: more ->
          r = (Ok (p, fst (Py.splitext (Py.basename p))),
               add_log (Print (MsgUsing p))
                 (add_log (Print (MsgMultipleFiles (p :: q :: more))) w))))
  /\ ((~ In "--"%string argv
       \/ exists pre, ~ In "--"%string pre /\ argv = pre ++ ["--"%string]) ->
      get_model_path_from_args script_dir argv w
      = (Ok (Py.join (Py.join script_dir "model") "car.blend",
             "car"%string), w)).
Proof.
  split.
  - intros pre f post Hpre -> Hext r. subst r.
    rewrite (get_model_path_searches script_dir w pre f post Hpre Hext).
    repeat split.
    + intros ->. reflexivity.
    + intros p ->. reflexivity.
    + intros p q more ->. reflexivity.
  - intros [Habs|[pre [Hpre ->]]];
      unfold get_model_path_from_args, try_pass.
    + rewrite (list_index_absent _ _ Habs). reflexivity.
    + rewrite (list_index_first _ _ _ Hpre).
      assert (Hlt : (Z.of_nat (List.length pre)
                     <? Z.of_nat (List.length (pre ++ ["--"%string])) - 1)%Z
                    = false).
      { apply Z.ltb_ge. rewrite length_app. simpl. lia. }
      rewrite Hlt. reflexivity.
Qed.

End PathProperties.

Lemma get_model_path_from_args_spec_witness :
  RenderScript.get_model_path_from_args "/s"
    ["blender"; "--background"; "--"; "car"] sample_world
  = (Effects.Ok ("/s/model/car.blend", "car"), sample_world).
Proof.
  assert (H : ~ In "--" ["blender"; "--background"]).
  { simpl. intros [H|[H|H]]; try discriminate; exact H. }
  apply (proj1 (proj2 (proj1
           (get_model_path_from_args_spec "/s"
              ["blender"; "--background"; "--"; "car"] sample_world)
           ["blender"; "--background"] "car" [] H eq_refl eq_refl))).
  reflexivity.
Defined.

(** The scenario of two candidates: the first in extension order wins and
    the notice is printed. *)
Example two_candidates :
  let w := Host.mkWorld [] None None ""
             [ ("/s/model/car.fbx", Host.Regular []);
               ("/s/model/car.obj", Host.Regular []) ] [] at_rest in
  RenderScript.get_model_path_from_args "/s" ["x.py"; "--"; "car"] w
  = (Effects.Ok ("/s/model/car.obj", "car"),
     Host.mkWorld [] None None ""
       [ ("/s/model/car.fbx", Host.Regular []);
         ("/s/model/car.obj", Host.Regular []) ]
       [ Host.Print (Host.MsgMultipleFiles
                       ["/s/model/car.obj"; "/s/model/car.fbx"]);
         Host.Print (Host.MsgUsing "/s/model/car.obj") ]
       at_rest).
Proof. reflexivity. Qed.

(** ** Orbit rendering *)

Section OrbitProperties.

Import Geometry Effects Host RenderScript.
Local Open Scope script_scope.
Local Open Scope list_scope.

Lemma on_disk_write (p q : string) (f : file) (w : world) :
  on_disk p (write_path q f w)
  = (String.eqb q p || on_disk p w)%bool.
Proof.
  unfold on_disk, write_path, lookup_path. simpl.
  destruct (String.eqb q p); reflexivity.
Qed.

Lemma render_angle_runs (output_dir : string) (d : R) (cam : oid)
      (angle_deg : Z) (w : world) (c : object) :
  scene_camera w = Some cam ->
  lookup cam (objects w) = Some c ->
  exists w',
    render_angle output_dir d cam angle_deg w = (Ok tt, w')
    /\ log w' = log w ++ frame_events output_dir d angle_deg
    /\ orbit_keeps cam w w'.
Proof.
  intros Hcam Hc. unfold render_angle.
  rewrite (bind_ok _ _ _ _ _ (modify_runs cam _ w c Hc)).
  set (w1 := set_objects _ w).
  assert (H1 : lookup cam (objects w1)
               = Some (with_location (orbit_position d angle_deg) c)).
  { subst w1. wsimpl. rewrite lookup_update_same, Hc. reflexivity. }
  rewrite (bind_ok _ _ _ _ _ (get_runs cam w1 _ H1)).
  rewrite (bind_ok _ _ _ _ _ (modify_runs cam _ w1 _ H1)).
  set (w2 := set_objects _ w1).
  set (rot := RotTrack _ "-Z" "Y") in *.
  assert (H2 : lookup cam (objects w2)
               = Some (with_rotation rot
                         (with_location (orbit_position d angle_deg) c))).
  { subst w2. wsimpl. rewrite lookup_update_same, H1. reflexivity. }
  erewrite bind_ok by reflexivity.
  set (w3 := set_render_filepath _ w2).
  assert (E : render_still w3
              = (Ok tt,
                 write_path (frame_path output_dir angle_deg) (Regular [])
                   (add_log (Render (frame_path output_dir angle_deg)
                                    (orbit_position d angle_deg) rot) w3))).
  { unfold render_still. erewrite bind_ok by reflexivity.
    change (scene_camera w3) with (scene_camera w). rewrite Hcam.
    unfold find_object. change (objects w3) with (objects w2). rewrite H2.
    erewrite bind_ok by reflexivity. reflexivity. }
  rewrite (bind_ok _ _ _ _ _ E).
  erewrite bind_ok by reflexivity.
  eexists. split; [reflexivity|]. split.
  - wsimpl. rewrite <- app_assoc. reflexivity.
  - unfold orbit_keeps. wsimpl. repeat split.
    + subst w3. wsimpl. rewrite H2. eauto.
    + intros i Hi. subst w3 w2 w1. wsimpl.
      rewrite !lookup_update_other by congruence. reflexivity.
    + intros p Hp. unfold on_disk in *. subst w3 w2 w1. wsimpl.
      unfold lookup_path. cbn [find fst].
      destruct (String.eqb (frame_path output_dir angle_deg) p);
        [reflexivity | exact Hp].
Qed.

Lemma orbit_keeps_trans (cam : oid) (w1 w2 w3 : world) :
  orbit_keeps cam w1 w2 -> orbit_keeps cam w2 w3 -> orbit_keeps cam w1 w3.
Proof.
  intros (Hc1 & Ha1 & Hp1 & Ho1 & Hd1) (Hc2 & Ha2 & Hp2 & Ho2 & Hd2).
  unfold orbit_keeps. repeat split; try congruence; auto.
  intros i Hi. rewrite Ho2, Ho1 by assumption. reflexivity.
Qed.

Lemma orbit_loop_runs (output_dir : string) (d : R) (cam : oid)
      (angles : list Z) :
  forall (w : world) (c : object),
    scene_camera w = Some cam ->
    lookup cam (objects w) = Some c ->
    exists w',
      for_each angles (render_angle output_dir d cam) w = (Ok tt, w')
      /\ log w' = log w ++ flat_map (frame_events output_dir d) angles
      /\ orbit_keeps cam w w'.
Proof.
  induction angles as [|a angles IH]; intros w c Hcam Hc.
  - exists w. simpl. rewrite app_nil_r. unfold orbit_keeps. eauto 10.
  - destruct (render_angle_runs output_dir d cam a w c Hcam Hc)
      as (w1 & E1 & Hl1 & Hk1).
    pose proof Hk1 as (Hc1 & _ & [c1 Hp1] & _).
    destruct (IH w1 c1) as (w' & E & Hl & Hk); [congruence|exact Hp1|].
    exists w'. cbn [for_each]. rewrite (bind_ok _ _ _ _ _ E1).
    split; [exact E|]. split.
    + rewrite Hl, Hl1. cbn [flat_map]. rewrite <- app_assoc. reflexivity.
    + eapply orbit_keeps_trans; eassumption.
Qed.

Lemma update_new (l : list (option object)) (o : object)
      (f : object -> object) :
  update (List.length l) f (l ++ [Some o]) = l ++ [Some (f o)].
Proof. induction l as [|s l IH]; simpl; [reflexivity|]. f_equal. exact IH. Qed.

(** Up to its loop, [render_views] makes the directory and the camera. *)
Lemma render_views_start (output_dir : string) (angle_step : Z) (d : R)
      (w : world) :
  render_views output_dir angle_step d w
  = match Py.range 0 360 angle_step with
    | None => (Raise (ValueError RangeZeroStep), orbit_start output_dir w)
    | Some angles =>
        for_each angles
          (render_angle output_dir d (List.length (objects w)))
          (orbit_start output_dir w)
    end.
Proof.
  unfold render_views.
  erewrite bind_ok by reflexivity. fold (on_disk output_dir w).
  set (w1 := if on_disk output_dir w then w
             else write_path output_dir Directory
                             (add_log (Makedirs output_dir) w)).
  assert (E1 : (if negb (on_disk output_dir w) then makedirs output_dir
                else ret tt) w = (Ok tt, w1)).
  { subst w1. destruct (on_disk output_dir w); reflexivity. }
  rewrite (bind_ok _ _ _ _ _ E1).
  assert (Hobj : objects w1 = objects w)
    by (subst w1; destruct (on_disk output_dir w); reflexivity).
  erewrite bind_ok by reflexivity.
  erewrite bind_ok by reflexivity.
  set (w2 := set_objects _ w1).
  assert (H2 : lookup (List.length (objects w1)) (objects w2)
               = Some (mkObject "Camera" Camera vzero (RotMatrix mat_id)
                                vone false false)).
  { subst w2. wsimpl. apply lookup_app_new. }
  unfold link. rewrite (bind_ok _ _ _ _ _ (modify_runs _ _ w2 _ H2)).
  erewrite bind_ok by reflexivity.
  set (w3 := set_scene_camera _ _).
  assert (Hw3 : w3 = orbit_start output_dir w).
  { subst w3 w2. unfold orbit_start. fold w1. wsimpl.
    rewrite update_new. reflexivity. }
  rewrite Hw3, Hobj.
  destruct (Py.range 0 360 angle_step); reflexivity.
Qed.

Lemma orbit_start_objects (output_dir : string) (w : world) :
  objects (orbit_start output_dir w)
  = objects w ++ [Some (mkObject "Camera" Camera vzero (RotMatrix mat_id)
                                 vone true false)].
Proof.
  unfold orbit_start. destruct (on_disk output_dir w); reflexivity.
Qed.

Lemma render_views_runs (output_dir : string) (angle_step : Z) (d : R)
      (w : world) (angles : list Z) :
  Py.range 0 360 angle_step = Some angles ->
  exists w',
    render_views output_dir angle_step d w = (Ok tt, w')
    /\ log w' = log w
                ++ (if on_disk output_dir w then []
                    else [Makedirs output_dir])
                ++ flat_map (frame_events output_dir d) angles
    /\ orbit_keeps (List.length (objects w)) (orbit_start output_dir w) w'.
Proof.
  intros Hr. rewrite render_views_start, Hr.
  destruct (orbit_loop_runs output_dir d (List.length (objects w)) angles
              (orbit_start output_dir w)
              (mkObject "Camera" Camera vzero (RotMatrix mat_id) vone
                        true false))
    as (w' & E & Hl & Hk).
  - unfold orbit_start. destruct (on_disk output_dir w); reflexivity.
  - rewrite orbit_start_objects. apply lookup_app_new.
  - exists w'. split; [exact E|]. split; [|exact Hk].
    rewrite Hl. unfold orbit_start.
    destruct (on_disk output_dir w); wsimpl.
    + reflexivity.
    + rewrite <- app_assoc. reflexivity.
Qed.

Lemma lookup_app_below (i : oid) (l l' : list (option object)) :
  (i < List.length l)%nat -> lookup i (l ++ l') = lookup i l.
Proof.
  intros H. unfold lookup. rewrite nth_error_app1 by exact H. reflexivity.
Qed.

(** Whatever its outcome, [render_views] leaves the objects that were
    there as they were. *)
Lemma render_views_keeps (output_dir : string) (angle_step : Z) (d : R)
      (w : world) r w' :
  render_views output_dir angle_step d w = (r, w') ->
  forall i, (i < List.length (objects w))%nat ->
            lookup i (objects w') = lookup i (objects w).
Proof.
  intros E i Hi.
  assert (Hs : lookup i (objects (orbit_start output_dir w))
               = lookup i (objects w)).
  { rewrite orbit_start_objects. apply lookup_app_below. exact Hi. }
  destruct (Py.range 0 360 angle_step) as [angles|] eqn:Hr.
  - destruct (render_views_runs output_dir angle_step d w angles Hr)
      as (w1 & E1 & _ & (_ & _ & _ & Ho & _)).
    rewrite E1 in E. inversion E; subst.
    rewrite Ho by lia. exact Hs.
  - rewrite render_views_start, Hr in E. inversion E; subst. exact Hs.
Qed.

Lemma save_combined_object_runs (output_dir model_name : string)
      (w : world) :
  exists w',
    save_combined_object output_dir model_name w = (Ok tt, w')
    /\ objects w' = objects w
    /\ log w' = log w
                ++ (if on_disk output_dir w then []
                    else [Makedirs output_dir])
                ++ [ SaveMainfile
                       (Py.join output_dir
                                (model_name ++ "_final.blend")%string);
                     Print (MsgSaved
                       (Py.join output_dir
                                (model_name ++ "_final.blend")%string)) ].
Proof.
  unfold save_combined_object.
  erewrite bind_ok by reflexivity. fold (on_disk output_dir w).
  destruct (on_disk output_dir w); cbn [negb].
  - erewrite bind_ok by reflexivity. erewrite bind_ok by reflexivity.
    eexists. split; [reflexivity|]. wsimpl. split; [reflexivity|].
    rewrite <- app_assoc. reflexivity.
  - erewrite bind_ok by reflexivity. erewrite bind_ok by reflexivity.
    eexists. split; [reflexivity|]. wsimpl. split; [reflexivity|].
    rewrite <- !app_assoc. reflexivity.
Qed.

End OrbitProperties.

Section OrbitTheorems.

Import Geometry Effects Host RenderScript.
Local Open Scope script_scope.
Local Open Scope list_scope.
Local Open Scope Z_scope.

Lemma rendered_app (l1 l2 : list event) :
  rendered (l1 ++ l2) = rendered l1 ++ rendered l2.
Proof. unfold rendered. apply flat_map_app. Qed.

Lemma rendered_frames (output_dir : string) (d : R) (angles : list Z) :
  rendered (flat_map (frame_events output_dir d) angles)
  = map (frame_pose output_dir d) angles.
Proof.
  induction angles as [|a angles IH]; [reflexivity|].
  cbn [flat_map map]. rewrite rendered_app, IH. reflexivity.
Qed.

Lemma range_orbit (step : Z) :
  0 < step -> (step | 360) -> Py.range 0 360 step = Some (orbit_angles step).
Proof.
  intros Hpos [k Hk]. unfold Py.range, Py.range_len, orbit_angles.
  destruct (Z.eqb_spec step 0) as [?|_]; [lia|].
  destruct (Z.ltb_spec 0 step) as [_|?]; [|lia].
  cbn [Z.ltb Z.compare].
  assert (Hdiv : (360 - 0 - 1) / step + 1 = 360 / step).
  { assert (0 < k) by nia.
    rewrite Hk, Z.div_mul by lia.
    replace (k * step - 0 - 1) with ((k - 1) * step + (step - 1)) by ring.
    rewrite Z.div_add_l by lia. rewrite Z.div_small by lia. lia. }
  rewrite Hdiv. f_equal.
Qed.

Lemma orbit_ok_divisors (step : Z) :
  0 < step -> (step | 360) -> orbit_ok step = true.
Proof.
  intros Hpos Hdiv.
  assert (Hle : step <= 360) by (apply Z.divide_pos_le; [lia|exact Hdiv]).
  assert (Hall : forallb (fun n => implb (360 mod Z.of_nat n =? 0)
                                         (orbit_ok (Z.of_nat n)))
                         (seq 1 360) = true) by (vm_compute; reflexivity).
  rewrite forallb_forall in Hall.
  specialize (Hall (Z.to_nat step)).
  rewrite Z2Nat.id in Hall by lia.
  assert (Hmod : (360 mod step =? 0) = true).
  { apply Z.eqb_eq. apply Z.mod_divide; [lia|exact Hdiv]. }
  rewrite Hmod in Hall. apply Hall.
  apply in_seq. lia.
Qed.

(** C2, amended. For a positive step that divides 360, [render_views]
    creates the output directory when it is absent and then renders
    exactly 360 / step frames: one for each of the angles 0, step,
    2*step, ... below 360, in ascending order, to the files angle_NNN.png
    of the output directory with the angle written on three digits, the
    names increasing. *)
Theorem render_views_frames (output_dir : string) (angle_step : Z) (d : R)
        (w : world) :
  0 < angle_step -> (angle_step | 360) ->
  let angles := orbit_angles angle_step in
  exists w',
    render_views output_dir angle_step d w = (Ok tt, w')
    /\ log w' = log w
                ++ (if on_disk output_dir w then []
                    else [Makedirs output_dir])
                ++ flat_map (frame_events output_dir d) angles
    /\ on_disk output_dir w' = true
    /\ map (fun f => fst (fst f)) (rendered (log w'))
       = map (fun f => fst (fst f)) (rendered (log w))
         ++ map (fun a => Py.join output_dir
                            ("angle_" ++ Py.format_03d a ++ ".png")%string)
                angles
    /\ Z.of_nat (List.length angles) = 360 / angle_step
    /\ Forall (fun a => 0 <= a < 360) angles
    /\ strictly_increasing Z.ltb angles = true
    /\ Forall (fun a => String.length (Py.format_03d a) = 3%nat) angles
    /\ strictly_increasing String.ltb (map frame_name angles) = true.
Proof.
  intros Hpos Hdiv angles.
  destruct (render_views_runs output_dir angle_step d w angles
              (range_orbit _ Hpos Hdiv)) as (w' & E & Hl & Hk).
  pose proof (orbit_ok_divisors _ Hpos Hdiv) as Hok.
  unfold orbit_ok in Hok. fold angles in Hok.
  apply andb_prop in Hok. destruct Hok as [Hok Hnames].
  apply andb_prop in Hok. destruct Hok as [Hok Hwidth].
  apply andb_prop in Hok. destruct Hok as [Hok Hasc].
  apply andb_prop in Hok. destruct Hok as [Hlen Hbelow].
  rewrite forallb_forall in Hbelow, Hwidth.
  exists w'. split; [exact E|]. split; [exact Hl|]. split.
  { destruct Hk as (_ & _ & _ & _ & Hd). apply Hd.
    unfold orbit_start.
    destruct (on_disk output_dir w) eqn:Ho.
    - exact Ho.
    - unfold on_disk. wsimpl. unfold lookup_path. cbn [find fst].
      rewrite String.eqb_refl. reflexivity. }
  split.
  { rewrite Hl, !rendered_app, rendered_frames, !map_app.
    destruct (on_disk output_dir w); cbn [rendered flat_map map app];
      rewrite map_map; reflexivity. }
  split; [apply Z.eqb_eq; exact Hlen|].
  split.
  { apply Forall_forall. intros a Ha.
    specialize (Hbelow a Ha). apply andb_prop in Hbelow.
    destruct Hbelow as [H1 H2].
    apply Z.leb_le in H1. apply Z.ltb_lt in H2. lia. }
  split; [exact Hasc|].
  split; [|exact Hnames].
  apply Forall_forall. intros a Ha.
  apply Nat.eqb_eq. exact (Hwidth a Ha).
Qed.

(** C8. At every angle of the loop the camera is rendered from
    (d cos a, d sin a, 0), a being the angle in radians, and with the
    orientation that tracks, along -Z with Y up, the direction from that
    position to the origin.  (With a zero step there is no loop and no
    frame.) *)
Theorem render_views_camera (output_dir : string) (angle_step : Z) (d : R)
        (w : world) :
  let r := render_views output_dir angle_step d w in
  match Py.range 0 360 angle_step with
  | Some angles =>
      fst r = Ok tt
      /\ map (fun f => (snd (fst f), snd f)) (rendered (log (snd r)))
         = map (fun f => (snd (fst f), snd f)) (rendered (log w))
           ++ map (fun a =>
                     let theta := (IZR a * PI / 180)%R in
                     let position :=
                       mkVec (d * cos theta) (d * sin theta) 0 in
                     (position, RotTrack (vsub vzero position) "-Z" "Y"))
                  angles
      /\ Forall (fun a => vadd (orbit_position d a)
                               (vsub vzero (orbit_position d a)) = vzero)
                angles
  | None =>
      fst r = Raise (ValueError RangeZeroStep)
      /\ rendered (log (snd r)) = rendered (log w)
  end.
Proof.
  intros r. subst r.
  destruct (Py.range 0 360 angle_step) as [angles|] eqn:Hr.
  - destruct (render_views_runs output_dir angle_step d w angles Hr)
      as (w' & E & Hl & _).
    rewrite E. cbn [fst snd]. split; [reflexivity|]. split.
    + rewrite Hl, !rendered_app, rendered_frames, !map_app.
      destruct (on_disk output_dir w); cbn [rendered flat_map map app];
        rewrite map_map; reflexivity.
    + apply Forall_forall. intros a _.
      unfold vadd, vsub, vzero, orbit_position. cbn [vx vy vz].
      f_equal; lra.
  - rewrite render_views_start, Hr. cbn [fst snd].
    split; [reflexivity|]. unfold orbit_start.
    destruct (on_disk output_dir w); wsimpl; [reflexivity|].
    rewrite rendered_app. cbn. apply app_nil_r.
Qed.

End OrbitTheorems.

Lemma render_views_frames_witness :
  exists w',
    RenderScript.render_views "/s/output/car" 120 8 sample_world
    = (Effects.Ok tt, w')
    /\ map (fun f => fst (fst f)) (rendered (Host.log w'))
       = [ "/s/output/car/angle_000.png"; "/s/output/car/angle_120.png";
           "/s/output/car/angle_240.png" ].
Proof.
  destruct (render_views_frames "/s/output/car" 120 8 sample_world)
    as (w' & E & _ & _ & Hf & _).
  - lia.
  - exists 3%Z. reflexivity.
  - exists w'. split; [exact E|]. rewrite Hf. reflexivity.
Defined.

(** A negative step divides 360 as well, and then nothing is rendered. *)
Lemma render_views_frames_negative_step :
  (-30 | 360)%Z
  /\ exists w',
       RenderScript.render_views "/s/output/car" (-30) 8 sample_world
       = (Effects.Ok tt, w')
       /\ rendered (Host.log w') = []
       /\ Z.of_nat (List.length (rendered (Host.log w'))) <> (360 / -30)%Z.
Proof.
  split; [exists (-12)%Z; reflexivity|].
  destruct (render_views_runs "/s/output/car" (-30) 8 sample_world []
              eq_refl) as (w' & E & Hl & _).
  exists w'. split; [exact E|].
  assert (Hr : rendered (Host.log w') = []) by (rewrite Hl; reflexivity).
  split; [exact Hr|]. rewrite Hr. discriminate.
Qed.

Lemma render_views_camera_witness :
  fst (RenderScript.render_views "/s/output/car" 150 8 sample_world)
  = Effects.Ok tt
  /\ List.length
       (rendered (Host.log (snd (RenderScript.render_views
                                   "/s/output/car" 150 8 sample_world))))
     = 3%nat.
Proof.
  destruct (render_views_camera "/s/output/car" 150 8 sample_world)
    as (E & Hf & _).
  split; [exact E|].
  apply (f_equal (@List.length _)) in Hf.
  rewrite !length_map in Hf. exact Hf.
Defined.

(** ** Lighting *)

Section LightProperties.

Import Geometry Effects Host RenderScript.
Local Open Scope script_scope.
Local Open Scope list_scope.

Lemma modify_last (w : world) (l : list (option object)) (o : object)
      (f : object -> object) :
  objects w = l ++ [Some o] ->
  modify (List.length l) f w = (Ok tt, set_objects (l ++ [Some (f o)]) w).
Proof.
  intros H. erewrite modify_runs.
  - rewrite H, update_new. reflexivity.
  - rewrite H. apply lookup_app_new.
Qed.

Lemma set_energy_last (w : world) (l : list (option object)) (o : object)
      (k : string) (e0 e : R) :
  objects w = l ++ [Some o] ->
  data o = Light k e0 ->
  set_energy (List.length l) e w
  = (Ok tt, set_objects (l ++ [Some (with_data (Light k e) o)]) w).
Proof.
  intros H Hd. unfold set_energy.
  erewrite bind_ok by (apply get_runs; rewrite H; apply lookup_app_new).
  rewrite Hd. apply modify_last. exact H.
Qed.

Ltac light_steps :=
  erewrite bind_ok by reflexivity;
  erewrite bind_ok by reflexivity;
  unfold link;
  erewrite bind_ok by (apply modify_last; reflexivity);
  erewrite bind_ok by (apply modify_last; reflexivity).

(** Creating, linking, placing and powering one light, as the first
    statements of a block and as a whole loop body. *)
Lemma light_created_then (light_name : string) (pos : vec3) (e : R)
      (w : world) (k : unit -> M unit) :
  (light_data <- lights_new light_name "POINT" ;;
   light_object <- objects_new light_name light_data ;;
   link light_object ;;
   modify light_object (with_location pos) ;;
   u <- set_energy light_object e ;;
   k u) w
  = k tt (set_objects (objects w ++ [Some (point_light light_name pos e)]) w).
Proof.
  light_steps.
  erewrite bind_ok by (eapply set_energy_last; reflexivity).
  reflexivity.
Qed.

Lemma light_created (light_name : string) (pos : vec3) (e : R) (w : world) :
  (light_data <- lights_new light_name "POINT" ;;
   light_object <- objects_new light_name light_data ;;
   link light_object ;;
   modify light_object (with_location pos) ;;
   set_energy light_object e) w
  = (Ok tt,
     set_objects (objects w ++ [Some (point_light light_name pos e)]) w).
Proof.
  light_steps.
  erewrite set_energy_last by reflexivity.
  reflexivity.
Qed.

Lemma setup_lights_runs (w : world) :
  setup_lights w
  = (Ok tt, set_objects (objects w ++ map Some light_rig) w).
Proof.
  unfold setup_lights.
  rewrite (light_created_then "Center_Light" (mkVec 0 0 2) 200 w
             (fun _ => for_each (py_enumerate diagonal_positions) _)).
  change (py_enumerate diagonal_positions)
    with [ (0%Z, mkVec (-2) (-2) 2); (1%Z, mkVec 2 (-2) 2);
           (2%Z, mkVec (-2) 2 2); (3%Z, mkVec 2 2 2) ].
  cbn [for_each fst snd].
  do 4 (erewrite bind_ok by apply light_created).
  unfold ret, set_objects. cbn [objects active scene_camera render_filepath
                                disk log].
  rewrite <- !app_assoc. reflexivity.
Qed.

(** C4. Whatever the scene holds, [setup_lights] adds exactly the five
    point lights of [light_rig] to it: one at (0, 0, 2) with power 200 and
    one at each of (-2, -2, 2), (2, -2, 2), (-2, 2, 2), (2, 2, 2) with
    power 150; nothing else changes, and the rendering and saving that
    follow in the pipeline leave the five lights as they are. *)
Theorem setup_lights_rig (w : world) :
  exists w',
    setup_lights w = (Ok tt, w')
    /\ objects w' = objects w ++ map Some light_rig
    /\ scene_objects w'
       = scene_objects w
         ++ combine (seq (List.length (objects w)) 5) light_rig
    /\ log w' = log w /\ disk w' = disk w
    /\ active w' = active w /\ scene_camera w' = scene_camera w
    /\ (forall output_dir angle_step d out model_name r w'',
           (render_views output_dir angle_step d ;;
            save_combined_object out model_name) w' = (r, w'') ->
           forall k light,
             nth_error light_rig k = Some light ->
             lookup (List.length (objects w) + k)%nat (objects w'')
             = Some light).
Proof.
  eexists. split; [apply setup_lights_runs|].
  wsimpl. split; [reflexivity|]. split.
  { unfold scene_objects, present. wsimpl.
    rewrite present_from_app, filter_app. reflexivity. }
  repeat split.
  intros output_dir angle_step d out model_name r w'' E k light Hk.
  set (w' := set_objects (objects w ++ map Some light_rig) w) in *.
  assert (Hlen : (List.length (objects w) + k
                  < List.length (objects w'))%nat).
  { subst w'. wsimpl. rewrite length_app, length_map.
    assert (k < List.length light_rig)%nat
      by (apply nth_error_Some; congruence).
    simpl in *. lia. }
  assert (Hnow : lookup (List.length (objects w) + k)%nat (objects w')
                 = Some light).
  { subst w'. wsimpl. unfold lookup.
    rewrite nth_error_app2 by lia.
    replace (List.length (objects w) + k - List.length (objects w))%nat
      with k by lia.
    rewrite nth_error_map, Hk. reflexivity. }
  unfold bind in E.
  destruct (render_views output_dir angle_step d w') as [r1 w1] eqn:E1.
  pose proof (render_views_keeps _ _ _ _ _ _ E1 _ Hlen) as Hkeep.
  destruct r1 as [[]|e].
  - destruct (save_combined_object_runs out model_name w1)
      as (w2 & E2 & Ho & _).
    rewrite E2 in E. inversion E; subst.
    rewrite Ho, Hkeep. exact Hnow.
  - inversion E; subst. rewrite Hkeep. exact Hnow.
Qed.

End LightProperties.

Lemma setup_lights_rig_witness :
  Host.lookup 1%nat
    (Host.objects
       (snd (Effects.bind RenderScript.setup_lights
               (fun _ =>
                  Effects.bind
                    (RenderScript.render_views "/s/output/car" 30 8)
                    (fun _ =>
                       RenderScript.save_combined_object "/s/output" "car"))
               sample_world)))
  = Some (point_light "Center_Light" (Geometry.mkVec 0 0 2) 200).
Proof.
  destruct (setup_lights_rig sample_world)
    as (w' & E & _ & _ & _ & _ & _ & _ & H).
  rewrite (bind_ok _ _ _ _ _ E).
  apply (H "/s/output/car" 30%Z 8%R "/s/output" "car"
           (fst (Effects.bind
                   (RenderScript.render_views "/s/output/car" 30 8)
                   (fun _ =>
                      RenderScript.save_combined_object "/s/output" "car")
                   w'))
           _ (surjective_pairing _) 0%nat).
  reflexivity.
Defined.
(** ** Recentering *)

Section CenterProperties.

Import Geometry Effects Host RenderScript.
Local Open Scope script_scope.
Local Open Scope list_scope.
Local Open Scope R_scope.

Variable host : backend.

Lemma bbox_center_moved (o : object) (v : vec3) :
  bbox_center host (with_location v o)
  = vadd (vsub (bbox_center host o) (location o)) v.
Proof.
  unfold bbox_center, bound_box, to_world, linear_part.
  change (verts_of (with_location v o)) with (verts_of o).
  cbn [with_location location rotation_euler scale].
  generalize (mat_mul (rotation_matrix host (rotation_euler o))
                      (mat_diag (scale o))).
  generalize (box_min (verts_of o)), (box_max (verts_of o)), (location o).
  intros [lx ly lz] [hx hy hz] [px py pz] [a b c d e f g h i].
  destruct v as [x y z].
  unfold box_corners, vsum, vdiv, vadd, vsub, vzero, mat_apply.
  cbn [map fold_left vx vy vz m00 m01 m02 m10 m11 m12 m20 m21 m22].
  f_equal; field.
Qed.

(** A run of [move_bbox_to_origin]: the centre is computed through the
    matrix the host holds, and only the location is assigned. *)
Lemma move_bbox_to_origin_runs (obj : oid) (w : world) (o : object) :
  find_object obj w = Some o ->
  move_bbox_to_origin obj w
  = (Ok tt,
     set_objects
       (update obj
          (fun x => with_location
                      (vsub (location x)
                            (cached_center (matrices w obj) o)) x)
          (objects w))
       w).
Proof.
  intros Ho. unfold find_object in Ho. unfold move_bbox_to_origin.
  rewrite (bind_ok _ _ _ _ _ (get_runs obj w o Ho)).
  erewrite bind_ok by reflexivity.
  rewrite (modify_runs obj _ w o Ho). reflexivity.
Qed.

Lemma sample_box_center (m : mat3 * vec3) (o : object) :
  verts_of o = [mkVec 0 0 0; mkVec 1 2 3] ->
  fst m = mat_id ->
  cached_center m o
  = vadd (mkVec (1 / 2) 1 (3 / 2)) (snd m).
Proof.
  intros Hv Hm. unfold cached_center, bound_box, matrix_world_apply.
  rewrite Hv, Hm. destruct (snd m) as [tx ty tz].
  unfold box_min, box_max, lower_bound, upper_bound.
  cbn [map min_list max_list vx vy vz].
  unfold Rmin, Rmax. repeat destruct (Rle_dec _ _); try lra.
  unfold box_corners, vsum, vdiv, vadd, vzero, mat_apply, mat_id.
  cbn [map fold_left vx vy vz m00 m01 m02 m10 m11 m12 m20 m21 m22].
  f_equal; field.
Qed.

(** C3, at the input on which the code misses it.  The box has been
    given the location (5, 6, 7) by an assignment, and the matrix the
    host holds is still the one of the origin.  [move_bbox_to_origin]
    computes the centre (1/2, 1, 3/2) through that matrix and moves the
    box to (9/2, 5, 11/2): the centre of its bounding box is then at
    (5, 6, 7), not at the origin; read again through the matrix the host
    still holds, it is at (1/2, 1, 3/2) as before. *)
Theorem move_bbox_to_origin_stale_matrix :
  exists w' o',
    move_bbox_to_origin 0%nat shifted_world = (Ok tt, w')
    /\ find_object 0%nat w' = Some o'
    /\ location o' = mkVec (9 / 2) 5 (11 / 2)
    /\ bbox_center host o' = mkVec 5 6 7
    /\ bbox_center host o' <> vzero
    /\ cached_center (matrices w' 0%nat) o' = mkVec (1 / 2) 1 (3 / 2).
Proof.
  rewrite (move_bbox_to_origin_runs 0%nat shifted_world shifted_box eq_refl).
  change (matrices shifted_world 0%nat) with (mat_id, vzero).
  rewrite (sample_box_center (mat_id, vzero) shifted_box eq_refl eq_refl).
  set (o' := with_location (mkVec (9 / 2) 5 (11 / 2)) shifted_box).
  assert (Ho' : with_location
                  (vsub (location shifted_box)
                        (vadd (mkVec (1 / 2) 1 (3 / 2))
                              (snd (mat_id, vzero))))
                  shifted_box = o').
  { unfold o', with_location, vsub, vadd, vzero. cbn.
    f_equal. f_equal; field. }
  assert (Hc : bbox_center host o' = mkVec 5 6 7).
  { unfold o'. rewrite bbox_center_moved.
    change (bbox_center host shifted_box)
      with (cached_center (current_matrix host shifted_box) shifted_box).
    rewrite (sample_box_center _ shifted_box eq_refl).
    - unfold vsub, vadd. cbn. f_equal; field.
    - unfold current_matrix, linear_part. cbn.
      unfold mat_mul, mat_id, mat_diag, vone. cbn. f_equal; ring. }
  eexists. exists o'. split; [reflexivity|].
  split.
  { unfold find_object. wsimpl. rewrite lookup_update_same.
    change (lookup 0%nat (objects shifted_world)) with (Some shifted_box).
    cbn [option_map]. f_equal. exact Ho'. }
  split; [reflexivity|]. split; [exact Hc|].
  split; [rewrite Hc; intros H; inversion H; lra|].
  wsimpl. change (matrices shifted_world 0%nat) with (mat_id, vzero).
  rewrite (sample_box_center (mat_id, vzero) o' eq_refl eq_refl).
  unfold vadd, vzero. cbn [snd vx vy vz]. f_equal; ring.
Qed.

End CenterProperties.

(** ** Size normalization *)

Section BoundsLemmas.

Import Geometry.
Local Open Scope R_scope.

Lemma Rmin_scale (k a b : R) : 0 <= k -> Rmin (k * a) (k * b) = k * Rmin a b.
Proof.
  intros Hk. unfold Rmin.
  destruct (Rle_dec (k * a) (k * b)), (Rle_dec a b); try reflexivity; nra.
Qed.

Lemma Rmax_scale (k a b : R) : 0 <= k -> Rmax (k * a) (k * b) = k * Rmax a b.
Proof.
  intros Hk. unfold Rmax.
  destruct (Rle_dec (k * a) (k * b)), (Rle_dec a b); try reflexivity; nra.
Qed.

Lemma Rmin_scale_neg (k a b : R) :
  k <= 0 -> Rmin (k * a) (k * b) = k * Rmax a b.
Proof.
  intros Hk. unfold Rmin, Rmax.
  destruct (Rle_dec (k * a) (k * b)), (Rle_dec a b); try reflexivity; nra.
Qed.

Lemma Rmax_scale_neg (k a b : R) :
  k <= 0 -> Rmax (k * a) (k * b) = k * Rmin a b.
Proof.
  intros Hk. unfold Rmin, Rmax.
  destruct (Rle_dec (k * a) (k * b)), (Rle_dec a b); try reflexivity; nra.
Qed.

Lemma min_list_scale (k : R) (l : list R) :
  forall x, 0 <= k ->
            min_list (k * x) (map (Rmult k) l) = k * min_list x l.
Proof.
  induction l as [|y l IH]; intros x Hk; simpl; [reflexivity|].
  rewrite IH by exact Hk. apply Rmin_scale. exact Hk.
Qed.

Lemma max_list_scale (k : R) (l : list R) :
  forall x, 0 <= k ->
            max_list (k * x) (map (Rmult k) l) = k * max_list x l.
Proof.
  induction l as [|y l IH]; intros x Hk; simpl; [reflexivity|].
  rewrite IH by exact Hk. apply Rmax_scale. exact Hk.
Qed.

Lemma min_list_scale_neg (k : R) (l : list R) :
  forall x, k <= 0 ->
            min_list (k * x) (map (Rmult k) l) = k * max_list x l.
Proof.
  induction l as [|y l IH]; intros x Hk; simpl; [reflexivity|].
  rewrite IH by exact Hk. apply Rmin_scale_neg. exact Hk.
Qed.

Lemma max_list_scale_neg (k : R) (l : list R) :
  forall x, k <= 0 ->
            max_list (k * x) (map (Rmult k) l) = k * min_list x l.
Proof.
  induction l as [|y l IH]; intros x Hk; simpl; [reflexivity|].
  rewrite IH by exact Hk. apply Rmax_scale_neg. exact Hk.
Qed.

(** Scaling a list of coordinates by [k] scales its extent by [|k|]. *)
Lemma extent_scale (k : R) (l : list R) :
  upper_bound (map (Rmult k) l) - lower_bound (map (Rmult k) l)
  = Rabs k * (upper_bound l - lower_bound l).
Proof.
  destruct l as [|x l]; simpl; [ring|].
  destruct (Rle_dec 0 k) as [Hk|Hk].
  - rewrite max_list_scale, min_list_scale by exact Hk.
    rewrite Rabs_right by lra. ring.
  - rewrite max_list_scale_neg, min_list_scale_neg by lra.
    rewrite Rabs_left by lra. ring.
Qed.

Lemma min_le_max_list (l : list R) : forall x, min_list x l <= max_list x l.
Proof.
  induction l as [|y l IH]; intros x; simpl; [lra|].
  specialize (IH y).
  pose proof (Rmin_r x (min_list y l)). pose proof (Rmax_r x (max_list y l)).
  lra.
Qed.

Lemma extent_nonneg (l : list R) : 0 <= upper_bound l - lower_bound l.
Proof.
  destruct l as [|x l]; simpl; [lra|].
  pose proof (min_le_max_list l x). lra.
Qed.

Lemma max3_scale (k a b c : R) :
  0 <= k -> max3 (a * k) (b * k) (c * k) = max3 a b c * k.
Proof.
  intros Hk. unfold max3.
  rewrite !(Rmult_comm _ k), !Rmax_scale by exact Hk. reflexivity.
Qed.

End BoundsLemmas.

Lemma sample_mesh_extent : max_extent sample_mesh = 3%R.
Proof.
  unfold max_extent, Host.dimensions, sample_mesh, Geometry.max3.
  cbn [Host.verts_of Host.data Host.scale Geometry.vone Geometry.box_min
       Geometry.box_max map Geometry.lower_bound Geometry.upper_bound
       Geometry.min_list Geometry.max_list
       Geometry.vx Geometry.vy Geometry.vz].
  rewrite Rabs_R1. unfold Rmax, Rmin.
  repeat destruct (Rle_dec _ _); lra.
Qed.

Lemma point_mesh_extent : max_extent point_mesh = 0%R.
Proof.
  unfold max_extent, Host.dimensions, point_mesh, Geometry.max3.
  cbn [Host.verts_of Host.data Host.scale Geometry.vone Geometry.box_min
       Geometry.box_max map Geometry.lower_bound Geometry.upper_bound
       Geometry.min_list Geometry.max_list
       Geometry.vx Geometry.vy Geometry.vz].
  rewrite Rminus_diag, Rmult_0_r. unfold Rmax.
  repeat destruct (Rle_dec _ _); lra.
Qed.

Section NormalizeProperties.

Import Geometry Effects Host RenderScript.
Local Open Scope script_scope.
Local Open Scope list_scope.
Local Open Scope R_scope.

Variable host : backend.

Lemma rescaled_mesh (k : R) (o : object) (vs : list vec3) :
  data o = Mesh vs ->
  rescaled host k o
  = mkObject (name o) (Mesh (map (scaled_by (vscale (scale o) k)) vs))
             (location o) (rotation_euler o) vone (linked o) (selected o).
Proof.
  intros Hd. unfold rescaled, apply_transform.
  cbn [with_scale data name location rotation_euler scale linked selected].
  rewrite Hd. f_equal. f_equal. apply map_ext. intros [x y z].
  unfold scaled_by, vadd, mat_apply, mat_mul, mat_id, mat_diag, vzero, vscale.
  cbn [vx vy vz m00 m01 m02 m10 m11 m12 m20 m21 m22].
  f_equal; ring.
Qed.

Lemma dimensions_rescaled (k : R) (o : object) (vs : list vec3) :
  data o = Mesh vs -> 0 <= k ->
  dimensions (rescaled host k o) = vscale (dimensions o) k.
Proof.
  intros Hd Hk. rewrite (rescaled_mesh k o vs Hd).
  unfold dimensions, verts_of, box_min, box_max, vscale.
  cbn [data scale vx vy vz vone]. rewrite Hd.
  rewrite !map_map. unfold scaled_by, vscale. cbn [vx vy vz].
  rewrite <- !(map_map vx (Rmult (vx (scale o) * k))).
  rewrite <- !(map_map vy (Rmult (vy (scale o) * k))).
  rewrite <- !(map_map vz (Rmult (vz (scale o) * k))).
  rewrite !extent_scale, !Rabs_mult, Rabs_R1, !(Rabs_right k) by lra.
  f_equal; ring.
Qed.

Lemma max_extent_nonneg (o : object) : 0 <= max_extent o.
Proof.
  unfold max_extent, dimensions, max3. cbn [vx vy vz].
  pose proof (Rabs_pos (vx (scale o))).
  pose proof (extent_nonneg (map vx (verts_of o))).
  unfold box_min, box_max. cbn [vx].
  eapply Rle_trans; [|apply Rmax_l]. eapply Rle_trans; [|apply Rmax_l].
  apply Rmult_le_pos; assumption.
Qed.

Lemma max_extent_no_mesh (o : object) :
  is_mesh o = false -> max_extent o = 0.
Proof.
  intros H. unfold max_extent, dimensions, verts_of, is_mesh in *.
  destruct (data o); try discriminate;
    cbn [box_min box_max map lower_bound upper_bound vx vy vz];
    rewrite !Rminus_diag, !Rmult_0_r; unfold max3;
    unfold Rmax; repeat destruct (Rle_dec _ _); lra.
Qed.

Lemma lookup_map (f : object -> object) (i : oid)
      (l : list (option object)) :
  lookup i (map (option_map f) l) = option_map f (lookup i l).
Proof.
  unfold lookup. rewrite nth_error_map.
  destruct (nth_error l i) as [[o|]|]; reflexivity.
Qed.

(** A run of [normalize_model_size] on an object of non-zero extent:
    the scale of the object is multiplied, then the operator applies
    the scale of whatever is selected. *)
Lemma normalize_model_size_runs (obj : oid) (t : R) (w : world)
      (o : object) :
  find_object obj w = Some o ->
  max_extent o <> 0 ->
  let k := t / max_extent o in
  let o' := apply_selected host false false true
                           (with_scale (vscale (scale o) k) o) in
  exists w',
    normalize_model_size host obj t w = (Ok tt, w')
    /\ find_object obj w' = Some o'
    /\ (forall i, i <> obj ->
                  find_object i w'
                  = option_map (apply_selected host false false true)
                               (find_object i w))
    /\ active w' = Some obj
    /\ scene_camera w' = scene_camera w
    /\ disk w' = disk w
    /\ log w' = log w
                ++ [ Print (MsgOriginalDims (dimensions o));
                     TransformApply (Some obj) false false true;
                     Print (MsgNewDims (dimensions o'));
                     Print (MsgScaleFactor k) ].
Proof.
  intros Ho Hm k o'. unfold find_object in *. unfold normalize_model_size.
  rewrite (bind_ok _ _ _ _ _ (get_runs obj w o Ho)).
  erewrite bind_ok by reflexivity.
  fold (max_extent o).
  destruct (Req_dec_T (max_extent o) 0) as [Hz|_]; [contradiction|].
  fold k.
  set (w0 := add_log _ w).
  rewrite (bind_ok _ _ _ _ _ (modify_runs obj _ w0 o Ho)).
  erewrite bind_ok by reflexivity.
  erewrite bind_ok by reflexivity.
  set (w1 := set_matrices _ _).
  assert (H1 : lookup obj (objects w1) = Some o').
  { subst w1 w0. wsimpl. rewrite lookup_map, lookup_update_same, Ho.
    reflexivity. }
  rewrite (bind_ok _ _ _ _ _ (get_runs obj w1 _ H1)).
  erewrite bind_ok by reflexivity.
  eexists. split; [reflexivity|]. unfold find_object. wsimpl.
  split; [exact H1|]. split.
  { intros i Hi. subst w1 w0. wsimpl.
    rewrite lookup_map, lookup_update_other by congruence. reflexivity. }
  repeat split.
  subst w1 w0. wsimpl. rewrite <- !app_assoc. reflexivity.
Qed.

Lemma loose_box_extent : max_extent loose_box = 3.
Proof. exact sample_mesh_extent. Qed.

(** C1, at the input on which the code misses the baking.  The box is in
    the scene but not selected.  [normalize_model_size] with target 6
    multiplies its scale by 2, and the largest extent is then 6; but the
    operator that should bake the scale acts on the selection, which the
    function never sets: the scale stays (2, 2, 2) and the vertices are
    the ones the box had. *)
Theorem normalize_model_size_unselected :
  exists w' o',
    normalize_model_size host 0%nat 6 loose_world = (Ok tt, w')
    /\ find_object 0%nat w' = Some o'
    /\ max_extent o' = 6
    /\ scale o' = mkVec 2 2 2
    /\ scale o' <> vone
    /\ verts_of o' = verts_of loose_box.
Proof.
  destruct (normalize_model_size_runs 0%nat 6 loose_world loose_box eq_refl)
    as (w' & E & Ho & _).
  { rewrite loose_box_extent. lra. }
  exists w'. eexists. split; [exact E|]. split; [exact Ho|].
  rewrite loose_box_extent.
  unfold apply_selected. cbn [linked selected loose_box with_selected
                              with_scale sample_mesh andb].
  assert (Hs : vscale vone (6 / 3) = mkVec 2 2 2).
  { unfold vscale, vone. cbn [vx vy vz]. f_equal; field. }
  change (scale loose_box) with vone. rewrite Hs.
  split.
  { unfold max_extent, dimensions, max3.
    cbn [verts_of data scale box_min box_max map lower_bound upper_bound
         min_list max_list vx vy vz with_scale loose_box with_selected
         sample_mesh].
    rewrite (Rabs_right 2) by lra. unfold Rmax, Rmin.
    repeat destruct (Rle_dec _ _); lra. }
  split; [reflexivity|]. split; [|reflexivity].
  intros H. inversion H. lra.
Qed.

End NormalizeProperties.

(** ** Mesh consolidation *)

Section SlotLemmas.

Import Geometry Effects Host.
Local Open Scope list_scope.

Lemma nth_update (i n : oid) (g : object -> object) l :
  nth_error (update i g l) n
  = if Nat.eqb n i then option_map (option_map g) (nth_error l n)
    else nth_error l n.
Proof.
  revert i n. induction l as [|s l IH]; intros [|i] [|n]; simpl;
    try reflexivity.
  - destruct (Nat.eqb n i); reflexivity.
  - apply IH.
Qed.

Lemma nth_fold_update (g : object -> object) (ids : list oid) :
  NoDup ids ->
  forall l n,
    nth_error (fold_left (fun l i => update i g l) ids l) n
    = if existsb (Nat.eqb n) ids
      then option_map (option_map g) (nth_error l n)
      else nth_error l n.
Proof.
  induction ids as [|i ids IH]; intros Hnd l n; simpl; [reflexivity|].
  inversion Hnd as [|? ? Hni Hnd']; subst.
  rewrite IH by exact Hnd'. rewrite nth_update.
  destruct (Nat.eqb_spec n i) as [->|Hne]; simpl; [|reflexivity].
  destruct (existsb (Nat.eqb i) ids) eqn:He; [|reflexivity].
  exfalso. apply Hni. apply existsb_exists in He.
  destruct He as (x & Hx & Hix). apply Nat.eqb_eq in Hix. subst. exact Hx.
Qed.

Lemma lookup_remove_same (i : oid) l : lookup i (remove i l) = None.
Proof.
  unfold lookup. revert i. induction l as [|s l IH]; intros [|i]; simpl;
    try reflexivity.
  apply IH.
Qed.

Lemma lookup_remove_other (i j : oid) l :
  i <> j -> lookup j (remove i l) = lookup j l.
Proof.
  unfold lookup. revert i j.
  induction l as [|s l IH]; intros [|i] [|j] H; simpl; try reflexivity;
    try congruence.
  apply IH. congruence.
Qed.

Lemma lookup_remove_all_other (ids : list oid) (j : oid) :
  ~ In j ids -> forall l, lookup j (remove_all ids l) = lookup j l.
Proof.
  unfold remove_all. induction ids as [|i ids IH]; intros H l; simpl;
    [reflexivity|].
  rewrite IH by (intros Hin; apply H; right; exact Hin).
  apply lookup_remove_other. intros ->. apply H. left. reflexivity.
Qed.

Lemma lookup_remove_all_in (ids : list oid) (j : oid) :
  In j ids -> forall l, lookup j (remove_all ids l) = None.
Proof.
  unfold remove_all. induction ids as [|i ids IH]; intros H l; simpl;
    [contradiction|].
  destruct (in_dec Nat.eq_dec j ids) as [Hin|Hout].
  - apply IH. exact Hin.
  - destruct H as [->|H]; [|contradiction].
    fold (remove_all ids (remove j l)).
    rewrite lookup_remove_all_other by exact Hout.
    apply lookup_remove_same.
Qed.

Lemma in_present_from (n i : oid) (o : object) l :
  In (i, o) (present_from n l)
  <-> (n <= i)%nat /\ nth_error l (i - n) = Some (Some o).
Proof.
  revert n. induction l as [|s l IH]; intros n.
  - simpl. split; [contradiction|]. intros [_ H].
    destruct (i - n)%nat; discriminate.
  - assert (Hrec : In (i, o) (present_from (S n) l)
                   <-> (n < i)%nat /\ nth_error l (i - S n) = Some (Some o))
      by (rewrite IH; split; intros [? ?]; split; auto; lia).
    destruct s as [o'|]; simpl; rewrite Hrec; split.
    + intros [H|[Hlt H]].
      * inversion H; subst. rewrite Nat.sub_diag. split; [lia|reflexivity].
      * split; [lia|]. replace (i - n)%nat with (S (i - S n)) by lia.
        exact H.
    + intros [Hle H]. destruct (Nat.eq_dec n i) as [->|Hne].
      * left. rewrite Nat.sub_diag in H. simpl in H. congruence.
      * right. split; [lia|].
        replace (i - n)%nat with (S (i - S n)) in H by lia. exact H.
    + intros [Hlt H]. split; [lia|].
      replace (i - n)%nat with (S (i - S n)) by lia. exact H.
    + intros [Hle H]. destruct (Nat.eq_dec n i) as [->|Hne].
      * rewrite Nat.sub_diag in H. discriminate.
      * split; [lia|].
        replace (i - n)%nat with (S (i - S n)) in H by lia. exact H.
Qed.

Lemma in_present (i : oid) (o : object) l :
  In (i, o) (present l) <-> lookup i l = Some o.
Proof.
  unfold present. rewrite in_present_from, Nat.sub_0_r. unfold lookup.
  split.
  - intros [_ H]. rewrite H. reflexivity.
  - intros H. split; [lia|].
    destruct (nth_error l i) as [[o'|]|]; congruence.
Qed.

Lemma present_from_nodup (l : list (option object)) :
  forall n, NoDup (map fst (present_from n l)).
Proof.
  induction l as [|s l IH]; intros n; simpl; [constructor|].
  destruct s as [o|]; [|apply IH].
  simpl. constructor; [|apply IH].
  intros Hin. apply in_map_iff in Hin. destruct Hin as ([j o'] & Hj & Hin).
  simpl in Hj. subst j. apply in_present_from in Hin. lia.
Qed.

Lemma present_from_map (g : object -> object) (l : list (option object)) :
  forall n,
    present_from n (map (option_map g) l)
    = map (fun p => (fst p, g (snd p))) (present_from n l).
Proof.
  induction l as [|s l IH]; intros n; simpl; [reflexivity|].
  destruct s as [o|]; simpl; rewrite IH; reflexivity.
Qed.

Lemma filter_map_swap {A B : Type} (f : A -> B) (p : B -> bool)
      (l : list A) :
  filter p (map f l) = map f (filter (fun x => p (f x)) l).
Proof.
  induction l as [|x l IH]; simpl; [reflexivity|].
  rewrite IH. destruct (p (f x)); reflexivity.
Qed.

Lemma filter_filter {A : Type} (p q : A -> bool) (l : list A) :
  filter p (filter q l) = filter (fun x => p x && q x)%bool l.
Proof.
  induction l as [|x l IH]; simpl; [reflexivity|].
  destruct (q x); simpl; rewrite ?IH; destruct (p x); reflexivity.
Qed.

Lemma filter_head_out (a : oid * object) (l : list (oid * object)) :
  NoDup (map fst (a :: l)) ->
  filter (fun p => negb (Nat.eqb (fst p) (fst a))) (a :: l) = l.
Proof.
  intros Hnd. inversion Hnd as [|? ? Hni _]; subst.
  simpl. rewrite Nat.eqb_refl. simpl.
  clear Hnd. induction l as [|b l IH]; simpl; [reflexivity|].
  match goal with
  | |- context [Nat.eqb ?x ?y] => destruct (Nat.eqb_spec x y) as [E|_]
  end; simpl.
  - exfalso. apply Hni. left. exact E.
  - rewrite IH; [reflexivity|]. intros Hin. apply Hni. right. exact Hin.
Qed.

(** Filtering keeps the references of a list of objects distinct. *)
Lemma distinct_ids_filter (keep : oid * object -> bool)
      (l : list (oid * object)) :
  NoDup (map fst l) -> NoDup (map fst (filter keep l)).
Proof.
  induction l as [|x l IH]; intros Hd; [constructor|].
  apply NoDup_cons_iff in Hd. destruct Hd as [Hx Hd].
  cbn [filter]. destruct (keep x); [|exact (IH Hd)].
  cbn [map]. apply NoDup_cons; [|exact (IH Hd)].
  intros Hin. apply Hx. apply in_map_iff in Hin.
  destruct Hin as (y & Ey & Hin). apply filter_In in Hin.
  apply in_map_iff. exists y. tauto.
Qed.

End SlotLemmas.

Section CombineProperties.

Import Geometry Effects Host RenderScript.
Local Open Scope script_scope.
Local Open Scope list_scope.

Variable host : backend.

Lemma type_is_mesh (o : object) :
  String.eqb (type_of o) "MESH" = is_mesh o.
Proof. unfold type_of, is_mesh. destruct (data o); reflexivity. Qed.

Lemma in_meshes (i : oid) (o : object) (w : world) :
  In (i, o) (meshes w)
  <-> lookup i (objects w) = Some o /\ linked o = true /\ is_mesh o = true.
Proof.
  unfold meshes, scene_objects. rewrite !filter_In, in_present. simpl.
  rewrite type_is_mesh. tauto.
Qed.

Lemma meshes_distinct (w : world) : NoDup (map fst (meshes w)).
Proof.
  unfold meshes, scene_objects, present.
  do 2 apply distinct_ids_filter. apply present_from_nodup.
Qed.

(** What the operator keeps of an object. *)
Lemma apply_transform_keeps (l r s : bool) (o : object) :
  linked (apply_transform host l r s o) = linked o
  /\ selected (apply_transform host l r s o) = selected o
  /\ is_mesh (apply_transform host l r s o) = is_mesh o
  /\ name (apply_transform host l r s o) = name o.
Proof.
  unfold apply_transform, is_mesh. destruct (data o) eqn:Hd; cbn;
    rewrite ?Hd; auto.
Qed.

Lemma apply_selected_keeps (l r s : bool) (o : object) :
  linked (apply_selected host l r s o) = linked o
  /\ selected (apply_selected host l r s o) = selected o
  /\ is_mesh (apply_selected host l r s o) = is_mesh o
  /\ name (apply_selected host l r s o) = name o.
Proof.
  unfold apply_selected. destruct (linked o && selected o)%bool;
    [apply apply_transform_keeps|auto].
Qed.

Lemma passes_keep (n : nat) (o : object) :
  linked (Nat.iter n (apply_selected host true true true) o) = linked o
  /\ selected (Nat.iter n (apply_selected host true true true) o)
     = selected o
  /\ is_mesh (Nat.iter n (apply_selected host true true true) o)
     = is_mesh o
  /\ name (Nat.iter n (apply_selected host true true true) o) = name o.
Proof.
  induction n as [|n IH]; [cbn; auto|].
  rewrite Nat.iter_succ.
  destruct IH as (Hl & Hs & Hm & Hn).
  destruct (apply_selected_keeps true true true
              (Nat.iter n (apply_selected host true true true) o))
    as (Hl' & Hs' & Hm' & Hn').
  rewrite Hl', Hs', Hm', Hn'. auto.
Qed.

(** An object that is not selected is not touched by the passes. *)
Lemma passes_unselected (n : nat) (o : object) :
  (linked o && selected o)%bool = false ->
  Nat.iter n (apply_selected host true true true) o = o.
Proof.
  intros H. induction n as [|n IH]; [reflexivity|].
  rewrite Nat.iter_succ, IH. unfold apply_selected. rewrite H.
  reflexivity.
Qed.

(** The first loop: every pass makes the next object active and runs the
    operator, which applies the transform of whatever is selected. *)
Lemma bake_loop_runs (ids : list oid) :
  forall w, exists w1,
    for_each ids (fun obj =>
      change (set_active (Some obj)) ;;
      transform_apply host true true true) w = (Ok tt, w1)
    /\ objects w1
       = map (option_map (Nat.iter (List.length ids)
                                   (apply_selected host true true true)))
             (objects w)
    /\ log w1 = log w
                ++ map (fun i => TransformApply (Some i) true true true) ids
    /\ disk w1 = disk w.
Proof.
  induction ids as [|i ids IH]; intros w.
  - exists w. cbn [for_each List.length Nat.iter map].
    rewrite app_nil_r. split; [reflexivity|]. split; [|auto].
    rewrite <- (map_id (objects w)) at 1. apply map_ext.
    intros [o|]; reflexivity.
  - cbn [for_each].
    erewrite bind_ok by reflexivity.
    set (w0 := set_matrices _ _).
    destruct (IH w0) as (w1 & E & Ho & Hl & Hd).
    exists w1. split; [exact E|].
    split; [|split; [|exact Hd]].
    + rewrite Ho. subst w0. wsimpl. rewrite map_map. apply map_ext.
      intros [o|]; [|reflexivity]. cbn [option_map List.length].
      rewrite Nat.iter_succ_r. reflexivity.
    + rewrite Hl. subst w0. wsimpl. rewrite <- app_assoc. reflexivity.
Qed.

(** The second loop: every listed object is selected. *)
Lemma select_loop_runs (ids : list oid) :
  forall w,
    (forall i, In i ids -> exists o, lookup i (objects w) = Some o) ->
    for_each ids (fun obj => modify obj (with_selected true)) w
    = (Ok tt,
       set_objects (fold_left (fun l i => update i (with_selected true) l)
                              ids (objects w)) w).
Proof.
  induction ids as [|i ids IH]; intros w Hp.
  - destruct w; reflexivity.
  - destruct (Hp i) as [o Ho]; [left; reflexivity|].
    cbn [for_each].
    rewrite (bind_ok _ _ _ _ _ (modify_runs i _ w o Ho)).
    rewrite IH.
    + reflexivity.
    + intros j Hj. destruct (Hp j) as [oj Hoj]; [right; exact Hj|].
      wsimpl. eapply lookup_update_present. exact Hoj.
Qed.

(** After both loops every slot holds the prepared object. *)
Lemma prepared_slots (n : nat) (w : world) :
  fold_left (fun l i => update i (with_selected true) l)
            (map fst (meshes w))
            (map (option_map (Nat.iter n (apply_selected host true true
                                                         true)))
                 (objects w))
  = map (option_map (prepared host n)) (objects w).
Proof.
  apply nth_error_ext. intros i.
  rewrite nth_fold_update by apply meshes_distinct.
  rewrite !nth_error_map.
  destruct (nth_error (objects w) i) as [[o|]|] eqn:En; simpl;
    try (destruct (existsb _ _); reflexivity).
  assert (Hlook : lookup i (objects w) = Some o)
    by (unfold lookup; rewrite En; reflexivity).
  unfold prepared.
  destruct (existsb (Nat.eqb i) (map fst (meshes w))) eqn:He.
  - apply existsb_exists in He. destruct He as (j & Hj & Hij).
    apply Nat.eqb_eq in Hij. subst j.
    apply in_map_iff in Hj. destruct Hj as ([j o'] & Hj & Hin).
    simpl in Hj. subst j. apply in_meshes in Hin.
    destruct Hin as (Hl & Hlk & Hm).
    assert (o' = o) by congruence. subst o'.
    rewrite Hlk, Hm. reflexivity.
  - destruct (linked o && is_mesh o)%bool eqn:Hb; [|reflexivity].
    apply andb_prop in Hb. destruct Hb as [Hlk Hm].
    exfalso. assert (Hin : In (i, o) (meshes w))
      by (apply in_meshes; auto).
    assert (Hex : existsb (Nat.eqb i) (map fst (meshes w)) = true).
    { apply existsb_exists. exists i. split; [|apply Nat.eqb_refl].
      apply in_map_iff. exists (i, o). auto. }
    congruence.
Qed.

Lemma prepared_keeps (n : nat) (o : object) :
  linked (prepared host n o) = linked o
  /\ is_mesh (prepared host n o) = is_mesh o
  /\ name (prepared host n o) = name o
  /\ selected (prepared host n o)
     = ((linked o && is_mesh o) || selected o)%bool.
Proof.
  destruct (passes_keep n o) as (Hl & Hs & Hm & Hn).
  unfold prepared. destruct (linked o && is_mesh o)%bool eqn:Hb;
    cbn [with_selected linked selected name is_mesh data orb];
    rewrite ?Hl, ?Hs, ?Hn; auto.
Qed.

Lemma prepared_joinable (n : nat) (o : object) :
  linked o = true ->
  (selected (prepared host n o) && is_mesh (prepared host n o))%bool
  = is_mesh o.
Proof.
  intros Hl. destruct (prepared_keeps n o) as (_ & Hm & _ & Hs).
  rewrite Hs, Hm, Hl. destruct (is_mesh o); cbn [andb orb];
    [reflexivity|apply andb_false_r].
Qed.

(** The scene once every slot holds the prepared object. *)
Lemma scene_prepared (n : nat) (w w2 : world) :
  objects w2 = map (option_map (prepared host n)) (objects w) ->
  scene_objects w2
  = map (fun p => (fst p, prepared host n (snd p))) (scene_objects w).
Proof.
  intros H. unfold scene_objects, present. rewrite H, present_from_map.
  rewrite filter_map_swap. apply f_equal. apply filter_ext.
  intros [i o]. apply prepared_keeps.
Qed.

Lemma sources_prepared (n : nat) (w w2 : world) (first : oid)
      (o1 : object) (others : list (oid * object)) :
  objects w2 = map (option_map (prepared host n)) (objects w) ->
  meshes w = (first, o1) :: others ->
  join_sources first w2
  = map (fun p => (fst p, prepared host n (snd p))) others.
Proof.
  intros H Hm. unfold join_sources.
  rewrite (scene_prepared n w w2 H), filter_map_swap. apply f_equal.
  cbn [fst snd].
  transitivity (filter (fun p => negb (Nat.eqb (fst p) first)) (meshes w)).
  - unfold meshes. rewrite filter_filter. apply filter_ext_in.
    intros [i o] Hin. cbn [fst snd].
    unfold scene_objects in Hin. apply filter_In in Hin.
    destruct Hin as [_ Hl]. cbn [snd] in Hl.
    rewrite <- andb_assoc, (prepared_joinable n o Hl), type_is_mesh.
    reflexivity.
  - pose proof (meshes_distinct w) as Hnd. rewrite Hm in *.
    apply (filter_head_out (first, o1) others Hnd).
Qed.

Lemma join_runs (w : world) (first : oid) (t : object) :
  active w = Some first ->
  lookup first (objects w) = Some t ->
  is_mesh t = true -> linked t = true -> selected t = true ->
  exists w',
    join host w = (Ok tt, w')
    /\ objects w'
       = update first
           (fun t => join_into host t (map snd (join_sources first w)))
           (remove_all (map fst (join_sources first w)) (objects w))
    /\ active w' = Some first
    /\ log w' = log w ++ [Join (Some first)]
    /\ disk w' = disk w.
Proof.
  intros Ha Ht Hm Hl Hs. unfold join.
  erewrite bind_ok by reflexivity. rewrite Ha.
  erewrite bind_ok by reflexivity.
  erewrite bind_ok.
  2:{ erewrite bind_ok by reflexivity.
      unfold find_object. wsimpl. rewrite Ht, Hm, Hl, Hs. reflexivity. }
  eexists. split; [reflexivity|]. wsimpl. rewrite Ha. auto.
Qed.

Lemma combine_objects_none (w : world) :
  meshes w = [] ->
  combine_objects host w = (Ok None, add_log (Print MsgNoMesh) w).
Proof.
  intros Hm. unfold combine_objects.
  erewrite bind_ok by reflexivity. fold (meshes w). rewrite Hm. reflexivity.
Qed.

(** A run of [combine_objects] on a scene with a mesh, whatever is
    selected: the first loop has one pass for each mesh. *)
Lemma combine_objects_runs (w : world) (first : oid) (o1 : object)
      (others : list (oid * object)) :
  meshes w = (first, o1) :: others ->
  let n := S (List.length others) in
  exists w',
    combine_objects host w = (Ok (Some first), w')
    /\ find_object first w'
       = Some (with_name "Combined_Object"
                 (join_into host (prepared host n o1)
                            (map (fun p => prepared host n (snd p)) others)))
    /\ (forall p, In p others -> find_object (fst p) w' = None)
    /\ (forall i, ~ In i (map fst (meshes w)) ->
                  find_object i w'
                  = option_map (prepared host n) (find_object i w))
    /\ log w' = log w
                ++ map (fun p => TransformApply (Some (fst p)) true true true)
                       (meshes w)
                ++ [Join (Some first)]
    /\ disk w' = disk w
    /\ active w' = Some first.
Proof.
  intros Hm n.
  assert (Hin1 : In (first, o1) (meshes w)) by (rewrite Hm; left; reflexivity).
  apply in_meshes in Hin1. destruct Hin1 as (Ho1 & Hl1 & Hm1).
  pose proof (meshes_distinct w) as Hnd.
  unfold combine_objects.
  erewrite bind_ok by reflexivity. fold (meshes w).
  pose proof (prepared_slots n w) as Hprep.
  remember (map fst (meshes w)) as ids eqn:Eids.
  destruct ids as [|f ids']; [rewrite Hm in Eids; discriminate|].
  assert (Hf : f = first /\ ids' = map fst others)
    by (rewrite Hm in Eids; inversion Eids; auto).
  destruct Hf as [-> Hrest]. cbv iota.
  set (ids := first :: ids') in *.
  assert (Hids : ids = first :: map fst others)
    by (subst ids; rewrite Hrest; reflexivity).
  assert (Hlen : List.length ids = n)
    by (rewrite Hids; cbn [List.length]; rewrite length_map; reflexivity).
  destruct (bake_loop_runs ids w) as (w1 & E1 & Hobj1 & Hlog1 & Hdisk1).
  rewrite Hlen in Hobj1.
  rewrite (bind_ok _ _ _ _ _ E1).
  assert (Hpres : forall i, In i ids ->
                    exists o, lookup i (objects w1) = Some o).
  { intros i Hi. rewrite Eids in Hi. apply in_map_iff in Hi.
    destruct Hi as ([j o] & Hj & Hin). cbn [fst] in Hj. subst j.
    apply in_meshes in Hin. destruct Hin as (Hlk & _).
    rewrite Hobj1. unfold lookup in *. rewrite nth_error_map.
    destruct (nth_error (objects w) i) as [[x|]|]; try discriminate.
    cbn [option_map]. eauto. }
  rewrite (bind_ok _ _ _ _ _ (select_loop_runs ids w1 Hpres)).
  rewrite Hobj1, Hprep.
  erewrite bind_ok by reflexivity.
  set (w3 := set_active (Some first) _).
  assert (Hobj3 : objects w3 = map (option_map (prepared host n)) (objects w))
    by reflexivity.
  assert (Ht : lookup first (objects w3) = Some (prepared host n o1)).
  { rewrite Hobj3. unfold lookup in *. rewrite nth_error_map.
    destruct (nth_error (objects w) first) as [[o|]|]; try discriminate.
    inversion Ho1; subst. reflexivity. }
  destruct (prepared_keeps n o1) as (Hpl & Hpm & _ & Hps).
  rewrite Hl1, Hm1 in Hps. cbn [andb orb] in Hps.
  destruct (join_runs w3 first (prepared host n o1) eq_refl Ht
              ltac:(rewrite Hpm; exact Hm1)
              ltac:(rewrite Hpl; exact Hl1) Hps)
    as (w4 & E4 & Hobj4 & Hact4 & Hlog4 & Hdisk4).
  rewrite (bind_ok _ _ _ _ _ E4).
  rewrite (sources_prepared n w w3 first o1 others Hobj3 Hm) in Hobj4.
  set (src := map (fun p => (fst p, prepared host n (snd p))) others) in *.
  assert (Hsrc : map fst src = map fst others).
  { subst src. rewrite map_map. reflexivity. }
  assert (Hmsrc : map snd src
                  = map (fun p => prepared host n (snd p)) others).
  { subst src. rewrite map_map. reflexivity. }
  assert (Hfirst : ~ In first (map fst others)).
  { rewrite Hids in Hnd. apply NoDup_cons_iff in Hnd. tauto. }
  erewrite bind_ok by reflexivity. rewrite Hact4.
  assert (H4 : lookup first (objects w4)
               = Some (join_into host (prepared host n o1) (map snd src))).
  { rewrite Hobj4, lookup_update_same.
    rewrite lookup_remove_all_other by (rewrite Hsrc; exact Hfirst).
    rewrite Ht. reflexivity. }
  rewrite (bind_ok _ _ _ _ _ (modify_runs first _ w4 _ H4)).
  eexists. split; [reflexivity|]. unfold find_object. wsimpl.
  split.
  { rewrite lookup_update_same, H4. cbn [option_map].
    rewrite Hmsrc. reflexivity. }
  split.
  { intros p Hp.
    assert (Hne : first <> fst p).
    { intros Heq. apply Hfirst. rewrite Heq. apply in_map. exact Hp. }
    rewrite lookup_update_other by exact Hne.
    rewrite Hobj4, lookup_update_other by exact Hne.
    apply lookup_remove_all_in. rewrite Hsrc. apply in_map. exact Hp. }
  split.
  { intros i Hi. rewrite Hids in Hi.
    assert (Hne : first <> i) by (intros ->; apply Hi; left; reflexivity).
    rewrite lookup_update_other by exact Hne.
    rewrite Hobj4, lookup_update_other by exact Hne.
    rewrite lookup_remove_all_other
      by (rewrite Hsrc; intros Hin; apply Hi; right; exact Hin).
    rewrite Hobj3. unfold lookup. rewrite nth_error_map.
    destruct (nth_error (objects w) i) as [[o|]|]; reflexivity. }
  split; [|split; [rewrite Hdisk4; subst w3; wsimpl; exact Hdisk1
                  |exact Hact4]].
  rewrite Hlog4. subst w3. wsimpl. rewrite Hlog1, Eids, map_map.
  rewrite <- app_assoc. reflexivity.
Qed.


(** C7, at the input on which the code misses the baking.  The scene
    holds two meshes that are not selected, as a scene file may store
    them; the first is at (1, 0, 0) with scale (2, 2, 2).  The first loop
    of [combine_objects] makes each mesh active and runs the operator,
    which acts on the selection and finds it empty; the meshes are
    selected only afterwards, for the join.  The merged object is
    returned and named Combined_Object, and the other mesh is gone, but
    no transform was baked: the object is still at (1, 0, 0) with scale
    (2, 2, 2), and its first vertices are the ones the first mesh had in
    its own space. *)
Theorem combine_objects_unselected :
  exists w' o' more,
    combine_objects host stored_world = (Ok (Some 0%nat), w')
    /\ find_object 0%nat w' = Some o'
    /\ find_object 1%nat w' = None
    /\ name o' = "Combined_Object"%string
    /\ location o' = mkVec 1 0 0
    /\ scale o' = mkVec 2 2 2
    /\ verts_of o' = (verts_of stored_box ++ more)%list
    /\ location o' <> vzero.
Proof.
  destruct (combine_objects_runs stored_world 0%nat stored_box
              [(1%nat, stored_lid)] eq_refl)
    as (w' & E & Ho & Hgone & _).
  exists w'. eexists. eexists.
  split; [exact E|]. split; [exact Ho|].
  split; [apply (Hgone (1%nat, stored_lid)); left; reflexivity|].
  split; [reflexivity|]. split; [reflexivity|]. split; [reflexivity|].
  split; [reflexivity|].
  cbn. unfold vzero. intros H. inversion H. lra.
Qed.

End CombineProperties.

(** * Further properties *)

(** ** example.py: failures and what the script depends on *)

Section ExampleOutcomeProperties.

Import Effects Example.
Local Open Scope script_scope.

Lemma subscript_head (o : outputs) (key : string) :
  subscript o key 0
  = match head_view key o with
    | None => raise (KeyError key)
    | Some None => calls (Subscript key 0) ;; raise IndexError
    | Some (Some a) => calls (Subscript key 0) ;; ret a
    end.
Proof.
  unfold subscript, head_view.
  destruct (dict_get key o) as [[|a l]|]; reflexivity.
Qed.

(** X1. The script stops at the first representation that has no first
    element, with KeyError when the key is missing and IndexError when
    the list is empty, and leaves behind the files written so far: none
    when the gaussians are missing, the gaussian video when the radiance
    fields are, the two videos when the meshes are.  The mesh video, the
    GLB and the PLY are written only when all three are there, and the
    run then ends normally. *)
Theorem example_script_partial_outputs (run : string -> Z -> outputs) :
  let o := run example_image 1%Z in
  let r := script run [] in
  match first_of "gaussian" o with
  | None =>
      fst r = Raise (subscript_error "gaussian" o)
      /\ files_written (snd r) = []
  | Some _ =>
      match first_of "radiance_field" o with
      | None =>
          fst r = Raise (subscript_error "radiance_field" o)
          /\ files_written (snd r) = ["car_gs.mp4"]
      | Some _ =>
          match first_of "mesh" o with
          | None =>
              fst r = Raise (subscript_error "mesh" o)
              /\ files_written (snd r) = ["car_gs.mp4"; "car_rf.mp4"]
          | Some _ =>
              fst r = Ok tt
              /\ files_written (snd r)
                 = ["car_gs.mp4"; "car_rf.mp4"; "car_mesh.mp4"; "car.glb";
                    "car.ply"]
          end
      end
  end.
Proof.
  intros o r. subst o r. unfold first_of, head_view, subscript_error.
  unfold example_image.
  destruct (dict_get "gaussian" (run "assets/example_image/car.png" 1%Z))
    as [[|g gs]|] eqn:Hg;
    destruct (dict_get "radiance_field"
                (run "assets/example_image/car.png" 1%Z))
      as [[|r rs]|] eqn:Hr;
    destruct (dict_get "mesh" (run "assets/example_image/car.png" 1%Z))
      as [[|m ms]|] eqn:Hm;
    unfold script, subscript, render_video, to_glb, calls, bind, change,
      ret, raise;
    rewrite ?Hg, ?Hr, ?Hm; cbn; split; reflexivity.
Qed.

(** X2. The run depends on the bundle only through the presence of the
    three keys and the first element of each list: two bundles that agree
    on these give the same outcome and the same calls, whatever else the
    lists hold. *)
Theorem example_script_reads_heads_only (run1 run2 : string -> Z -> outputs) :
  (forall key, In key ["gaussian"; "radiance_field"; "mesh"] ->
               head_view key (run1 example_image 1%Z)
               = head_view key (run2 example_image 1%Z)) ->
  script run1 [] = script run2 [].
Proof.
  intros H.
  assert (Hg := H "gaussian" ltac:(simpl; tauto)).
  assert (Hr := H "radiance_field" ltac:(simpl; tauto)).
  assert (Hm := H "mesh" ltac:(simpl; tauto)).
  unfold example_image in *.
  unfold script. rewrite !subscript_head, Hg, Hr, Hm. reflexivity.
Qed.

End ExampleOutcomeProperties.

(** Two bundles with the same first elements and different tails. *)
Lemma example_script_reads_heads_only_witness :
  Example.script sample_run []
  = Example.script
      (fun _ _ => [ ("mesh", [9; 1; 2]%nat); ("gaussian", [7; 3]%nat);
                    ("radiance_field", [8%nat]); ("extra", []) ])
      [].
Proof.
  apply example_script_reads_heads_only.
  intros key Hk. simpl in Hk.
  destruct Hk as [<-|[<-|[<-|[]]]]; reflexivity.
Defined.

(** ** Model-path resolution: every argument list *)

Section PathOutcomeProperties.

Import Geometry Effects Host RenderScript.
Local Open Scope script_scope.
Local Open Scope list_scope.

Variable host : backend.

Lemma list_index_found (x : string) (l : list string) :
  forall i, list_index x l = Some i ->
            exists pre post,
              l = pre ++ x :: post /\ ~ In x pre
              /\ i = Z.of_nat (List.length pre).
Proof.
  induction l as [|y l IH]; intros i H; [discriminate|].
  simpl in H. destruct (String.eqb_spec y x) as [->|Hyx].
  - inversion H; subst. exists [], l. simpl. auto.
  - destruct (list_index x l) as [j|]; [|discriminate].
    destruct (IH j eq_refl) as (pre & post & -> & Hpre & ->).
    inversion H; subst. exists (y :: pre), post.
    split; [reflexivity|]. split.
    + simpl. intros [E|E]; [congruence|contradiction].
    + simpl List.length. lia.
Qed.

Lemma after_separator (pre post : list string) (f : string) :
  (Z.of_nat (List.length pre)
   <? Z.of_nat (List.length (pre ++ "--"%string :: f :: post)) - 1)%Z = true
  /\ nth_error (pre ++ "--"%string :: f :: post)
               (Z.to_nat (Z.of_nat (List.length pre) + 1)) = Some f.
Proof.
  split.
  - apply Z.ltb_lt. rewrite length_app. simpl. lia.
  - replace (Z.to_nat (Z.of_nat (List.length pre) + 1))
      with (List.length pre + 1)%nat by lia.
    rewrite nth_error_app2 by lia.
    replace (List.length pre + 1 - List.length pre)%nat with 1%nat by lia.
    reflexivity.
Qed.

Lemma get_model_path_named (script_dir : string) (w : world)
      (pre : list string) (f : string) (post : list string) :
  ~ In "--"%string pre ->
  snd (Py.splitext f) <> ""%string ->
  get_model_path_from_args script_dir (pre ++ "--"%string :: f :: post) w
  = (Ok (Py.join (Py.join script_dir "model") f,
         fst (Py.splitext
                (Py.basename (Py.join (Py.join script_dir "model") f)))),
     w).
Proof.
  intros Hpre Hext.
  unfold get_model_path_from_args, try_pass.
  rewrite (list_index_first _ _ _ Hpre).
  destruct (after_separator pre post f) as [Hlt Hnth].
  rewrite Hlt, Hnth.
  destruct (String.eqb_spec (snd (Py.splitext f)) "") as [E|_];
    [contradiction|].
  reflexivity.
Qed.

Lemma get_model_path_fallback (script_dir : string) (w : world)
      (argv : list string) :
  (~ In "--"%string argv
   \/ exists pre, ~ In "--"%string pre /\ argv = pre ++ ["--"%string]) ->
  get_model_path_from_args script_dir argv w
  = (Ok (Py.join (Py.join script_dir "model") "car.blend", "car"%string), w).
Proof.
  intros [Habs|[pre [Hpre ->]]];
    unfold get_model_path_from_args, try_pass.
  - rewrite (list_index_absent _ _ Habs). reflexivity.
  - rewrite (list_index_first _ _ _ Hpre).
    assert (Hlt : (Z.of_nat (List.length pre)
                   <? Z.of_nat (List.length (pre ++ ["--"%string])) - 1)%Z
                  = false).
    { apply Z.ltb_ge. rewrite length_app. simpl. lia. }
    rewrite Hlt. reflexivity.
Qed.

(** X3. A file name given with an extension is not looked up: the
    function returns the path under the model directory and the name
    without its extension, prints nothing and never raises, whether or
    not such a file exists. *)
Theorem get_model_path_named_file_unchecked (script_dir : string)
        (w : world) (pre : list string) (f : string) (post : list string) :
  ~ In "--"%string pre ->
  snd (Py.splitext f) <> ""%string ->
  let p := Py.join (Py.join script_dir "model") f in
  get_model_path_from_args script_dir (pre ++ "--"%string :: f :: post) w
  = (Ok (p, fst (Py.splitext (Py.basename p))), w)
  /\ (on_disk p w = false ->
      load_3Dmodel host p w = (Raise (FileNotFoundError p), w)).
Proof.
  intros Hpre Hext p. split.
  - apply get_model_path_named; assumption.
  - intros Hd. pose proof (load_3Dmodel_cases host p w) as H.
    cbv zeta in H.
    unfold on_disk in Hd.
    destruct (lookup_path p (disk w)); [discriminate|exact H].
Qed.

(** X4. Whatever the arguments, the function either returns or raises
    FileNotFound: the ValueError of a missing "--" and any IndexError are
    caught inside.  It never touches the scene or the disk, and the only
    thing it may add to the console is the notice about several
    candidates. *)
Theorem get_model_path_from_args_frame (script_dir : string)
        (argv : list string) (w : world) :
  let r := get_model_path_from_args script_dir argv w in
  ((exists p, fst r = Ok p) \/ (exists f, fst r = Raise (FileNotFoundError f)))
  /\ objects (snd r) = objects w
  /\ disk (snd r) = disk w
  /\ active (snd r) = active w
  /\ scene_camera (snd r) = scene_camera w
  /\ (log (snd r) = log w
      \/ exists files p,
           log (snd r)
           = log w ++ [Print (MsgMultipleFiles files); Print (MsgUsing p)]).
Proof.
  intros r. subst r.
  destruct (list_index "--" argv) as [i|] eqn:Hi.
  - destruct (list_index_found _ _ _ Hi) as (pre & post & -> & Hpre & _).
    destruct post as [|f post].
    + rewrite get_model_path_fallback by (right; eauto).
      cbn [fst snd]. eauto 10.
    + destruct (String.eqb_spec (snd (Py.splitext f)) "") as [E|E].
      * rewrite (get_model_path_searches script_dir w pre f post Hpre E).
        unfold resolution.
        destruct (matches script_dir f w) as [|p [|q more]];
          cbn [fst snd]; wsimpl.
        -- eauto 10.
        -- eauto 10.
        -- repeat split; eauto. right. exists (p :: q :: more), p.
           rewrite <- app_assoc. reflexivity.
      * rewrite (get_model_path_named script_dir w pre f post Hpre E).
        cbn [fst snd]. eauto 10.
  - rewrite get_model_path_fallback.
    + cbn [fst snd]. eauto 10.
    + left. intros Hin. clear - Hi Hin.
      induction argv as [|y l IH]; [contradiction|].
      simpl in Hi. destruct (String.eqb_spec y "--") as [->|Hy];
        [discriminate|].
      destruct (list_index "--" l); [discriminate|].
      destruct Hin as [E|Hin]; [congruence|]. apply IH; auto.
Qed.

End PathOutcomeProperties.

Lemma get_model_path_named_file_unchecked_witness :
  RenderScript.get_model_path_from_args "/s"
    ["render_script.py"; "--"; "ghost.fbx"; "ignored"] sample_world
  = (Effects.Ok ("/s/model/ghost.fbx", "ghost"), sample_world)
  /\ RenderScript.load_3Dmodel plain_host "/s/model/ghost.fbx" sample_world
     = (Effects.Raise (Effects.FileNotFoundError "/s/model/ghost.fbx"),
        sample_world).
Proof.
  assert (H : ~ In "--" ["render_script.py"]).
  { simpl. intros [H|H]; [discriminate|exact H]. }
  destruct (get_model_path_named_file_unchecked plain_host "/s" sample_world
              ["render_script.py"] "ghost.fbx" ["ignored"] H)
    as [E L].
  - discriminate.
  - split; [exact E|]. apply L. reflexivity.
Defined.

(** ** Orbit rendering: every step *)

Section OrbitOutcomeProperties.

Import Geometry Effects Host RenderScript.
Local Open Scope script_scope.
Local Open Scope list_scope.
Local Open Scope Z_scope.

Lemma render_angle_exact (output_dir : string) (d : R) (cam : oid)
      (angle_deg : Z) (w : world) (c : object) :
  scene_camera w = Some cam ->
  lookup cam (objects w) = Some c ->
  render_angle output_dir d cam angle_deg w
  = (Ok tt, after_frame output_dir d cam w angle_deg).
Proof.
  intros Hcam Hc. unfold render_angle.
  rewrite (bind_ok _ _ _ _ _ (modify_runs cam _ w c Hc)).
  set (w1 := set_objects _ w).
  assert (H1 : lookup cam (objects w1)
               = Some (with_location (orbit_position d angle_deg) c)).
  { subst w1. wsimpl. rewrite lookup_update_same, Hc. reflexivity. }
  rewrite (bind_ok _ _ _ _ _ (get_runs cam w1 _ H1)).
  rewrite (bind_ok _ _ _ _ _ (modify_runs cam _ w1 _ H1)).
  set (w2 := set_objects _ w1).
  set (rot := RotTrack _ "-Z" "Y") in *.
  assert (H2 : lookup cam (objects w2)
               = Some (with_rotation rot
                         (with_location (orbit_position d angle_deg) c))).
  { subst w2. wsimpl. rewrite lookup_update_same, H1. reflexivity. }
  erewrite bind_ok by reflexivity.
  set (w3 := set_render_filepath _ w2).
  assert (E : render_still w3
              = (Ok tt,
                 write_path (frame_path output_dir angle_deg) (Regular [])
                   (add_log (Render (frame_path output_dir angle_deg)
                                    (orbit_position d angle_deg) rot) w3))).
  { unfold render_still. erewrite bind_ok by reflexivity.
    change (scene_camera w3) with (scene_camera w). rewrite Hcam.
    unfold find_object. change (objects w3) with (objects w2). rewrite H2.
    erewrite bind_ok by reflexivity. reflexivity. }
  rewrite (bind_ok _ _ _ _ _ E).
  erewrite bind_ok by reflexivity.
  unfold print, emit, change, after_frame. subst w3 w2 w1 rot. wsimpl.
  unfold add_log. wsimpl. rewrite <- app_assoc. reflexivity.
Qed.

Lemma after_frame_camera (output_dir : string) (d : R) (cam : oid)
      (n : nat) (w : world) (a : Z) :
  camera_in_place cam n w ->
  camera_in_place cam n (after_frame output_dir d cam w a).
Proof.
  intros (Hs & Hn & c & Hc & Hd). unfold camera_in_place, after_frame.
  wsimpl. split; [exact Hs|]. split.
  - rewrite !update_length. exact Hn.
  - rewrite !lookup_update_same, Hc. cbn [option_map].
    eexists. split; [reflexivity|]. exact Hd.
Qed.

Lemma orbit_loop_exact (output_dir : string) (d : R) (cam : oid) (n : nat)
      (angles : list Z) :
  forall w,
    camera_in_place cam n w ->
    for_each angles (render_angle output_dir d cam) w
    = (Ok tt, fold_left (after_frame output_dir d cam) angles w)
    /\ camera_in_place cam n
         (fold_left (after_frame output_dir d cam) angles w).
Proof.
  induction angles as [|a angles IH]; intros w Hw.
  - split; [reflexivity|exact Hw].
  - pose proof Hw as (Hs & _ & c & Hc & _).
    cbn [for_each fold_left].
    rewrite (bind_ok _ _ _ _ _
               (render_angle_exact output_dir d cam a w c Hs Hc)).
    apply IH. apply after_frame_camera. exact Hw.
Qed.

Lemma orbit_frames_on_disk (output_dir : string) (d : R) (cam : oid)
      (angles : list Z) :
  forall w a,
    In a angles ->
    on_disk (frame_path output_dir a)
            (fold_left (after_frame output_dir d cam) angles w) = true.
Proof.
  assert (Hkeep : forall l w p,
             on_disk p w = true ->
             on_disk p (fold_left (after_frame output_dir d cam) l w) = true).
  { induction l as [|b l IH]; intros w p Hp; [exact Hp|].
    cbn [fold_left]. apply IH. unfold on_disk, after_frame, lookup_path.
    cbn [disk find fst].
    destruct (String.eqb (frame_path output_dir b) p); [reflexivity|].
    exact Hp. }
  induction angles as [|b angles IH]; intros w a Ha; [contradiction|].
  cbn [fold_left]. destruct Ha as [->|Ha].
  - apply Hkeep. unfold on_disk, after_frame, lookup_path.
    cbn [disk find fst]. rewrite String.eqb_refl. reflexivity.
  - apply IH. exact Ha.
Qed.

Lemma orbit_start_camera (output_dir : string) (w : world) :
  camera_in_place (List.length (objects w)) (S (List.length (objects w)))
                  (orbit_start output_dir w).
Proof.
  unfold camera_in_place. rewrite orbit_start_objects. split.
  - unfold orbit_start. destruct (on_disk output_dir w); reflexivity.
  - split.
    + rewrite length_app. simpl. lia.
    + eexists. split; [apply lookup_app_new|reflexivity].
Qed.

Lemma orbit_start_on_disk (output_dir : string) (w : world) :
  on_disk output_dir (orbit_start output_dir w) = true
  /\ (forall p, on_disk p w = true ->
                on_disk p (orbit_start output_dir w) = true).
Proof.
  unfold orbit_start. destruct (on_disk output_dir w) eqn:Ho.
  - split; [exact Ho|auto].
  - split.
    + unfold on_disk, lookup_path. wsimpl. cbn [find fst].
      rewrite String.eqb_refl. reflexivity.
    + intros p Hp. unfold on_disk, lookup_path in *. wsimpl.
      cbn [find fst]. destruct (String.eqb output_dir p); [reflexivity|].
      exact Hp.
Qed.

Lemma range_positive (step : Z) :
  0 < step -> Py.range 0 360 step = Some (loop_angles step).
Proof.
  intros Hpos. unfold Py.range, Py.range_len, loop_angles.
  destruct (Z.eqb_spec step 0) as [?|_]; [lia|].
  destruct (Z.ltb_spec 0 step) as [_|?]; [|lia].
  cbn [Z.ltb Z.compare]. reflexivity.
Qed.

Lemma range_negative (step : Z) :
  step < 0 -> Py.range 0 360 step = Some [].
Proof.
  intros Hneg. unfold Py.range, Py.range_len.
  destruct (Z.eqb_spec step 0) as [?|_]; [lia|].
  destruct (Z.ltb_spec 0 step) as [?|_]; [lia|].
  reflexivity.
Qed.

Lemma loop_ok_positive (step : Z) : 0 < step -> loop_ok step = true.
Proof.
  intros Hpos. destruct (Z.lt_ge_cases step 360) as [Hlt|Hge].
  - assert (Hall : forallb (fun n => loop_ok (Z.of_nat n)) (seq 1 359)
                   = true) by (vm_compute; reflexivity).
    rewrite forallb_forall in Hall.
    specialize (Hall (Z.to_nat step)).
    rewrite Z2Nat.id in Hall by lia. apply Hall. apply in_seq. lia.
  - assert (Hone : loop_angles step = [0]).
    { unfold loop_angles. rewrite Z.div_small by lia. reflexivity. }
    unfold loop_ok. rewrite Hone.
    assert (Hlast : (360 <=? last [0] 0 + step) = true)
      by (apply Z.leb_le; simpl; lia).
    rewrite Hlast. reflexivity.
Qed.

Lemma render_views_exact (output_dir : string) (angle_step : Z) (d : R)
      (w : world) (angles : list Z) :
  Py.range 0 360 angle_step = Some angles ->
  render_views output_dir angle_step d w
  = (Ok tt,
     fold_left (after_frame output_dir d (List.length (objects w))) angles
               (orbit_start output_dir w))
  /\ camera_in_place (List.length (objects w))
                     (S (List.length (objects w)))
       (fold_left (after_frame output_dir d (List.length (objects w)))
                  angles (orbit_start output_dir w)).
Proof.
  intros Hr. rewrite render_views_start, Hr.
  apply orbit_loop_exact. apply orbit_start_camera.
Qed.

(** X5. For every positive step, dividing 360 or not, [render_views]
    returns normally after rendering one frame for each angle 0, step,
    2*step, ... below 360: 359 // step + 1 frames, the last one less than
    a step before 360.  Every frame is named angle_ and three digits, the
    names ascend with the angles, and every frame file is on disk
    afterwards, as is the output directory. *)
Theorem render_views_positive_step (output_dir : string) (angle_step : Z)
        (d : R) (w : world) :
  0 < angle_step ->
  let angles := loop_angles angle_step in
  exists w',
    render_views output_dir angle_step d w = (Ok tt, w')
    /\ map (fun f => fst (fst f)) (rendered (log w'))
       = map (fun f => fst (fst f)) (rendered (log w))
         ++ map (frame_path output_dir) angles
    /\ Z.of_nat (List.length angles) = 359 / angle_step + 1
    /\ Forall (fun a => 0 <= a < 360) angles
    /\ 360 <= last angles 0 + angle_step
    /\ Forall (fun a => String.length (Py.format_03d a) = 3%nat) angles
    /\ strictly_increasing String.ltb (map frame_name angles) = true
    /\ Forall (fun a => on_disk (frame_path output_dir a) w' = true) angles
    /\ on_disk output_dir w' = true.
Proof.
  intros Hpos angles.
  pose proof (range_positive _ Hpos) as Hr. fold angles in Hr.
  destruct (render_views_exact output_dir angle_step d w angles Hr)
    as [E _].
  destruct (render_views_runs output_dir angle_step d w angles Hr)
    as (w' & E' & Hl & Hk).
  pose proof (loop_ok_positive _ Hpos) as Hok.
  unfold loop_ok in Hok. fold angles in Hok.
  apply andb_prop in Hok. destruct Hok as [Hok Hnames].
  apply andb_prop in Hok. destruct Hok as [Hok Hwidth].
  apply andb_prop in Hok. destruct Hok as [Hok Hlast].
  apply andb_prop in Hok. destruct Hok as [Hbelow _].
  rewrite forallb_forall in Hbelow, Hwidth.
  exists w'. split; [exact E'|]. split.
  { rewrite Hl, !rendered_app, rendered_frames, !map_app.
    destruct (on_disk output_dir w); cbn [rendered flat_map map app];
      rewrite map_map; reflexivity. }
  split.
  { unfold angles, loop_angles. rewrite length_map, length_seq.
    apply Z2Nat.id. pose proof (Z.div_pos 359 angle_step). lia. }
  split.
  { apply Forall_forall. intros a Ha.
    specialize (Hbelow a Ha). apply andb_prop in Hbelow.
    destruct Hbelow as [H1 H2].
    apply Z.leb_le in H1. apply Z.ltb_lt in H2. lia. }
  split; [apply Z.leb_le; exact Hlast|].
  split.
  { apply Forall_forall. intros a Ha.
    apply Nat.eqb_eq. exact (Hwidth a Ha). }
  split; [exact Hnames|].
  rewrite E in E'. inversion E' as [Hw']. split.
  - apply Forall_forall. intros a Ha. apply orbit_frames_on_disk. exact Ha.
  - destruct Hk as (_ & _ & _ & _ & Hd). rewrite Hw'. apply Hd.
    exact (proj1 (orbit_start_on_disk output_dir w)).
Qed.

(** X6. With a step that is not positive nothing is rendered, but the
    output directory and the camera have been made by then: a zero step
    raises the ValueError of [range] after them, a negative step returns
    normally with an empty loop. *)
Theorem render_views_nonpositive_step (output_dir : string) (angle_step : Z)
        (d : R) (w : world) :
  angle_step <= 0 ->
  let r := render_views output_dir angle_step d w in
  fst r = (if angle_step =? 0 then Raise (ValueError RangeZeroStep)
           else Ok tt)
  /\ snd r = orbit_start output_dir w
  /\ rendered (log (snd r)) = rendered (log w)
  /\ on_disk output_dir (snd r) = true
  /\ scene_camera (snd r) = Some (List.length (objects w))
  /\ (exists c, find_object (List.length (objects w)) (snd r) = Some c
                /\ data c = Camera).
Proof.
  intros Hle r. subst r. rewrite render_views_start.
  assert (Hw : (match Py.range 0 360 angle_step with
                | Some angles =>
                    for_each angles
                      (render_angle output_dir d (List.length (objects w)))
                      (orbit_start output_dir w)
                | None => (Raise (ValueError RangeZeroStep),
                           orbit_start output_dir w)
                end)
               = (if angle_step =? 0 then Raise (ValueError RangeZeroStep)
                  else Ok tt, orbit_start output_dir w)).
  { destruct (Z.eqb_spec angle_step 0) as [->|Hne]; [reflexivity|].
    rewrite range_negative by lia. reflexivity. }
  rewrite Hw. cbn [fst snd]. split; [reflexivity|]. split; [reflexivity|].
  pose proof (orbit_start_camera output_dir w) as (Hs & _ & c & Hc & Hd).
  split.
  { unfold orbit_start. destruct (on_disk output_dir w); wsimpl;
      [reflexivity|]. rewrite rendered_app. cbn. apply app_nil_r. }
  split; [exact (proj1 (orbit_start_on_disk output_dir w))|].
  split; [exact Hs|]. exists c. auto.
Qed.

(** X7. Whatever the step and whatever the outcome, [render_views] leaves
    every object that was there, the active object and every path that
    was on disk as they were, and adds exactly one object: a camera, which
    becomes the scene camera, even when the scene already had one. *)
Theorem render_views_frame (output_dir : string) (angle_step : Z) (d : R)
        (w : world) :
  let r := render_views output_dir angle_step d w in
  (forall i, (i < List.length (objects w))%nat ->
             find_object i (snd r) = find_object i w)
  /\ active (snd r) = active w
  /\ (forall p, on_disk p w = true -> on_disk p (snd r) = true)
  /\ List.length (objects (snd r)) = S (List.length (objects w))
  /\ scene_camera (snd r) = Some (List.length (objects w))
  /\ (exists c, find_object (List.length (objects w)) (snd r) = Some c
                /\ data c = Camera).
Proof.
  intros r. subst r.
  destruct (render_views output_dir angle_step d w) as [out w'] eqn:E.
  cbn [snd]. split.
  { intros i Hi. unfold find_object.
    eapply render_views_keeps; eassumption. }
  assert (Hstart_active : active (orbit_start output_dir w) = active w).
  { unfold orbit_start. destruct (on_disk output_dir w); reflexivity. }
  destruct (Py.range 0 360 angle_step) as [angles|] eqn:Hr.
  - destruct (render_views_exact output_dir angle_step d w angles Hr)
      as [E1 Hcam].
    destruct (render_views_runs output_dir angle_step d w angles Hr)
      as (w1 & E2 & _ & (_ & Ha & _ & _ & Hdisk)).
    assert (Hw1 : w1 = w') by congruence.
    assert (Hw' : fold_left
                    (after_frame output_dir d (List.length (objects w)))
                    angles (orbit_start output_dir w) = w') by congruence.
    rewrite Hw' in Hcam. subst w1.
    destruct Hcam as (Hs & Hn & c & Hc & Hd).
    split; [congruence|]. split.
    { intros p Hp. apply Hdisk. apply orbit_start_on_disk. exact Hp. }
    split; [exact Hn|]. split; [exact Hs|]. exists c. auto.
  - rewrite render_views_start, Hr in E. inversion E; subst.
    pose proof (orbit_start_camera output_dir w) as (Hs & Hn & c & Hc & Hd).
    split; [exact Hstart_active|]. split.
    { intros p Hp. apply orbit_start_on_disk. exact Hp. }
    split; [exact Hn|]. split; [exact Hs|]. exists c. auto.
Qed.

End OrbitOutcomeProperties.

Lemma render_views_positive_step_witness :
  exists w',
    RenderScript.render_views "/s/output/car" 150 8 sample_world
    = (Effects.Ok tt, w')
    /\ map (fun f => fst (fst f)) (rendered (Host.log w'))
       = [ "/s/output/car/angle_000.png"; "/s/output/car/angle_150.png";
           "/s/output/car/angle_300.png" ]
    /\ on_disk "/s/output/car/angle_300.png" w' = true.
Proof.
  destruct (render_views_positive_step "/s/output/car" 150 8 sample_world)
    as (w' & E & Hf & _ & _ & _ & _ & _ & Hd & _).
  - lia.
  - exists w'. split; [exact E|]. split; [rewrite Hf; reflexivity|].
    rewrite Forall_forall in Hd. apply (Hd 300%Z).
    simpl. tauto.
Defined.

Lemma render_views_nonpositive_step_witness :
  fst (RenderScript.render_views "/s/output/car" 0 8 sample_world)
  = Effects.Raise (Effects.ValueError Effects.RangeZeroStep)
  /\ on_disk "/s/output/car"
             (snd (RenderScript.render_views "/s/output/car" 0 8
                                             sample_world)) = true.
Proof.
  destruct (render_views_nonpositive_step "/s/output/car" 0 8 sample_world)
    as (E & _ & _ & Hd & _).
  - lia.
  - split; [exact E|exact Hd].
Defined.

(** ** Lights, normalization and recentering: repetition and composition *)

Section RepeatedLights.

Import Geometry Effects Host RenderScript.
Local Open Scope script_scope.
Local Open Scope list_scope.

(** X8. [setup_lights] does not look at what the scene holds: called k
    times in a row it adds the five lights k times, so the scene ends
    with 5 k more objects, the rigs one after the other. *)
Theorem setup_lights_repeated (k : nat) (w : world) :
  for_each (repeat tt k) (fun _ => setup_lights) w
  = (Ok tt,
     set_objects (objects w ++ List.concat (repeat (map Some light_rig) k)) w)
  /\ List.length (objects w ++ List.concat (repeat (map Some light_rig) k))
     = (List.length (objects w) + 5 * k)%nat.
Proof.
  split.
  - revert w. induction k as [|k IH]; intros w.
    + simpl. rewrite app_nil_r. destruct w; reflexivity.
    + cbn [repeat for_each List.concat].
      rewrite (bind_ok _ _ _ _ _ (setup_lights_runs w)).
      rewrite IH. wsimpl. rewrite <- app_assoc. reflexivity.
  - rewrite length_app. f_equal.
    induction k as [|k IH]; [reflexivity|].
    cbn [repeat List.concat]. rewrite length_app, IH. simpl. lia.
Qed.

End RepeatedLights.

Section BoundsMembers.

Import Geometry.
Local Open Scope R_scope.

Lemma min_list_le (l : list R) :
  forall x y, In y (x :: l) -> min_list x l <= y.
Proof.
  induction l as [|z l IH]; intros x y Hy; simpl.
  - destruct Hy as [->|[]]. lra.
  - destruct Hy as [->|Hy].
    + apply Rmin_l.
    + eapply Rle_trans; [apply Rmin_r|]. apply IH. exact Hy.
Qed.

Lemma max_list_ge (l : list R) :
  forall x y, In y (x :: l) -> y <= max_list x l.
Proof.
  induction l as [|z l IH]; intros x y Hy; simpl.
  - destruct Hy as [->|[]]. lra.
  - destruct Hy as [->|Hy].
    + apply Rmax_l.
    + eapply Rle_trans; [|apply Rmax_r]. apply IH. exact Hy.
Qed.

(** Every coordinate of a list lies between its bounds. *)
Lemma within_bounds (l : list R) (y : R) :
  In y l -> lower_bound l <= y <= upper_bound l.
Proof.
  destruct l as [|x l]; [contradiction|]. intros Hy. simpl. split.
  - apply min_list_le. exact Hy.
  - apply max_list_ge. exact Hy.
Qed.

Lemma max3_ge (a b c : R) :
  a <= max3 a b c /\ b <= max3 a b c /\ c <= max3 a b c.
Proof.
  unfold max3. pose proof (Rmax_l a b). pose proof (Rmax_r a b).
  pose proof (Rmax_l (Rmax a b) c). pose proof (Rmax_r (Rmax a b) c).
  lra.
Qed.

Lemma max3_scale_abs (k a b c : R) :
  max3 (a * Rabs k) (b * Rabs k) (c * Rabs k) = max3 a b c * Rabs k.
Proof. apply max3_scale. apply Rabs_pos. Qed.

End BoundsMembers.

Section NormalizeOutcomes.

Import Geometry Effects Host RenderScript.
Local Open Scope script_scope.
Local Open Scope list_scope.
Local Open Scope R_scope.

Variable host : backend.

Lemma mesh_of_extent (o : object) :
  max_extent o <> 0 -> exists vs, data o = Mesh vs.
Proof.
  intros Hm. destruct (is_mesh o) eqn:Hmesh.
  - unfold is_mesh in Hmesh. destruct (data o); try discriminate. eauto.
  - exfalso. apply Hm. apply max_extent_no_mesh. exact Hmesh.
Qed.

Lemma dimensions_rescaled_abs (k : R) (o : object) (vs : list vec3) :
  data o = Mesh vs ->
  dimensions (rescaled host k o) = vscale (dimensions o) (Rabs k).
Proof.
  intros Hd. rewrite (rescaled_mesh host k o vs Hd).
  unfold dimensions, verts_of, box_min, box_max, vscale.
  cbn [data scale vx vy vz vone]. rewrite Hd.
  rewrite !map_map. unfold scaled_by, vscale. cbn [vx vy vz].
  rewrite <- !(map_map vx (Rmult (vx (scale o) * k))).
  rewrite <- !(map_map vy (Rmult (vy (scale o) * k))).
  rewrite <- !(map_map vz (Rmult (vz (scale o) * k))).
  rewrite !extent_scale, !Rabs_mult, Rabs_R1.
  f_equal; ring.
Qed.

Lemma max_extent_rescaled (k : R) (o : object) :
  max_extent o <> 0 ->
  max_extent (rescaled host k o) = max_extent o * Rabs k.
Proof.
  intros Hm. destruct (mesh_of_extent o Hm) as [vs Hd].
  unfold max_extent at 1. rewrite (dimensions_rescaled_abs k o vs Hd).
  unfold vscale. cbn [vx vy vz]. apply max3_scale_abs.
Qed.

Lemma max_extent_scaled (k : R) (o : object) :
  max_extent (with_scale (vscale (scale o) k) o) = max_extent o * Rabs k.
Proof.
  unfold max_extent, dimensions.
  change (verts_of (with_scale (vscale (scale o) k) o)) with (verts_of o).
  cbn [with_scale scale vscale vx vy vz]. rewrite !Rabs_mult.
  rewrite <- max3_scale_abs. f_equal; ring.
Qed.


End NormalizeOutcomes.

Section RecenterOutcomes.

Import Geometry Effects Host RenderScript.
Local Open Scope script_scope.
Local Open Scope list_scope.
Local Open Scope R_scope.

Variable host : backend.

Lemma set_objects_same (w : world) : set_objects (objects w) w = w.
Proof. destruct w; reflexivity. Qed.

Lemma centered_after (c : vec3) (o : object) :
  bbox_center host o = c ->
  bbox_center host (with_location (vsub (location o) c) o) = vzero.
Proof.
  intros <-. rewrite bbox_center_moved.
  generalize (bbox_center host o), (location o).
  intros [cx cy cz] [px py pz]. unfold vadd, vsub, vzero.
  cbn [vx vy vz]. f_equal; ring.
Qed.

(** X11. [move_bbox_to_origin] assigns the location and nothing else:
    the data, rotation and scale of the object, the other objects, the
    matrices the host holds, the disk and the console stay as they were.
    The centre it subtracts is computed through the matrix the host
    holds for the object.  When that matrix is up to date, the centre of
    the bounding box is at the origin afterwards.  The call does not
    bring the matrix up to date, so the function is not idempotent: a
    second call right after the first subtracts the same vector again,
    and the centre ends at the opposite of where it started. *)
Theorem move_bbox_to_origin_effect (obj : oid) (w : world) (o : object) :
  find_object obj w = Some o ->
  let c := cached_center (matrices w obj) o in
  exists w1 w2 o2,
    move_bbox_to_origin obj w = (Ok tt, w1)
    /\ find_object obj w1 = Some (with_location (vsub (location o) c) o)
    /\ (forall i, i <> obj -> find_object i w1 = find_object i w)
    /\ matrices w1 = matrices w
    /\ log w1 = log w /\ disk w1 = disk w /\ active w1 = active w
    /\ (up_to_date host w obj ->
        bbox_center host (with_location (vsub (location o) c) o) = vzero)
    /\ move_bbox_to_origin obj w1 = (Ok tt, w2)
    /\ find_object obj w2 = Some o2
    /\ o2 = with_location (vsub (vsub (location o) c) c) o
    /\ (up_to_date host w obj ->
        bbox_center host o2 = vsub vzero (bbox_center host o)).
Proof.
  intros Ho c.
  rewrite (move_bbox_to_origin_runs obj w o Ho). fold c.
  set (o1 := with_location (vsub (location o) c) o).
  set (w1 := set_objects _ w).
  assert (H1 : find_object obj w1 = Some o1).
  { subst w1. unfold find_object in *. wsimpl.
    rewrite lookup_update_same, Ho. reflexivity. }
  assert (Hfresh : up_to_date host w obj -> bbox_center host o = c).
  { intros (x & Hx & Hmx). assert (x = o) by congruence. subst x.
    unfold c. rewrite Hmx. reflexivity. }
  exists w1.
  rewrite (move_bbox_to_origin_runs obj w1 o1 H1).
  change (matrices w1 obj) with (matrices w obj).
  change (cached_center (matrices w obj) o1) with c.
  set (o2 := with_location (vsub (vsub (location o) c) c) o).
  set (w2 := set_objects _ w1).
  exists w2, o2.
  split; [reflexivity|]. split; [exact H1|].
  split.
  { intros i Hi. subst w1. unfold find_object. wsimpl.
    apply lookup_update_other. congruence. }
  do 4 (split; [reflexivity|]).
  split; [intros Hf; apply centered_after, Hfresh, Hf|].
  split; [reflexivity|].
  split.
  { subst w2. unfold find_object in *. wsimpl.
    rewrite lookup_update_same, H1. reflexivity. }
  split; [reflexivity|].
  intros Hf. unfold o2. rewrite bbox_center_moved, (Hfresh Hf).
  generalize c, (location o).
  intros [cx cy cz] [px py pz]. unfold vadd, vsub, vzero.
  cbn [vx vy vz]. f_equal; ring.
Qed.

End RecenterOutcomes.


Lemma move_bbox_to_origin_effect_witness :
  exists w1 w2 o2,
    RenderScript.move_bbox_to_origin 0%nat sample_world = (Effects.Ok tt, w1)
    /\ RenderScript.move_bbox_to_origin 0%nat w1 = (Effects.Ok tt, w2)
    /\ Host.find_object 0%nat w2 = Some o2
    /\ Host.location o2
       = Geometry.vsub
           (Geometry.vsub Geometry.vzero
                          (cached_center (at_rest 0%nat) sample_mesh))
           (cached_center (at_rest 0%nat) sample_mesh).
Proof.
  destruct (move_bbox_to_origin_effect plain_host 0%nat sample_world
              sample_mesh eq_refl)
    as (w1 & w2 & o2 & E1 & _ & _ & _ & _ & _ & _ & _ & E2 & Ho2 & Hd & _).
  exists w1, w2, o2. split; [exact E1|]. split; [exact E2|].
  split; [exact Ho2|]. rewrite Hd. reflexivity.
Defined.

(** ** The scene after an import *)

Section ImportOutcomeProperties.

Import Geometry Effects Host RenderScript.
Local Open Scope script_scope.
Local Open Scope list_scope.

Variable host : backend.

Lemma set_objects_twice (a b : list (option object)) (w : world) :
  set_objects a (set_objects b w) = set_objects a w.
Proof. reflexivity. Qed.

Lemma import_loop_exact (f : object -> object) (c : list (option object)) :
  forall w,
    for_each c (fun e =>
      match e with
      | None => ret tt
      | Some o => change (fun w => set_objects (objects w ++ [Some (f o)]) w)
      end) w
    = (Ok tt,
       set_objects (objects w ++ map (fun o => Some (f o)) (loaded_objects c))
                   w).
Proof.
  induction c as [|[o|] c IH]; intros w.
  - cbn. rewrite app_nil_r, set_objects_same. reflexivity.
  - cbn [for_each]. erewrite bind_ok by reflexivity. rewrite IH.
    wsimpl. rewrite <- app_assoc. reflexivity.
  - cbn [for_each]. erewrite bind_ok by reflexivity. apply IH.
Qed.

Lemma load_entries_exact (c : list (option object)) :
  forall w,
    load_entries c w
    = (Ok (entry_ids (List.length (objects w)) c),
       set_objects
         (objects w
          ++ map (fun o => Some (with_linked false o)) (loaded_objects c))
         w).
Proof.
  induction c as [|[o|] c IH]; intros w.
  - cbn. rewrite app_nil_r, set_objects_same. reflexivity.
  - cbn [load_entries]. erewrite bind_ok by reflexivity.
    erewrite bind_ok by reflexivity.
    erewrite bind_ok by apply IH. wsimpl.
    rewrite length_app, Nat.add_1_r, <- app_assoc. reflexivity.
  - cbn [load_entries]. erewrite bind_ok by apply IH. reflexivity.
Qed.

Lemma lookup_middle (pre post : list (option object)) (s : option object) :
  lookup (List.length pre) (pre ++ s :: post) = s.
Proof.
  unfold lookup. rewrite nth_error_app2 by lia.
  rewrite Nat.sub_diag. destruct s; reflexivity.
Qed.

Lemma update_middle (pre post : list (option object)) (o : object)
      (f : object -> object) :
  update (List.length pre) f (pre ++ Some o :: post)
  = pre ++ Some (f o) :: post.
Proof.
  induction pre as [|s pre IH]; simpl.
  - reflexivity.
  - f_equal. exact IH.
Qed.

Lemma link_loop_exact (c : list (option object)) :
  forall (pre : list (option object)) (w : world),
    objects w
    = pre ++ map (fun o => Some (with_linked false o)) (loaded_objects c) ->
    for_each (entry_ids (List.length pre) c)
             (fun obj => match obj with
                         | Some i => link i
                         | None => ret tt
                         end) w
    = (Ok tt,
       set_objects
         (pre ++ map (fun o => Some (as_imported ImportBlend o))
                     (loaded_objects c))
         w).
Proof.
  induction c as [|[o|] c IH]; intros pre w Hw.
  - cbn in *. rewrite <- Hw, set_objects_same. reflexivity.
  - cbn [entry_ids for_each loaded_objects flat_map app map] in *.
    unfold link at 1.
    erewrite bind_ok.
    2:{ apply (modify_runs _ _ _ (with_linked false o)).
        rewrite Hw. apply lookup_middle. }
    rewrite Hw, update_middle.
    replace (S (List.length pre))
      with (List.length (pre ++ [Some (as_imported ImportBlend o)]))
      by (rewrite length_app, Nat.add_1_r; reflexivity).
    rewrite (IH (pre ++ [Some (as_imported ImportBlend o)])).
    + rewrite set_objects_twice, <- app_assoc. reflexivity.
    + wsimpl. rewrite <- app_assoc. destruct o; reflexivity.
  - cbn [entry_ids for_each]. erewrite bind_ok by reflexivity.
    apply IH. exact Hw.
Qed.

Lemma present_from_somes (l : list object) :
  forall n, map snd (present_from n (map Some l)) = l.
Proof.
  induction l as [|o l IH]; intros n; simpl.
  - reflexivity.
  - f_equal. apply IH.
Qed.

Lemma present_from_cleared (l : list (option object)) :
  forall n, present_from n (map (fun _ => None) l) = [].
Proof. induction l as [|s l IH]; intros n; simpl; auto. Qed.

Lemma filter_all {A : Type} (p : A -> bool) (l : list A) :
  (forall a, In a l -> p a = true) -> filter p l = l.
Proof.
  induction l as [|a l IH]; intros H; simpl.
  - reflexivity.
  - rewrite (H a) by (left; reflexivity). f_equal.
    apply IH. intros b Hb. apply H. right. exact Hb.
Qed.

Lemma imported_scene (k : importer) (old : list (option object))
      (l : list object) (w : world) :
  objects w = map (fun _ => None) old
              ++ map (fun o => Some (as_imported k o)) l ->
  map snd (scene_objects w) = map (as_imported k) l.
Proof.
  intros Hw. unfold scene_objects, present. rewrite Hw, present_from_app.
  rewrite present_from_cleared. cbn [app].
  rewrite <- (map_map (as_imported k) Some).
  rewrite filter_all.
  - apply present_from_somes.
  - intros [i o] Hin. apply (in_map snd) in Hin.
    rewrite present_from_somes in Hin. cbn [snd] in *.
    apply in_map_iff in Hin. destruct Hin as (x & <- & _).
    destruct k; reflexivity.
Qed.

(** A successful run of [load_3Dmodel], slot by slot; [c] is what the
    importer finds in the file. *)
Lemma load_3Dmodel_store (path : string) (w : world) (k : importer)
      (c : list (option object)) :
  lookup_path path (disk w) = Some (Regular c) ->
  importer_for (Py.lower (snd (Py.splitext path))) = Some k ->
  exists w',
    load_3Dmodel host path w = (Ok tt, w')
    /\ objects w'
       = map (fun _ => None) (objects w)
         ++ map (fun o => Some (as_imported k o)) (loaded_objects c)
    /\ disk w' = disk w
    /\ log w' = log w ++ [ReadFactorySettings; Import k path;
                          Print (MsgImported path)].
Proof.
  intros Hf Hk. unfold load_3Dmodel.
  erewrite bind_ok
    by (unfold path_exists, gets; rewrite Hf; reflexivity).
  cbn [negb]. erewrite bind_ok by reflexivity.
  rewrite (bind_ok read_factory_settings _ w tt (factory_reset w))
    by reflexivity.
  set (ext := Py.lower (snd (Py.splitext path))) in *.
  assert (Hc : forall e, file_contents path (add_log e (factory_reset w))
                         = c).
  { intros e. unfold file_contents, factory_reset. wsimpl.
    rewrite Hf. reflexivity. }
  assert (Hop : forall k', k' <> ImportBlend -> k = k' ->
    exists w',
      (import_op host k' path ;; print (MsgImported path))
        (factory_reset w)
      = (Ok tt, w')
      /\ objects w'
         = map (fun _ => None) (objects w)
           ++ map (fun o => Some (as_imported k o)) (loaded_objects c)
      /\ disk w' = disk w
      /\ log w' = log w ++ [ReadFactorySettings; Import k path;
                            Print (MsgImported path)]).
  { intros k' Hnb ->. unfold import_op.
    erewrite bind_ok.
    2:{ erewrite bind_ok by reflexivity.
        erewrite bind_ok by reflexivity.
        rewrite Hc.
        erewrite bind_ok
          by apply (import_loop_exact
                      (fun o => with_selected true (with_linked true o))).
        erewrite bind_ok by reflexivity. reflexivity. }
    eexists. split; [reflexivity|]. unfold factory_reset. wsimpl.
    repeat split.
    - destruct k'; try reflexivity. congruence.
    - rewrite <- !app_assoc. reflexivity. }
  unfold importer_for in Hk.
  destruct (String.eqb ext ".blend").
  { inversion Hk; subst k. unfold libraries_load.
    erewrite bind_ok.
    2:{ erewrite bind_ok.
        2:{ erewrite bind_ok by reflexivity.
            erewrite bind_ok by reflexivity.
            rewrite Hc.
            erewrite bind_ok by apply load_entries_exact.
            erewrite bind_ok by reflexivity. reflexivity. }
        unfold factory_reset. wsimpl.
        apply link_loop_exact. wsimpl. reflexivity. }
    eexists. split; [reflexivity|]. wsimpl.
    repeat split. rewrite <- !app_assoc. reflexivity. }
  destruct (String.eqb ext ".obj");
    [apply (Hop ImportObj); congruence|].
  destruct (String.eqb ext ".fbx");
    [apply (Hop ImportFbx); congruence|].
  destruct (String.eqb ext ".stl");
    [apply (Hop ImportStl); congruence|].
  destruct (String.eqb ext ".glb");
    [apply (Hop ImportGltf); congruence|].
  destruct (String.eqb ext ".gltf");
    [apply (Hop ImportGltf); congruence|].
  discriminate.
Qed.

(** X13. When the importer reads the file as the entries [c],
    [load_3Dmodel] leaves nothing of what the store held before and,
    behind the emptied slots, one object for each entry that loaded, in
    file order; the entries of a .blend file that did not load are
    skipped.  Every one of these objects is in the scene, so the scene is
    exactly the file's objects: selected if an import operator brought
    them, with the selection the file stores if they came from a .blend
    library.  The disk is as it was. *)
Theorem load_3Dmodel_scene (path : string) (w : world) (k : importer)
        (c : list (option object)) :
  lookup_path path (disk w) = Some (Regular c) ->
  importer_for (Py.lower (snd (Py.splitext path))) = Some k ->
  exists w',
    load_3Dmodel host path w = (Ok tt, w')
    /\ objects w'
       = map (fun _ => None) (objects w)
         ++ map (fun o => Some (as_imported k o)) (loaded_objects c)
    /\ map snd (scene_objects w') = map (as_imported k) (loaded_objects c)
    /\ (forall i, (i < List.length (objects w))%nat ->
                  find_object i w' = None)
    /\ disk w' = disk w
    /\ log w' = log w ++ [ReadFactorySettings; Import k path;
                          Print (MsgImported path)].
Proof.
  intros Hd Hk.
  destruct (load_3Dmodel_store path w k c Hd Hk)
    as (w' & E & Ho & Hdk & Hl).
  exists w'. split; [exact E|]. split; [exact Ho|].
  split; [exact (imported_scene k (objects w) _ w' Ho)|].
  split; [|auto].
  intros i Hi. unfold find_object, lookup. rewrite Ho.
  rewrite nth_error_app1 by (rewrite length_map; exact Hi).
  rewrite nth_error_map. destruct (nth_error (objects w) i); reflexivity.
Qed.

End ImportOutcomeProperties.

Lemma load_3Dmodel_scene_witness :
  exists w',
    RenderScript.load_3Dmodel plain_host "/s/model/car.blend" sample_world
    = (Effects.Ok tt, w')
    /\ Host.objects w' = [None; Some sample_mesh]
    /\ map snd (Host.scene_objects w') = [sample_mesh].
Proof.
  destruct (load_3Dmodel_scene plain_host "/s/model/car.blend"
              sample_world Host.ImportBlend [Some sample_mesh; None]
              eq_refl eq_refl)
    as (w' & E & Ho & Hs & _).
  exists w'. split; [exact E|]. split; [exact Ho|exact Hs].
Defined.

(** ** The whole pipeline *)

Section PipelineProperties.

Import Geometry Effects Host RenderScript.
Local Open Scope script_scope.
Local Open Scope list_scope.
Local Open Scope R_scope.

Variable host : backend.

Lemma on_disk_kept (p q : string) (f : file) (w : world) :
  on_disk p w = true -> on_disk p (write_path q f w) = true.
Proof.
  intros H. rewrite on_disk_write, H. apply Bool.orb_true_r.
Qed.

Lemma on_disk_written (q : string) (f : file) (w : world) :
  on_disk q (write_path q f w) = true.
Proof. rewrite on_disk_write, String.eqb_refl. reflexivity. Qed.

(** A run of [save_combined_object] and what it leaves on disk. *)
Lemma save_combined_object_disk (output_dir model_name : string)
      (w : world) :
  let output_file :=
    Py.join output_dir (model_name ++ "_final.blend")%string in
  exists w',
    save_combined_object output_dir model_name w = (Ok tt, w')
    /\ objects w' = objects w
    /\ log w' = log w
                ++ (if on_disk output_dir w then []
                    else [Makedirs output_dir])
                ++ [SaveMainfile output_file; Print (MsgSaved output_file)]
    /\ on_disk output_dir w' = true
    /\ lookup_path output_file (disk w')
       = Some (Regular (map (fun e => Some (snd e)) (present (objects w))))
    /\ (forall p, on_disk p w = true -> on_disk p w' = true).
Proof.
  intros output_file. unfold save_combined_object.
  erewrite bind_ok by reflexivity. fold (on_disk output_dir w).
  fold output_file.
  destruct (on_disk output_dir w) eqn:Hd; cbn [negb].
  - erewrite bind_ok by reflexivity. erewrite bind_ok by reflexivity.
    eexists. split; [reflexivity|]. wsimpl. split; [reflexivity|].
    split; [rewrite <- app_assoc; reflexivity|].
    split.
    { unfold on_disk, lookup_path in *. wsimpl. cbn [find fst].
      destruct (String.eqb output_file output_dir); [reflexivity|].
      exact Hd. }
    split.
    { unfold lookup_path. cbn [find fst snd].
      rewrite String.eqb_refl. reflexivity. }
    intros p Hp. unfold on_disk, lookup_path in *. wsimpl.
    cbn [find fst].
    destruct (String.eqb output_file p); [reflexivity|exact Hp].
  - erewrite bind_ok by reflexivity. erewrite bind_ok by reflexivity.
    eexists. split; [reflexivity|]. wsimpl. split; [reflexivity|].
    split; [rewrite <- !app_assoc; reflexivity|].
    split.
    { unfold on_disk, lookup_path in *. wsimpl. cbn [find fst].
      destruct (String.eqb output_file output_dir); [reflexivity|].
      rewrite String.eqb_refl. reflexivity. }
    split.
    { unfold lookup_path. cbn [find fst snd].
      rewrite String.eqb_refl. reflexivity. }
    intros p Hp. unfold on_disk, lookup_path in *. wsimpl.
    cbn [find fst].
    destruct (String.eqb output_file p); [reflexivity|].
    destruct (String.eqb output_dir p); [reflexivity|exact Hp].
Qed.


Lemma normalize_model_size_zero (obj : oid) (t : R) (w : world)
      (o : object) :
  find_object obj w = Some o ->
  max_extent o = 0 ->
  normalize_model_size host obj t w
  = (Ok tt,
     add_log (Print MsgZeroSize)
             (add_log (Print (MsgOriginalDims (dimensions o))) w)).
Proof.
  intros Ho Hm. unfold find_object in Ho. unfold normalize_model_size.
  rewrite (bind_ok _ _ _ _ _ (get_runs obj w o Ho)).
  erewrite bind_ok by reflexivity. fold (max_extent o).
  destruct (Req_dec_T (max_extent o) 0) as [_|Hn];
    [reflexivity|contradiction].
Qed.

Lemma normalized_extent (k : R) (o : object) :
  max_extent o <> 0 ->
  max_extent (apply_selected host false false true
                             (with_scale (vscale (scale o) k) o))
  = max_extent o * Rabs k.
Proof.
  intros Hm. unfold apply_selected.
  change (linked (with_scale (vscale (scale o) k) o)) with (linked o).
  change (selected (with_scale (vscale (scale o) k) o)) with (selected o).
  destruct (linked o && selected o)%bool.
  - apply (max_extent_rescaled host k o Hm).
  - apply max_extent_scaled.
Qed.

(** The normalization step of the pipeline, degenerate object or not,
    selected or not. *)
Lemma normalize_step (obj : oid) (w : world) (o : object) :
  find_object obj w = Some o ->
  exists w' o',
    normalize_model_size host obj 2 w = (Ok tt, w')
    /\ find_object obj w' = Some o'
    /\ name o' = name o
    /\ (max_extent o' = 2 \/ max_extent o' = 0)
    /\ disk w' = disk w
    /\ rendered (log w') = rendered (log w).
Proof.
  intros Ho. destruct (Req_dec_T (max_extent o) 0) as [Hz|Hn].
  - rewrite (normalize_model_size_zero obj 2 w o Ho Hz).
    eexists. exists o. split; [reflexivity|]. unfold find_object in *.
    wsimpl. repeat split; auto.
    rewrite !rendered_app. cbn. rewrite !app_nil_r. reflexivity.
  - destruct (normalize_model_size_runs host obj 2 w o Ho Hn)
      as (w' & E & Ho' & _ & _ & _ & Hd & Hl).
    cbv zeta in *.
    exists w'. eexists. split; [exact E|]. split; [exact Ho'|].
    split.
    { destruct (apply_selected_keeps host false false true
                  (with_scale (vscale (scale o) (2 / max_extent o)) o))
        as (_ & _ & _ & Hname).
      rewrite Hname. reflexivity. }
    split.
    { left. rewrite (normalized_extent _ o Hn).
      assert (Hpos : 0 < max_extent o)
        by (pose proof (max_extent_nonneg o); lra).
      rewrite Rabs_right
        by (apply Rle_ge, Rlt_le, Rdiv_lt_0_compat; lra).
      field. lra. }
    split; [exact Hd|].
    rewrite Hl, rendered_app. cbn. apply app_nil_r.
Qed.

Lemma rendered_bakes (l : list (oid * object)) :
  rendered (map (fun p => TransformApply (Some (fst p)) true true true) l)
  = [].
Proof. induction l as [|p l IH]; [reflexivity|exact IH]. Qed.

Lemma lookup_in_range (i : oid) (l : list (option object)) (o : object) :
  lookup i l = Some o -> (i < List.length l)%nat.
Proof.
  unfold lookup. intros H. apply nth_error_Some.
  destruct (nth_error l i); [discriminate|discriminate H].
Qed.

(** The steps of [main] that follow the consolidation, on the combined
    object [obj]. *)
Lemma pipeline_runs (script_dir model_name : string) (obj : oid)
      (w : world) (o : object) :
  find_object obj w = Some o ->
  let out := Py.join (Py.join script_dir "output") model_name in
  exists w' o',
    (normalize_model_size host obj 2 ;;
     move_bbox_to_origin obj ;;
     setup_lights ;;
     render_views out 30 8 ;;
     save_combined_object (Py.join script_dir "output") model_name ;;
     print (MsgDone model_name)) w = (Ok tt, w')
    /\ find_object obj w' = Some o'
    /\ name o' = name o
    /\ (max_extent o' = 2 \/ max_extent o' = 0)
    /\ rendered (log w')
       = rendered (log w) ++ map (frame_pose out 8) (orbit_angles 30)
    /\ (forall a, In a (orbit_angles 30) ->
                  on_disk (frame_path out a) w' = true)
    /\ on_disk (Py.join (Py.join script_dir "output")
                        (model_name ++ "_final.blend")%string) w' = true
    /\ (forall p, on_disk p w = true -> on_disk p w' = true)
    /\ last (log w') (Print MsgNoMesh) = Print (MsgDone model_name).
Proof.
  intros Ho out.
  destruct (normalize_step obj w o Ho)
    as (w3 & o3 & E3 & Ho3 & Hn3 & Hx3 & Hd3 & Hr3).
  rewrite (bind_ok _ _ _ _ _ E3).
  rewrite (bind_ok _ _ _ _ _ (move_bbox_to_origin_runs obj w3 o3 Ho3)).
  set (o4 := with_location
               (vsub (location o3) (cached_center (matrices w3 obj) o3))
               o3).
  set (w4 := set_objects _ w3).
  assert (Ho4 : lookup obj (objects w4) = Some o4).
  { subst w4. unfold find_object in Ho3. wsimpl.
    rewrite lookup_update_same, Ho3. reflexivity. }
  rewrite (bind_ok _ _ _ _ _ (setup_lights_runs w4)).
  set (w5 := set_objects _ w4).
  assert (Ho5 : lookup obj (objects w5) = Some o4).
  { subst w5. wsimpl. apply lookup_app_old. exact Ho4. }
  assert (Hrange : Py.range 0 360 30 = Some (orbit_angles 30))
    by reflexivity.
  destruct (render_views_runs out 30 8 w5 _ Hrange)
    as (w6 & E6 & Hl6 & _ & _ & _ & _ & Hk6).
  destruct (render_views_exact out 30 8 w5 _ Hrange) as [E6' _].
  assert (Hw6 : w6 = fold_left (after_frame out 8 (List.length (objects w5)))
                               (orbit_angles 30) (orbit_start out w5))
    by congruence.
  assert (Ho6 : lookup obj (objects w6) = Some o4).
  { rewrite (render_views_keeps out 30 8 w5 _ _ E6 obj
               (lookup_in_range obj _ o4 Ho5)).
    exact Ho5. }
  rewrite (bind_ok _ _ _ _ _ E6).
  destruct (save_combined_object_disk (Py.join script_dir "output")
              model_name w6) as (w7 & E7 & Ho7 & Hl7 & _ & Hf7 & Hk7).
  rewrite (bind_ok _ _ _ _ _ E7).
  eexists. exists o4. split; [reflexivity|].
  unfold find_object. wsimpl.
  split; [rewrite Ho7; exact Ho6|].
  split; [exact Hn3|].
  split; [exact Hx3|].
  split.
  { rewrite rendered_app, Hl7, !rendered_app, Hl6, !rendered_app.
    rewrite rendered_frames.
    change (log w5) with (log w3). rewrite Hr3.
    destruct (on_disk out w5), (on_disk (Py.join script_dir "output") w6);
      cbn [rendered flat_map app]; rewrite ?app_nil_r; reflexivity. }
  split.
  { intros a Ha. unfold on_disk. wsimpl. apply Hk7. rewrite Hw6.
    apply orbit_frames_on_disk. exact Ha. }
  split.
  { unfold on_disk. wsimpl. rewrite Hf7. reflexivity. }
  split.
  { intros p Hp. unfold on_disk. wsimpl. apply Hk7, Hk6.
    apply (proj2 (orbit_start_on_disk out w5)).
    unfold on_disk in *. subst w5 w4. wsimpl. rewrite Hd3. exact Hp. }
  apply last_last.
Qed.

Lemma meshes_of_import (k : importer) (old : list (option object))
      (l : list object) (w : world) :
  objects w = map (fun _ => None) old
              ++ map (fun o => Some (as_imported k o)) l ->
  map snd (meshes w) = map (as_imported k) (filter is_mesh l).
Proof.
  intros Hw. unfold meshes.
  rewrite <- (filter_map_swap snd
                (fun o => String.eqb (type_of o) "MESH")).
  rewrite (imported_scene k old l w Hw), filter_map_swap.
  f_equal. apply filter_ext. intros o.
  unfold type_of, is_mesh, as_imported.
  destruct k; cbn [data with_selected with_linked];
    destruct (data o); reflexivity.
Qed.

Lemma filter_none {A : Type} (p : A -> bool) (l : list A) :
  existsb p l = false -> filter p l = [].
Proof.
  induction l as [|a l IH]; simpl; [reflexivity|].
  destruct (p a); simpl; [discriminate|exact IH].
Qed.

Lemma filter_some {A : Type} (p : A -> bool) (l : list A) :
  existsb p l = true -> filter p l <> [].
Proof.
  induction l as [|a l IH]; simpl; [discriminate|].
  destruct (p a); simpl; [discriminate|exact IH].
Qed.

(** What [main] does once the model is loaded. *)
Lemma main_tail_runs (script_dir model_name : string) (w : world) :
  let out := Py.join (Py.join script_dir "output") model_name in
  exists w',
    (combined_object <- combine_objects host ;;
     match combined_object with
     | Some obj =>
         normalize_model_size host obj 2 ;;
         move_bbox_to_origin obj ;;
         setup_lights ;;
         render_views out 30 8 ;;
         save_combined_object (Py.join script_dir "output") model_name ;;
         print (MsgDone model_name)
     | None => print MsgCombineFailed
     end) w = (Ok tt, w')
    /\ (forall p, on_disk p w = true -> on_disk p w' = true)
    /\ match meshes w with
       | [] =>
           log w' = log w ++ [Print MsgNoMesh; Print MsgCombineFailed]
           /\ disk w' = disk w /\ objects w' = objects w
       | _ :: _ =>
           rendered (log w')
           = rendered (log w) ++ map (frame_pose out 8) (orbit_angles 30)
           /\ (forall a, In a (orbit_angles 30) ->
                         on_disk (frame_path out a) w' = true)
           /\ on_disk (Py.join (Py.join script_dir "output")
                               (model_name ++ "_final.blend")%string) w'
              = true
           /\ last (log w') (Print MsgNoMesh) = Print (MsgDone model_name)
           /\ exists obj o,
                find_object obj w' = Some o
                /\ name o = "Combined_Object"%string
                /\ (max_extent o = 2 \/ max_extent o = 0)
       end.
Proof.
  intros out. destruct (meshes w) as [|[first o1] others] eqn:Hm.
  - rewrite (bind_ok _ _ _ _ _ (combine_objects_none host w Hm)).
    eexists. split; [reflexivity|]. unfold on_disk. wsimpl.
    split; [auto|]. split; [|auto].
    rewrite <- app_assoc. reflexivity.
  - destruct (combine_objects_runs host w first o1 others Hm)
      as (w2 & E2 & Ho2 & _ & _ & Hl2 & Hd2 & _).
    rewrite (bind_ok _ _ _ _ _ E2).
    destruct (pipeline_runs script_dir model_name first w2 _ Ho2)
      as (w' & o' & E & Ho' & Hn & Hx & Hr & Hfr & Hfin & Hk & Hlast).
    exists w'. split; [exact E|].
    split.
    { intros p Hp. apply Hk. unfold on_disk in *. rewrite Hd2. exact Hp. }
    split.
    { rewrite Hr, Hl2, !rendered_app, rendered_bakes. cbn [rendered flat_map].
      rewrite !app_nil_r. reflexivity. }
    split; [exact Hfr|]. split; [exact Hfin|]. split; [exact Hlast|].
    exists first, o'. auto.
Qed.

(** X15. The whole script, when the model file is found, its format is
    supported and the importer reads it, runs to the end.  If the file
    holds a mesh, the twelve views at 0, 30, ..., 330 degrees are
    rendered at distance 8 into output/<model_name>/ and nothing else is
    rendered, the twelve files and output/<model_name>_final.blend are
    on disk, the last line printed is the completion message, and the
    object named Combined_Object has largest extent 2 (or 0 for a
    degenerate mesh).  If the file holds no mesh, the script reports the
    failure and leaves the disk as it was.  In both cases nothing that
    was on disk is lost.  (Failures inside the host, such as a file the
    importer rejects, are outside the model.) *)
Theorem main_renders (script_dir : string) (argv : list string)
        (w w0 : world) (p n : string) (k : importer)
        (c : list (option object)) :
  get_model_path_from_args script_dir argv w = (Ok (p, n), w0) ->
  lookup_path p (disk w0) = Some (Regular c) ->
  importer_for (Py.lower (snd (Py.splitext p))) = Some k ->
  let out := Py.join (Py.join script_dir "output") n in
  exists w',
    main host script_dir argv w = (Ok tt, w')
    /\ (forall q, on_disk q w0 = true -> on_disk q w' = true)
    /\ if existsb is_mesh (loaded_objects c) then
         rendered (log w')
         = rendered (log w0)
           ++ map (frame_pose out 8)
                  [0; 30; 60; 90; 120; 150; 180; 210; 240; 270; 300; 330]%Z
         /\ (forall a,
               In a [0; 30; 60; 90; 120; 150; 180; 210; 240; 270; 300;
                     330]%Z ->
               on_disk (frame_path out a) w' = true)
         /\ on_disk (Py.join (Py.join script_dir "output")
                             (n ++ "_final.blend")%string) w' = true
         /\ last (log w') (Print MsgNoMesh) = Print (MsgDone n)
         /\ exists obj o,
              find_object obj w' = Some o
              /\ name o = "Combined_Object"%string
              /\ (max_extent o = 2 \/ max_extent o = 0)
       else
         log w'
         = log w0 ++ [Print (MsgRenderingModel p); ReadFactorySettings;
                      Import k p; Print (MsgImported p);
                      Print MsgNoMesh; Print MsgCombineFailed]
         /\ disk w' = disk w0.
Proof.
  intros Hg Hd Hk out. unfold main.
  rewrite (bind_ok _ _ _ _ _ Hg). cbn [fst snd].
  erewrite bind_ok by reflexivity.
  set (w0' := add_log (Print (MsgRenderingModel p)) w0).
  destruct (load_3Dmodel_store host p w0' k c Hd Hk)
    as (w1 & E1 & Ho1 & Hd1 & Hl1).
  rewrite (bind_ok _ _ _ _ _ E1).
  destruct (main_tail_runs script_dir n w1) as (w' & E & Hkeep & Hcase).
  exists w'. split; [exact E|].
  split.
  { intros q Hq. apply Hkeep. unfold on_disk in *. rewrite Hd1. exact Hq. }
  pose proof (meshes_of_import k _ _ w1 Ho1) as Hm.
  destruct (existsb is_mesh (loaded_objects c)) eqn:Hex.
  - apply filter_some in Hex.
    destruct (meshes w1) as [|m ms].
    { exfalso. cbn [map] in Hm. symmetry in Hm.
      apply map_eq_nil in Hm. contradiction. }
    destruct Hcase as (Hr & Hfr & Hfin & Hlast & Hobj).
    split; [|auto].
    rewrite Hr, Hl1. subst w0'. wsimpl. rewrite !rendered_app.
    cbn [rendered flat_map app]. rewrite !app_nil_r. reflexivity.
  - apply filter_none in Hex. rewrite Hex in Hm. cbn [map] in Hm.
    apply map_eq_nil in Hm. rewrite Hm in Hcase.
    destruct Hcase as (Hl & Hdk & Hob).
    split; [rewrite Hl, Hl1; subst w0'; wsimpl;
            rewrite <- !app_assoc; reflexivity|].
    rewrite Hdk, Hd1. reflexivity.
Qed.

End PipelineProperties.

Lemma main_renders_witness :
  exists w',
    RenderScript.main plain_host "/s"
                      ["render_script.py"; "--"; "car.OBJ"] sample_world
    = (Effects.Ok tt, w')
    /\ rendered (Host.log w')
       = map (frame_pose "/s/output/car" 8)
             [0; 30; 60; 90; 120; 150; 180; 210; 240; 270; 300; 330]%Z
    /\ on_disk "/s/output/car_final.blend" w' = true.
Proof.
  destruct (main_renders plain_host "/s"
              ["render_script.py"; "--"; "car.OBJ"]
              sample_world sample_world "/s/model/car.OBJ" "car"
              Host.ImportObj [Some sample_mesh] eq_refl eq_refl eq_refl)
    as (w' & E & _ & H).
  change (existsb Host.is_mesh (loaded_objects [Some sample_mesh]))
    with true in H.
  destruct H as (Hr & _ & Hf & _).
  exists w'. split; [exact E|]. split; [exact Hr|exact Hf].
Defined.

(** ** Consolidation of a selected scene *)

Section CombineOutcomeProperties.

Import Geometry Effects Host RenderScript.
Local Open Scope script_scope.
Local Open Scope list_scope.
Local Open Scope R_scope.

Variable host : backend.










Lemma passes_count (n : nat) (o : object) :
  List.length (verts_of (Nat.iter n (apply_selected host true true true) o))
  = List.length (verts_of o).
Proof.
  induction n as [|n IH]; [reflexivity|].
  rewrite Nat.iter_succ, <- IH.
  generalize (Nat.iter n (apply_selected host true true true) o).
  intros x. unfold apply_selected.
  destruct (linked x && selected x)%bool; [|reflexivity].
  unfold apply_transform, verts_of. destruct (data x) eqn:Hd; cbn [data];
    rewrite ?Hd; try reflexivity.
  apply length_map.
Qed.

Lemma prepared_count (n : nat) (o : object) :
  List.length (verts_of (prepared host n o)) = List.length (verts_of o).
Proof.
  unfold prepared. destruct (linked o && is_mesh o)%bool;
    [change (verts_of (with_selected true ?x)) with (verts_of x)|];
    apply passes_count.
Qed.

Lemma join_into_count (t : object) (l : list object) :
  List.length (verts_of (join_into host t l))
  = (List.length (verts_of t)
     + list_sum (map (fun o => List.length (verts_of o)) l))%nat.
Proof.
  unfold join_into, with_data. cbn [verts_of data].
  rewrite length_app. f_equal.
  induction l as [|o l IH]; [reflexivity|].
  cbn [flat_map map list_sum]. rewrite length_app, length_map, IH.
  reflexivity.
Qed.

(** X18. Whatever is selected, [combine_objects] on a scene with a mesh
    returns an object that has as many vertices as the meshes of the
    scene had together, and leaves the disk unchanged.  An object that
    is neither selected nor a mesh of the scene (so: anything that is in
    no collection, and any light, camera or empty that is not selected)
    is afterwards exactly as it was. *)
Theorem combine_objects_frame (w : world) (first : oid) (o1 : object)
        (others : list (oid * object)) :
  meshes w = (first, o1) :: others ->
  exists w' c,
    combine_objects host w = (Ok (Some first), w')
    /\ find_object first w' = Some c
    /\ name c = "Combined_Object"%string
    /\ List.length (verts_of c)
       = list_sum (map (fun p => List.length (verts_of (snd p))) (meshes w))
    /\ (forall i o, find_object i w = Some o ->
                    (linked o && (selected o || is_mesh o))%bool = false ->
                    find_object i w' = Some o)
    /\ disk w' = disk w.
Proof.
  intros Hm.
  destruct (combine_objects_runs host w first o1 others Hm)
    as (w' & E & Hc & _ & Hrest & _ & Hd & _).
  cbv zeta in Hc, Hrest.
  exists w'. eexists. split; [exact E|]. split; [exact Hc|].
  split; [reflexivity|]. split; [|split; [|exact Hd]].
  - change (verts_of (with_name "Combined_Object" ?x)) with (verts_of x).
    rewrite join_into_count, prepared_count, Hm.
    cbn [map snd].
    change (list_sum (List.length (verts_of o1) :: ?l))
      with (List.length (verts_of o1) + list_sum l)%nat.
    apply f_equal. rewrite map_map. apply f_equal. apply map_ext.
    intros p. apply prepared_count.
  - intros i o Ho Hnot.
    assert (Hcases : (linked o && selected o)%bool = false
                     /\ (linked o && is_mesh o)%bool = false).
    { destruct (linked o), (selected o), (is_mesh o);
        cbn in *; auto; discriminate. }
    destruct Hcases as [Hns Hnm].
    assert (Hni : ~ In i (map fst (meshes w))).
    { intros Hin. apply in_map_iff in Hin.
      destruct Hin as ([j oj] & Hj & Hin). cbn [fst] in Hj. subst j.
      apply in_meshes in Hin. destruct Hin as (Hl & Hlk & Hmesh).
      unfold find_object in Ho. assert (oj = o) by congruence. subst oj.
      rewrite Hlk, Hmesh in Hnm. discriminate. }
    rewrite (Hrest i Hni), Ho. cbn [option_map]. f_equal.
    unfold prepared. rewrite Hnm. apply passes_unselected. exact Hns.
Qed.

End CombineOutcomeProperties.


Lemma combine_objects_frame_witness :
  exists w' c,
    RenderScript.combine_objects plain_host stored_world
    = (Effects.Ok (Some 0%nat), w')
    /\ Host.find_object 0%nat w' = Some c
    /\ List.length (Host.verts_of c) = 3%nat
    /\ Host.disk w' = Host.disk stored_world.
Proof.
  destruct (combine_objects_frame plain_host stored_world 0%nat
              stored_box [(1%nat, stored_lid)] eq_refl)
    as (w' & c & E & Hc & _ & Hn & _ & Hd).
  exists w', c. auto.
Defined.
